(** * ragchat: the RAG core, embedded in Rocq

    A shallow embedding of the retrieval core of the repository: the
    extractor's text normalisation, the sentence chunker, the prompt builder,
    the vector store, the document manager, the query router and the RAG
    pipeline, each translated from its JavaScript source, followed by the
    properties proved about them.

    Conventions of the embedding.
    - A JavaScript string is the list of its UTF-16 code units.
    - A JavaScript number that carries a similarity score or a clock reading
      is a finite IEEE 754 double, written as the rational ([Q]) it denotes.
      Every arithmetic operation rounds its exact result to the nearest
      double, ties to even ([fadd], [fsub], [fmul], [fdiv]); storing into a
      [Float32Array] rounds to the nearest single ([fround]); comparisons
      are exact.  NaN, the infinities (overflow) and the sign of zero are
      not represented.  Counts and lengths are integers ([Z]).
    - A method that can throw returns an [outcome]; an [async] method runs
      in the monad [M], which threads the log of the collaborator calls and
      the number of clock readings taken so far. *)

From Stdlib Require Import ZArith QArith Qround List String Ascii Lia Lqa
  DecimalString Sorting.Permutation Sorting.Sorted.
From stdpp Require Import base option list gmap.

Local Open Scope Z_scope.

(* ===================================================================== *)
(** ** JavaScript strings and values *)
(* ===================================================================== *)

Module JS.

(** A string is a sequence of UTF-16 code units. *)
Abbreviation jsstring := (list N).

(** Decoder used to write string literals: the bytes of a Rocq string are
    read as UTF-8 (one to three bytes per code unit). *)
Fixpoint utf8_decode (bs : list N) : jsstring :=
  match bs with
  | [] => []
  | b1 :: rest =>
      if (b1 <? 128)%N then b1 :: utf8_decode rest
      else match rest with
           | [] => [b1]
           | b2 :: rest2 =>
               if (b1 <? 224)%N
               then ((b1 - 192) * 64 + (b2 - 128))%N :: utf8_decode rest2
               else match rest2 with
                    | [] => [b1; b2]
                    | b3 :: rest3 =>
                        ((b1 - 224) * 4096 + (b2 - 128) * 64 + (b3 - 128))%N
                          :: utf8_decode rest3
                    end
           end
  end.

Definition js (s : string) : jsstring :=
  utf8_decode (List.map N_of_ascii (list_ascii_of_string s)).

Definition SPACE : N := 32%N.
Definition LF : N := 10%N.

(** The class [\s] of a regular expression, which is also what
    [String.prototype.trim] strips: WhiteSpace and LineTerminator. *)
Definition is_ws (c : N) : bool :=
  ((9 <=? c) && (c <=? 13) || (c =? 32) || (c =? 160) || (c =? 5760)
   || (8192 <=? c) && (c <=? 8202) || (c =? 8232) || (c =? 8233)
   || (c =? 8239) || (c =? 8287) || (c =? 12288) || (c =? 65279))%N.

Fixpoint trimStart (s : jsstring) : jsstring :=
  match s with
  | c :: t => if is_ws c then trimStart t else s
  | [] => []
  end.

Fixpoint trimEnd (s : jsstring) : jsstring :=
  match s with
  | [] => []
  | c :: t =>
      match trimEnd t with
      | [] => if is_ws c then [] else [c]
      | t' => c :: t'
      end
  end.

(** [s.trim()] *)
Definition trim (s : jsstring) : jsstring := trimEnd (trimStart s).

(** [s.replace(/\s+/g, ' ')]: every maximal run of whitespace becomes one
    space.  [in_run] tells that the previous code unit was whitespace. *)
Fixpoint replace_ws_runs (in_run : bool) (s : jsstring) : jsstring :=
  match s with
  | [] => []
  | c :: t =>
      if is_ws c
      then (if in_run then replace_ws_runs true t
            else SPACE :: replace_ws_runs true t)
      else c :: replace_ws_runs false t
  end.

(** What a maximal run of [n] line feeds becomes under [/\n{3,}/g]. *)
Definition flush_newlines (n : nat) : jsstring :=
  if (3 <=? n)%nat then [LF; LF] else repeat LF n.

(** [s.replace(/\n{3,}/g, '\n\n')]; [pending] counts the line feeds of the
    run being read. *)
Fixpoint replace_newline_runs (pending : nat) (s : jsstring) : jsstring :=
  match s with
  | [] => flush_newlines pending
  | c :: t =>
      if (c =? LF)%N then replace_newline_runs (S pending) t
      else flush_newlines pending ++ c :: replace_newline_runs 0 t
  end.

(** [s.split(/\s+/)]: the pieces between maximal whitespace runs; a
    leading or trailing run leaves an empty piece. *)
Fixpoint split_ws_from (in_run : bool) (s : jsstring) : list jsstring :=
  match s with
  | [] => [[]]
  | c :: t =>
      if is_ws c
      then (if in_run then split_ws_from true t
            else [] :: split_ws_from true t)
      else match split_ws_from false t with
           | w :: ws => (c :: w) :: ws
           | [] => [[c]]
           end
  end.

Definition split_ws (s : jsstring) : list jsstring := split_ws_from false s.

Definition is_sentence_end (c : N) : bool :=
  ((c =? 46) || (c =? 33) || (c =? 63))%N.

(** [s.split(/(?<=[.!?])\s+/)]: a separator is a whitespace run that
    directly follows one of [. ! ?].  [after_punct] tells that the previous
    code unit was such a mark, [in_sep] that a separator is being read. *)
Fixpoint split_sentences_from (after_punct in_sep : bool) (s : jsstring)
  : list jsstring :=
  match s with
  | [] => [[]]
  | c :: t =>
      if is_ws c && (in_sep || after_punct)
      then (if in_sep then split_sentences_from false true t
            else [] :: split_sentences_from false true t)
      else match split_sentences_from (is_sentence_end c) false t with
           | w :: ws => (c :: w) :: ws
           | [] => [[c]]
           end
  end.

(** [pieces.join(sep)] *)
Fixpoint join (sep : jsstring) (pieces : list jsstring) : jsstring :=
  match pieces with
  | [] => []
  | [p] => p
  | p :: rest => p ++ sep ++ join sep rest
  end.

(** [s.startsWith(p)] *)
Fixpoint startsWith (p s : jsstring) : bool :=
  match p, s with
  | [], _ => true
  | _ :: _, [] => false
  | a :: p', b :: s' => (a =? b)%N && startsWith p' s'
  end.

(** [s.includes(p)] *)
Fixpoint includes (p s : jsstring) : bool :=
  startsWith p s || match s with [] => false | _ :: t => includes p t end.

(** [s.split(p)[0]] for a non-empty [p]: the text before the first
    occurrence of [p], or all of [s]. *)
Fixpoint before_first (p s : jsstring) : jsstring :=
  if startsWith p s then []
  else match s with
       | [] => []
       | c :: t => c :: before_first p t
       end.

(** [arr.slice(start, end)] on integers, with the negative-index rule. *)
Definition slice_index (len i : Z) : Z :=
  if i <? 0 then Z.max (len + i) 0 else Z.min i len.

Definition slice {A} (l : list A) (start stop : Z) : list A :=
  let len := Z.of_nat (length l) in
  let k := slice_index len start in
  let final := slice_index len stop in
  take (Z.to_nat (final - k)) (drop (Z.to_nat k) l).

(** [arr.slice(start)] *)
Definition slice_from {A} (l : list A) (start : Z) : list A :=
  slice l start (Z.of_nat (length l)).

(** [arr.sort(cmp)].  The language specifies a stable sort; for a
    comparator that is a consistent ordering the result is the one stable
    arrangement, which insertion from the right computes: an element moves
    behind a later one only when [cmp] puts it strictly after. *)
Fixpoint sort_insert {A} (cmp : A -> A -> Q) (x : A) (l : list A) : list A :=
  match l with
  | [] => [x]
  | y :: t =>
      if Qle_bool (cmp x y) 0 then x :: l else y :: sort_insert cmp x t
  end.

Definition sort {A} (cmp : A -> A -> Q) (l : list A) : list A :=
  foldr (sort_insert cmp) [] l.

(** [String(n)] for an integer. *)
Definition decimal (n : Z) : jsstring :=
  js (NilZero.string_of_int (Z.to_int n)).

(** [a === b] on strings. *)
Definition str_eqb (a b : jsstring) : bool := bool_decide (a = b).

(** *** Numbers

    A finite binary floating-point number of precision [prec] is
    [m * 2 ^ x] with [|m| < 2 ^ prec] and [emin <= x].  Rounding takes a
    rational to the nearest such number, and to the one with even [m] when
    two are nearest. *)

(** [p / q] rounded to the nearest integer, the even one of two nearest;
    [0 <= p] and [0 < q]. *)
Definition round_half_even (p q : Z) : Z :=
  let k := p / q in
  match (2 * (p mod q)) ?= q with
  | Lt => k
  | Gt => k + 1
  | Eq => if Z.even k then k else k + 1
  end.

(** [n / d] divided by [2 ^ x], as a numerator and a denominator. *)
Definition scale2 (n d x : Z) : Z * Z :=
  if 0 <=? x then (n, d * 2 ^ x) else (n * 2 ^ (- x), d).

(** The exponent [e] of the leading binary digit of [n / d]:
    [2 ^ e <= n / d < 2 ^ (e + 1)]. *)
Definition ilog2 (n d : positive) : Z :=
  let e0 := Z.log2 (Zpos n) - Z.log2 (Zpos d) in
  let '(p, q) := scale2 (Zpos n) (Zpos d) e0 in
  if q <=? p then e0 else e0 - 1.

(** [m * 2 ^ x], in lowest terms. *)
Definition times_pow2 (m x : Z) : Q :=
  if 0 <=? x then inject_Z (m * 2 ^ x)
  else Qred (m # Z.to_pos (2 ^ (- x))).

Definition round_magnitude (prec emin : Z) (n d : positive) : Q :=
  let x := Z.max (ilog2 n d - (prec - 1)) emin in
  let '(p, q) := scale2 (Zpos n) (Zpos d) x in
  times_pow2 (round_half_even p q) x.

Definition round_binary (prec emin : Z) (v : Q) : Q :=
  match Qnum v with
  | Z0 => 0%Q
  | Zpos n => round_magnitude prec emin n (Qden v)
  | Zneg n => (- round_magnitude prec emin n (Qden v))%Q
  end.

(** The double nearest to a rational: 53 binary digits, least exponent
    -1074.  A numeric literal of the source denotes the double nearest to
    its decimal value. *)
Definition double : Q -> Q := round_binary 53 (-1074).

(** [Math.fround], and what storing into a [Float32Array] does: 24 binary
    digits, least exponent -149. *)
Definition fround : Q -> Q := round_binary 24 (-149).

(** [a + b], [a - b], [a * b] and [a / b] on numbers. *)
Definition fadd (a b : Q) : Q := double (a + b).
Definition fsub (a b : Q) : Q := double (a - b).
Definition fmul (a b : Q) : Q := double (a * b).
Definition fdiv (a b : Q) : Q := double (a / b).

(** The values a caller can pass where the code expects a string. *)
Inductive value :=
| Undefined
| Null
| Bool (b : bool)
| Number (q : Q)
| Str (s : jsstring)
| Object.

Definition truthy (v : value) : bool :=
  match v with
  | Undefined | Null => false
  | Bool b => b
  | Number q => negb (Qeq_bool q 0)
  | Str s => match s with [] => false | _ => true end
  | Object => true
  end.

Definition is_string (v : value) : bool :=
  match v with Str _ => true | _ => false end.

(** Exceptions: [new Error(msg)] and the engine's [TypeError]. *)
Inductive exn :=
| Error (msg : jsstring)
| TypeError (msg : jsstring).

Definition message (e : exn) : jsstring :=
  match e with Error m | TypeError m => m end.

Inductive outcome (A : Type) :=
| Return (a : A)
| Throw (e : exn).
Arguments Return {A} a.
Arguments Throw {A} e.

(** What the host provides: the clock, and the numeric built-ins that are
    not rational functions.  [performance_now k] is the reading returned by
    the [k]-th call of [performance.now()]. *)
Record host := {
  performance_now : nat -> Q;
  Math_sqrt : Q -> Q;
  toFixed : Q -> Z -> jsstring;
  parseFloat : jsstring -> Q
}.

End JS.
Import JS.

(* ===================================================================== *)
(** ** Extractor: [TextExtractor.cleanText] (src/preprocessing/run_pipeline.js) *)
(* ===================================================================== *)

Module TextExtractor.

Definition cleanText (text : jsstring) : jsstring :=
  trim (replace_newline_runs 0 (replace_ws_runs false text)).

End TextExtractor.

(* ===================================================================== *)
(** ** Records shared by the offline pipeline and the runtime *)
(* ===================================================================== *)

(** A document of the manifest ([documents.json]). *)
Module Document.
Record t := {
  id : jsstring;
  title : jsstring;
  filename : jsstring;
  source_url : jsstring;
  category : jsstring;
  language : jsstring
}.
End Document.

(** A chunk as the chunker writes it ([chunks.json]). *)
Module Chunk.
Record meta := {
  document_title : jsstring;
  document_filename : jsstring;
  source_url : jsstring
}.
Record t := {
  chunk_id : jsstring;
  document_id : jsstring;
  text : jsstring;
  tokens : Z;
  chunk_index : Z;
  category : jsstring;
  language : jsstring;
  metadata : meta
}.
End Chunk.

(** A category of [categories.json]. *)
Module Category.
Record t := {
  id : jsstring;
  name_uk : jsstring;
  name_en : jsstring
}.
End Category.

(* ===================================================================== *)
(** ** Chunker: [TextChunker] (src/unnamed/part_000) *)
(* ===================================================================== *)

Module TextChunker.

Definition TARGET_TOKENS : Z := 250.
Definition OVERLAP_TOKENS : Z := 50.
Definition MIN_CHUNK_TOKENS : Z := 100.

(** [Math.ceil(text.length / 3.5)] *)
Definition estimateTokens (text : jsstring) : Z :=
  Qceiling (inject_Z (Z.of_nat (length text)) / (7 # 2)).

Definition splitIntoSentences (text : jsstring) : list jsstring :=
  List.filter (fun s => (0 <? length s)%nat)
    (List.map trim (split_sentences_from false false text)).

Definition getOverlapText (text : jsstring) (tokens : Z) : jsstring :=
  let words := split_ws text in
  let overlapWords := Z.min tokens (Z.of_nat (length words)) in
  if overlapWords <=? 0 then []
  else join [SPACE] (slice_from words (- overlapWords)).

Definition createChunkObject (text : jsstring) (doc : Document.t)
    (chunkIndex tokens : Z) : Chunk.t :=
  {| Chunk.chunk_id := Document.id doc ++ js "_chunk_" ++ decimal chunkIndex;
     Chunk.document_id := Document.id doc;
     Chunk.text := text;
     Chunk.tokens := tokens;
     Chunk.chunk_index := chunkIndex;
     Chunk.category := Document.category doc;
     Chunk.language := Document.language doc;
     Chunk.metadata :=
       {| Chunk.document_title := Document.title doc;
          Chunk.document_filename := Document.filename doc;
          Chunk.source_url := Document.source_url doc |} |}.

(** The variables of the loop of [createChunks]. *)
Record state := {
  chunks : list Chunk.t;
  currentChunk : jsstring;
  currentTokens : Z;
  chunkIndex : Z
}.

Definition initial : state :=
  {| chunks := []; currentChunk := []; currentTokens := 0; chunkIndex := 0 |}.

(** A string is truthy when it is not empty. *)
Definition nonempty (s : jsstring) : bool :=
  match s with [] => false | _ => true end.

(** One iteration of the [for] loop. *)
Definition step (doc : Document.t) (st : state) (sentence : jsstring) : state :=
  let sentenceTokens := estimateTokens sentence in
  if (TARGET_TOKENS <? currentTokens st + sentenceTokens)
     && nonempty (currentChunk st)
  then
    let overlapText := getOverlapText (currentChunk st) OVERLAP_TOKENS in
    let seeded :=
      if nonempty overlapText then overlapText ++ [SPACE] ++ sentence
      else sentence in
    {| chunks := chunks st ++
         [createChunkObject (trim (currentChunk st)) doc (chunkIndex st)
            (currentTokens st)];
       currentChunk := seeded;
       currentTokens := estimateTokens seeded;
       chunkIndex := chunkIndex st + 1 |}
  else
    {| chunks := chunks st;
       currentChunk := currentChunk st
         ++ (if nonempty (currentChunk st) then [SPACE] else []) ++ sentence;
       currentTokens := currentTokens st + sentenceTokens;
       chunkIndex := chunkIndex st |}.

(** The loop over a sequence of sentences. *)
Definition run (doc : Document.t) (sentences : list jsstring) : state :=
  fold_left (step doc) sentences initial.

Definition createChunks (sentences : list jsstring) (doc : Document.t)
  : list Chunk.t :=
  let st := run doc sentences in
  if nonempty (currentChunk st) && (MIN_CHUNK_TOKENS <=? currentTokens st)
  then chunks st ++
         [createChunkObject (trim (currentChunk st)) doc (chunkIndex st)
            (currentTokens st)]
  else chunks st.

End TextChunker.

(* ===================================================================== *)
(** ** Downloader: [DocumentDownloader] (src/preprocessing/run_pipeline.js) *)
(* ===================================================================== *)

Module DocumentDownloader.

Definition site : jsstring := js "https://kdpu.edu.ua".

Definition normalizeUrl (url : jsstring) : jsstring :=
  if startsWith (js "http") url then url
  else if startsWith (js "/") url then site ++ url
  else site ++ js "/" ++ url.

Definition UNDERSCORE : N := 95%N.

(** The character class of the first replacement of [sanitizeFilename]:
    less-than, greater-than, colon, double quote, slash, backslash, bar,
    question mark and asterisk. *)
Definition is_unsafe (c : N) : bool :=
  ((c =? 60) || (c =? 62) || (c =? 58) || (c =? 34) || (c =? 47)
   || (c =? 92) || (c =? 124) || (c =? 63) || (c =? 42))%N.

(** The first replacement: every unsafe character becomes an underscore. *)
Definition replace_unsafe (s : jsstring) : jsstring :=
  List.map (fun c => if is_unsafe c then UNDERSCORE else c) s.

(** [s.replace(/\s+/g, '_')]; [in_run] tells that the previous code unit
    was whitespace. *)
Fixpoint underscore_ws_runs (in_run : bool) (s : jsstring) : jsstring :=
  match s with
  | [] => []
  | c :: t =>
      if is_ws c
      then (if in_run then underscore_ws_runs true t
            else UNDERSCORE :: underscore_ws_runs true t)
      else c :: underscore_ws_runs false t
  end.

(** [.substring(0, 200)] is the first 200 code units. *)
Definition sanitizeFilename (name : jsstring) : jsstring :=
  take 200 (underscore_ws_runs false (replace_unsafe name)).

End DocumentDownloader.

(* ===================================================================== *)
(** ** Embedding driver: [EmbeddingGenerator.createBatches] (src/unnamed/part_000) *)
(* ===================================================================== *)

Module EmbeddingGenerator.

Definition BATCH_SIZE : Z := 10.

(** The [for] loop of [createBatches] from index [i] on.  Each unit of
    [fuel] pays for one iteration; [None] means that the fuel ran out
    before the loop condition failed. *)
Fixpoint batchesFrom {A} (fuel : nat) (array : list A) (batchSize i : Z)
  : option (list (list A)) :=
  if i <? Z.of_nat (length array)
  then match fuel with
       | O => None
       | S fuel' =>
           cons (slice array i (i + batchSize))
             <$> batchesFrom fuel' array batchSize (i + batchSize)
       end
  else Some [].

Definition createBatches {A} (fuel : nat) (array : list A) (batchSize : Z)
  : option (list (list A)) :=
  batchesFrom fuel array batchSize 0.

End EmbeddingGenerator.

(* ===================================================================== *)
(** ** Effects of the asynchronous methods *)
(* ===================================================================== *)

Module Eff.

(** The calls made to the collaborators. *)
Inductive call :=
| EmbedText (text : value)
| Search (topK : Z)
| GenerateResponse (prompt : jsstring).

Record world := {
  clock : nat;        (* readings of [performance.now()] taken so far *)
  log : list call     (* collaborator calls, oldest first *)
}.

Definition start : world := {| clock := 0; log := [] |}.

Definition M (A : Type) : Type := world -> outcome A * world.

Definition ret {A} (a : A) : M A := fun w => (Return a, w).

Definition throw {A} (e : exn) : M A := fun w => (Throw e, w).

Definition bind {A B} (m : M A) (k : A -> M B) : M B :=
  fun w =>
    match m w with
    | (Return a, w') => k a w'
    | (Throw e, w') => (Throw e, w')
    end.

(** [try { body } catch (error) { handler }] *)
Definition try_catch {A} (body : M A) (handler : exn -> M A) : M A :=
  fun w =>
    match body w with
    | (Return a, w') => (Return a, w')
    | (Throw e, w') => handler e w'
    end.

(** Calling a collaborator: the call is logged, then it returns or throws. *)
Definition invoke {A} (c : call) (result : outcome A) : M A :=
  fun w => (result, {| clock := clock w; log := log w ++ [c] |}).

(** A synchronous computation of the method itself. *)
Definition lift {A} (result : outcome A) : M A := fun w => (result, w).

(** [performance.now()] *)
Definition now (h : host) : M Q :=
  fun w => (Return (performance_now h (clock w)),
            {| clock := S (clock w); log := log w |}).

End Eff.
Import Eff.

Declare Scope eff_scope.
Delimit Scope eff_scope with eff.
Notation "x <- m ;; k" := (bind m (fun x => k))
  (at level 100, m at next level, right associativity) : eff_scope.

(* ===================================================================== *)
(** ** Prompt builder: [PromptBuilder] (src/unnamed/part_003) *)
(* ===================================================================== *)

Module PromptBuilder.

Record message := {
  role : jsstring;
  content : jsstring
}.

Record t := {
  maxContextTokens : Z
}.

(** [new PromptBuilder()]: the constructor's default argument. *)
Definition new : t := {| maxContextTokens := 512 |}.

(** The arrow function mapped over the messages. *)
Definition formatMessage (msg : message) : jsstring :=
  (if str_eqb (role msg) (js "user") then js "User" else js "Assistant")
    ++ js ": " ++ content msg.

(** The [while] loop of [formatConversationHistory].  Each call is one
    test of the loop condition on the array [formatted]: [fullText] and
    [tokenCount] are always the join of the array and its count, and the
    body [formatted.shift()] passes on to the tail. *)
Fixpoint truncateOldest (tokenCounter : jsstring -> Z) (maxTokens : Z)
    (formatted : list jsstring) : jsstring :=
  let fullText := join [LF] formatted in
  let tokenCount := tokenCounter fullText in
  match formatted with
  | _ :: (_ :: _) as shifted =>
      if maxTokens <? tokenCount
      then truncateOldest tokenCounter maxTokens shifted
      else fullText
  | _ => fullText
  end.

Definition formatConversationHistory (messages : list message)
    (maxTokens : Z) (tokenCounter : jsstring -> Z) : jsstring :=
  match messages with
  | [] => []
  | _ => truncateOldest tokenCounter maxTokens (List.map formatMessage messages)
  end.

Definition createPrompt (conversationHistory newMessage : jsstring) : jsstring :=
  match conversationHistory with
  | _ :: _ =>
      conversationHistory ++ LF :: js "User: " ++ newMessage
        ++ LF :: js "Assistant:"
  | [] => js "User: " ++ newMessage ++ LF :: js "Assistant:"
  end.

Definition prefixes : list jsstring :=
  [js "Assistant:"; js "Bot:"; js "AI:"; js "GPT:"].

Definition stopAt (marker response : jsstring) : jsstring :=
  if includes marker response then trim (before_first marker response)
  else response.

Definition stripPrefix (response prefix : jsstring) : jsstring :=
  if startsWith prefix response then trim (drop (length prefix) response)
  else response.

Definition extractResponse (generatedText : jsstring) : jsstring :=
  let response := trim generatedText in
  let response := stopAt (LF :: js "User:") response in
  let response := stopAt (LF :: js "Assistant:") response in
  fold_left stripPrefix prefixes response.

Definition buildPrompt (pb : t) (messages : list message)
    (newMessage : jsstring) (tokenCounter : jsstring -> Z) : jsstring :=
  let historyTokenLimit := maxContextTokens pb - 100 in
  let history :=
    formatConversationHistory messages historyTokenLimit tokenCounter in
  createPrompt history newMessage.

(** The result of [validateMessage]: [{valid: true}] or
    [{valid: false, error}]. *)
Inductive validation :=
| Valid
| Invalid (error : jsstring).

Definition validateMessage (content : value) : validation :=
  if negb (truthy content) || negb (is_string content)
  then Invalid (js "Message content is required")
  else
    match content with
    | Str c =>
        let trimmed := trim c in
        if (length trimmed =? 0)%nat
        then Invalid (js "Message cannot be empty")
        else if (2000 <? length trimmed)%nat
        then Invalid (js "Message is too long (max 2000 characters)")
        else Valid
    | _ => Invalid (js "Message content is required")
    end.

Definition calculatePromptTokens (pb : t) (messages : list message)
    (newMessage : jsstring) (tokenCounter : jsstring -> Z) : Z :=
  tokenCounter (buildPrompt pb messages newMessage tokenCounter).

(** The prompt builder as the RAG pipeline sees it: an object on which it
    calls [buildRAGPrompt] and [extractResponse].  A method the object does
    not have is [None]; calling it raises a [TypeError]. *)
Record object := {
  buildRAGPrompt : option (value -> jsstring -> outcome jsstring);
  extractResponse_method : option (jsstring -> outcome jsstring)
}.

(** An instance of the class.  The class declares
    [formatConversationHistory], [createPrompt], [extractResponse],
    [buildPrompt], [validateMessage] and [calculatePromptTokens]; it
    declares no [buildRAGPrompt]. *)
Definition as_object (pb : t) : object :=
  {| buildRAGPrompt := None;
     extractResponse_method := Some (fun g => Return (extractResponse g)) |}.

End PromptBuilder.

(* ===================================================================== *)
(** ** Embedding and generation models *)
(* ===================================================================== *)

(** [EmbeddingManager.embedText] (src/unnamed/part_003).  The Transformers.js
    pipeline is the external embedder. *)
Module EmbeddingManager.

Record t := {
  isLoaded : bool;
  pipeline : option (jsstring -> outcome (list Q))
}.

Definition embedText (em : t) (text : value) : outcome (list Q) :=
  match isLoaded em, pipeline em with
  | true, Some run =>
      match text with
      | Str (c :: s) => run (c :: s)
      | _ => Throw (Error (js "Text must be a non-empty string"))
      end
  | _, _ =>
      Throw (Error (js "Embedding model not loaded. Call loadModel() first."))
  end.

(** [embedBatch]; [texts] is [None] when the argument is not an array.
    The texts are embedded one after the other and the first throw ends
    the batch. *)
Fixpoint embedEach (em : t) (texts : list value) : outcome (list (list Q)) :=
  match texts with
  | [] => Return []
  | text :: rest =>
      match embedText em text with
      | Throw e => Throw e
      | Return embedding =>
          match embedEach em rest with
          | Throw e => Throw e
          | Return embeddings => Return (embedding :: embeddings)
          end
      end
  end.

Definition embedBatch (em : t) (texts : option (list value))
  : outcome (list (list Q)) :=
  match texts with
  | None => Throw (Error (js "Texts must be an array"))
  | Some [] => Return []
  | Some ts => embedEach em ts
  end.

End EmbeddingManager.

(** [ModelManager.generateResponse] (src/unnamed/part_003). *)
Module ModelManager.

(** The [config] object of the caller; an absent field is [None]. *)
Record config := {
  max_length : option Q;
  temperature : option Q;
  top_k : option Q;
  top_p : option Q;
  repetition_penalty : option Q
}.

Definition no_config : config :=
  {| max_length := None; temperature := None; top_k := None;
     top_p := None; repetition_penalty := None |}.

(** The options handed to the text-generation pipeline. *)
Record generation_options := {
  opt_max_new_tokens : Q;
  opt_temperature : Q;
  opt_top_k : Q;
  opt_top_p : Q;
  opt_repetition_penalty : Q;
  opt_do_sample : bool;
  opt_return_full_text : bool
}.

Record t := {
  isLoaded : bool;
  pipeline : option (jsstring -> generation_options -> outcome jsstring)
}.

(** [x || d] on an optional number. *)
Definition or_default (x : option Q) (d : Q) : Q :=
  match x with
  | Some q => if Qeq_bool q 0 then d else q
  | None => d
  end.

Definition generateResponse (mm : t) (prompt : jsstring) (cfg : config)
  : outcome jsstring :=
  match isLoaded mm, pipeline mm with
  | true, Some run =>
      run prompt
        {| opt_max_new_tokens := or_default (max_length cfg) 100;
           opt_temperature := or_default (temperature cfg) (double (7 # 10));
           opt_top_k := or_default (top_k cfg) 50;
           opt_top_p := or_default (top_p cfg) (double (9 # 10));
           opt_repetition_penalty :=
             or_default (repetition_penalty cfg) (double (12 # 10));
           opt_do_sample := true;
           opt_return_full_text := false |}
  | _, _ => Throw (Error (js "Model not loaded. Call loadModel() first."))
  end.

(** [Math.ceil(text.length / 4)] *)
Definition countTokens (text : jsstring) : Z :=
  Qceiling (inject_Z (Z.of_nat (length text)) / 4).

End ModelManager.

(* ===================================================================== *)
(** ** Vector store: [VectorStore] (src/unnamed/part_004) *)
(* ===================================================================== *)

Module VectorStore.

(** The [embedding] field of a chunk of [embeddings.json]. *)
Inductive embedding_field :=
| PlainArray (v : list Q)
| Float32Array (v : list Q)
| NotAnArray.

(** A chunk of the embeddings file: the chunk and its embedding. *)
Record stored_chunk := {
  chunk : Chunk.t;
  embedding : embedding_field
}.

(** The parsed file; an absent field is [None]. *)
Record embeddings_data := {
  data_chunks : option (list stored_chunk);
  embedding_dim : option Z
}.

Record t := {
  chunks : list stored_chunk;
  embeddings : list (list Q);
  isLoaded : bool;
  embeddingDim : Z
}.

(** The constructor. *)
Definition new : t :=
  {| chunks := []; embeddings := []; isLoaded := false; embeddingDim := 768 |}.

(** The callback of [this.chunks.map] in [loadEmbeddings]: an array is
    copied into a new [Float32Array], which rounds every element to a
    single; a [Float32Array] is kept as it is. *)
Definition toFloat32 (c : stored_chunk) : outcome (list Q) :=
  match embedding c with
  | PlainArray v => Return (List.map fround v)
  | Float32Array v => Return v
  | NotAnArray =>
      Throw (Error (js "Invalid embedding format for chunk "
                      ++ Chunk.chunk_id (chunk c)))
  end.

(** [arr.map(f)] for a callback that can throw: the first throw wins. *)
Fixpoint map_outcome {A B} (f : A -> outcome B) (l : list A)
  : outcome (list B) :=
  match l with
  | [] => Return []
  | x :: t =>
      match f x with
      | Throw e => Throw e
      | Return y =>
          match map_outcome f t with
          | Throw e => Throw e
          | Return ys => Return (y :: ys)
          end
      end
  end.

(** [loadEmbeddings] returns or throws, and leaves the store in a new
    state.  On a throw inside the [try], [chunks] and [embeddingDim] have
    already been assigned. *)
Definition loadEmbeddings (vs : t) (embeddingsData : option embeddings_data)
  : outcome unit * t :=
  match embeddingsData with
  | Some {| data_chunks := Some cs; embedding_dim := dim |} =>
      let vs1 :=
        {| chunks := cs;
           embeddings := embeddings vs;
           isLoaded := isLoaded vs;
           embeddingDim :=
             match dim with
             | Some d => if d =? 0 then 768 else d
             | None => 768
             end |} in
      match map_outcome toFloat32 cs with
      | Return es =>
          (Return tt,
           {| chunks := chunks vs1; embeddings := es; isLoaded := true;
              embeddingDim := embeddingDim vs1 |})
      | Throw error => (Throw error, vs1)
      end
  | _ => (Throw (Error (js "Invalid embeddings data format")), vs)
  end.

Definition dotProduct (vec1 vec2 : list Q) : outcome Q :=
  if negb (length vec1 =? length vec2)%nat
  then Throw (Error (js "Vectors must have same length"))
  else Return (fold_left (fun sum '(a, b) => fadd sum (fmul a b))
                 (combine vec1 vec2) 0%Q).

Definition cosineSimilarity (h : host) (vec1 vec2 : list Q) : outcome Q :=
  if negb (length vec1 =? length vec2)%nat
  then Throw (Error (js "Vectors must have same length"))
  else
    let '(dotProduct, mag1, mag2) :=
      fold_left
        (fun '(dotProduct, mag1, mag2) '(a, b) =>
           (fadd dotProduct (fmul a b), fadd mag1 (fmul a a),
            fadd mag2 (fmul b b)))
        (combine vec1 vec2) (0, 0, 0)%Q in
    let magnitude := fmul (Math_sqrt h mag1) (Math_sqrt h mag2) in
    if Qeq_bool magnitude 0 then Return 0%Q
    else Return (fdiv dotProduct magnitude).

(** The [filters] object; an absent field is [None]. *)
Record filters := {
  f_category : option jsstring;
  f_language : option jsstring;
  f_document_id : option jsstring
}.

Definition no_filters : filters :=
  {| f_category := None; f_language := None; f_document_id := None |}.

(** [filters.x && chunk.x !== filters.x]: an empty string is falsy. *)
Definition rejects (wanted : option jsstring) (actual : jsstring) : bool :=
  match wanted with
  | Some (c :: s) => negb (str_eqb actual (c :: s))
  | _ => false
  end.

(** An entry of the array [similarities]. *)
Record similarity := {
  index : nat;
  score : Q
}.

(** An element of the result, [{...this.chunks[index], similarity_score}]:
    the fields of the chunk at that index and the score.  When the store has
    no chunk at the index (it holds more vectors than chunks after a reload
    that failed half-way) the spread adds nothing: [stored] is [None] and
    every field but [similarity_score] reads [undefined]. *)
Record scored_chunk := {
  stored : option stored_chunk;
  similarity_score : Q
}.

(** [result.field], [None] for [undefined]. *)
Definition field {A} (get : Chunk.t -> A) (r : scored_chunk) : option A :=
  (fun c => get (chunk c)) <$> stored r.

(** A filter that is supplied: [filters.x] is truthy. *)
Definition active (wanted : option jsstring) : bool :=
  match wanted with Some (_ :: _) => true | _ => false end.

(** [Cannot read properties of undefined (reading 'x')] *)
Definition undefinedRead (property : string) : exn :=
  TypeError (js "Cannot read properties of undefined (reading '"
               ++ js property ++ js "')").

(** The three [continue] tests on [chunk = this.chunks[i]], in order.  A
    field of the chunk is read only behind a supplied filter; when the
    chunk is missing, that read raises a [TypeError]. *)
Definition filteredOut (fs : filters) (c : option stored_chunk)
  : outcome bool :=
  match c with
  | Some c =>
      Return (rejects (f_category fs) (Chunk.category (chunk c))
              || rejects (f_language fs) (Chunk.language (chunk c))
              || rejects (f_document_id fs) (Chunk.document_id (chunk c)))
  | None =>
      if active (f_category fs) then Throw (undefinedRead "category")
      else if active (f_language fs) then Throw (undefinedRead "language")
      else if active (f_document_id fs)
      then Throw (undefinedRead "document_id")
      else Return false
  end.

(** The [for] loop of [search], from index [i] on, over the rest of
    [this.embeddings]. *)
Fixpoint scan (h : host) (vs : t) (queryEmbedding : list Q) (fs : filters)
    (useCosineSim : bool) (i : nat) (rest : list (list Q))
  : outcome (list similarity) :=
  match rest with
  | [] => Return []
  | e :: rest' =>
      match filteredOut fs (chunks vs !! i) with
      | Throw err => Throw err
      | Return true => scan h vs queryEmbedding fs useCosineSim (S i) rest'
      | Return false =>
          match (if useCosineSim
                 then cosineSimilarity h queryEmbedding e
                 else dotProduct queryEmbedding e) with
          | Throw err => Throw err
          | Return s =>
              match scan h vs queryEmbedding fs useCosineSim (S i) rest' with
              | Throw err => Throw err
              | Return sims => Return ({| index := i; score := s |} :: sims)
              end
          end
      end
  end.

(** The comparator of the sort: [(a, b) => b.score - a.score].  The sort
    reads the sign of the result only, and the rounded difference of two
    doubles has the sign of their exact difference, which is what is kept
    here. *)
Definition byScoreDesc (a b : similarity) : Q := (score b - score a)%Q.

(** The callback of [topResults.map]. *)
Definition attach (vs : t) (result : similarity) : scored_chunk :=
  {| stored := chunks vs !! index result; similarity_score := score result |}.

(** [search].  The query is the list of the elements of the array or
    typed array passed in.  An array is copied into a [Float32Array], which
    rounds its elements to singles; the elements of a [Float32Array] are
    singles already, which [fround] leaves as they are
    ([fround_idempotent]), so that the rounding covers both sides of the
    [instanceof] test. *)
Definition search (h : host) (vs : t) (queryEmbedding : list Q) (topK : Z)
    (fs : filters) (useCosineSim : bool) : outcome (list scored_chunk) :=
  if negb (isLoaded vs)
  then Throw (Error (js "Vector store not loaded. Call loadEmbeddings() first."))
  else
    let queryEmbedding := List.map fround queryEmbedding in
    if negb (Z.of_nat (length queryEmbedding) =? embeddingDim vs)
    then Throw (Error (js "Query embedding dimension mismatch. Expected "
                         ++ decimal (embeddingDim vs) ++ js ", got "
                         ++ decimal (Z.of_nat (length queryEmbedding))))
    else
      match scan h vs queryEmbedding fs useCosineSim 0 (embeddings vs) with
      | Throw err => Throw err
      | Return similarities =>
          let sorted := sort byScoreDesc similarities in
          let topResults := slice sorted 0 topK in
          Return (List.map (attach vs) topResults)
      end.

Definition getChunkById (vs : t) (chunkId : jsstring) : option stored_chunk :=
  List.find (fun c => str_eqb (Chunk.chunk_id (chunk c)) chunkId) (chunks vs).

Definition getChunksByDocument (vs : t) (documentId : jsstring)
  : list stored_chunk :=
  List.filter (fun c => str_eqb (Chunk.document_id (chunk c)) documentId)
    (chunks vs).

Definition getChunksByCategory (vs : t) (category : jsstring)
  : list stored_chunk :=
  List.filter (fun c => str_eqb (Chunk.category (chunk c)) category)
    (chunks vs).

Definition getChunksByLanguage (vs : t) (language : jsstring)
  : list stored_chunk :=
  List.filter (fun c => str_eqb (Chunk.language (chunk c)) language)
    (chunks vs).

(** [clear] empties the arrays and resets the flag; the dimension stays. *)
Definition clear (vs : t) : t :=
  {| chunks := []; embeddings := []; isLoaded := false;
     embeddingDim := embeddingDim vs |}.

Definition isStoreLoaded (vs : t) : bool := isLoaded vs.

End VectorStore.

(* ===================================================================== *)
(** ** Document catalog: [DocumentManager] (src/docs/js/rag/documentManager.js) *)
(* ===================================================================== *)

Module DocumentManager.

Record t := {
  documents : list Document.t;
  categories : list Category.t;
  documentsById : gmap jsstring Document.t;
  documentsByCategory : gmap jsstring (list Document.t);
  isLoaded : bool
}.

(** The constructor. *)
Definition new : t :=
  {| documents := []; categories := []; documentsById := ∅;
     documentsByCategory := ∅; isLoaded := false |}.

(** The first [forEach] of [loadMetadata]: [documentsById.set(doc.id, doc)]. *)
Definition indexById (docs : list Document.t) : gmap jsstring Document.t :=
  fold_left (fun m doc => <[Document.id doc := doc]> m) docs ∅.

(** The second [forEach]: the documents of each category, in order. *)
Definition indexByCategory (docs : list Document.t)
  : gmap jsstring (list Document.t) :=
  fold_left
    (fun m doc =>
       <[Document.category doc :=
           default [] (m !! Document.category doc) ++ [doc]]> m)
    docs ∅.

(** [loadMetadata]; an absent [documents] or [categories] field is [None]. *)
Definition loadMetadata (dm : t) (documentsData : option (list Document.t))
    (categoriesData : option (list Category.t)) : outcome unit * t :=
  match documentsData, categoriesData with
  | None, _ => (Throw (Error (js "Invalid documents data format")), dm)
  | Some _, None => (Throw (Error (js "Invalid categories data format")), dm)
  | Some docs, Some cats =>
      (Return tt,
       {| documents := docs; categories := cats;
          documentsById := indexById docs;
          documentsByCategory := indexByCategory docs;
          isLoaded := true |})
  end.

(** [this.documentsById.get(id) || null]; [None] is [null]. *)
Definition getDocumentById (dm : t) (id : jsstring) : option Document.t :=
  documentsById dm !! id.

Definition getCategoryById (dm : t) (categoryId : jsstring)
  : option Category.t :=
  List.find (fun cat => str_eqb (Category.id cat) categoryId) (categories dm).

Definition getCategoryName (dm : t) (categoryId language : jsstring)
  : jsstring :=
  match getCategoryById dm categoryId with
  | None => categoryId
  | Some category =>
      if str_eqb language (js "en") then Category.name_en category
      else Category.name_uk category
  end.

(** [this.documentsByCategory.get(categoryId) || []] *)
Definition getDocumentsByCategory (dm : t) (categoryId : jsstring)
  : list Document.t :=
  default [] (documentsByCategory dm !! categoryId).

(** The [filters] of [getAllDocuments]; an absent or empty field does not
    filter. *)
Definition keeps (wanted : option jsstring) (actual : jsstring) : bool :=
  match wanted with
  | Some (c :: s) => str_eqb actual (c :: s)
  | _ => true
  end.

Definition getAllDocuments (dm : t) (category language : option jsstring)
  : list Document.t :=
  List.filter (fun doc => keeps language (Document.language doc))
    (List.filter (fun doc => keeps category (Document.category doc))
       (documents dm)).

Definition getDocumentsByLanguage (dm : t) (language : jsstring)
  : list Document.t :=
  List.filter (fun doc => str_eqb (Document.language doc) language)
    (documents dm).

Definition isManagerLoaded (dm : t) : bool := isLoaded dm.

Definition clear (dm : t) : t :=
  {| documents := []; categories := []; documentsById := ∅;
     documentsByCategory := ∅; isLoaded := false |}.

End DocumentManager.

(* ===================================================================== *)
(** ** Query router: [QueryRouter] (src/unnamed/part_004) *)
(* ===================================================================== *)

Inductive mode := ModeRag | ModeGeneral | ModeNoResults | ModeError.

Module QueryRouter.

Record t := {
  embeddingManager : EmbeddingManager.t;
  vectorStore : VectorStore.t;
  thresholdSimilarity : Q;
  minimumConfidence : Q
}.

(** The constructor: the thresholds are the literals [0.6] and [0.4]. *)
Definition new (em : EmbeddingManager.t) (vs : VectorStore.t) : t :=
  {| embeddingManager := em; vectorStore := vs;
     thresholdSimilarity := double (6 # 10);
     minimumConfidence := double (4 # 10) |}.

(** An [options] object; an absent [topK] is [None]. *)
Record options := {
  forceMode : value;
  topK : option Z
}.

Definition no_options : options := {| forceMode := Undefined; topK := None |}.

(** The [options] argument: an object, or [null].  An argument that is
    left out or [undefined] is the empty object [no_options], by the default
    value of the parameter; so is, for the destructuring, a boolean, a
    number or a string, which has none of the fields. *)
Inductive options_arg :=
| OptionsObject (o : options)
| OptionsNull.


(** The routing decision. *)
Record decision := {
  dmode : mode;
  confidence : Q;
  reason : jsstring;
  relevantChunks : list VectorStore.scored_chunk;
  error : option jsstring
}.

(** [`${(topScore * 100).toFixed(1)}%`] *)
Definition percent (h : host) (topScore : Q) : jsstring :=
  toFixed h (fmul topScore 100) 1 ++ js "%".

(** [forceMode === 'rag'] and the like. *)
Definition is_str (v : value) (s : jsstring) : bool :=
  match v with Str s' => str_eqb s' s | _ => false end.

(** [routeQuery]: the check of the query, then the destructuring of
    [options], which raises a [TypeError] on [null], both before the
    [try]. *)
Definition routeQuery (h : host) (r : t) (userQuery : value)
    (options : options_arg) : M decision :=
  (if negb (truthy userQuery) || negb (is_string userQuery)
   then throw (Error (js "User query must be a non-empty string"))
   else
     match options with
     | OptionsNull =>
         throw (TypeError
                  (js "Cannot destructure property 'forceMode' of 'options' as it is null."))
     | OptionsObject opts =>
      (let topK := default 1 (topK opts) in
         if is_str (forceMode opts) (js "rag")
         then ret {| dmode := ModeRag; confidence := 1;
                     reason := js "Forced RAG mode";
                     relevantChunks := []; error := None |}
         else if is_str (forceMode opts) (js "general")
         then ret {| dmode := ModeGeneral; confidence := 1;
                     reason := js "Forced general chat mode";
                     relevantChunks := []; error := None |}
         else
           try_catch
             (queryEmbedding <-
                invoke (EmbedText userQuery)
                  (EmbeddingManager.embedText (embeddingManager r) userQuery) ;;
              results <-
                invoke (Search topK)
                  (VectorStore.search h (vectorStore r) queryEmbedding topK
                     VectorStore.no_filters false) ;;
              match results with
              | [] =>
                  ret {| dmode := ModeGeneral; confidence := 1;
                         reason := js "No documents found in vector store";
                         relevantChunks := []; error := None |}
              | top :: _ =>
                  let topScore := VectorStore.similarity_score top in
                  if Qle_bool (thresholdSimilarity r) topScore
                  then ret {| dmode := ModeRag; confidence := topScore;
                              reason := js "High similarity (" ++ percent h topScore
                                          ++ js ") to document content";
                              relevantChunks := results; error := None |}
                  else if Qle_bool (minimumConfidence r) topScore
                  then ret {| dmode := ModeGeneral;
                              confidence := fsub 1 topScore;
                              reason := js "Low similarity (" ++ percent h topScore
                                          ++ js ") to documents - using general chat";
                              relevantChunks := results; error := None |}
                  else ret {| dmode := ModeGeneral; confidence := 1;
                              reason := js "Query not document-related";
                              relevantChunks := []; error := None |}
              end)
             (fun err =>
                ret {| dmode := ModeGeneral; confidence := 5 # 10;
                       reason := js "Error during routing: " ++ message err;
                       relevantChunks := []; error := Some (message err) |}))
     end)%eff.

(** [threshold < 0 || threshold > 1] *)
Definition outOfRange (threshold : Q) : bool :=
  negb (Qle_bool 0 threshold) || negb (Qle_bool threshold 1).

Definition setSimilarityThreshold (r : t) (threshold : Q) : outcome unit * t :=
  if outOfRange threshold
  then (Throw (Error (js "Threshold must be between 0 and 1")), r)
  else (Return tt,
        {| embeddingManager := embeddingManager r;
           vectorStore := vectorStore r;
           thresholdSimilarity := threshold;
           minimumConfidence := minimumConfidence r |}).

Definition getSimilarityThreshold (r : t) : Q := thresholdSimilarity r.

Definition setMinimumConfidence (r : t) (threshold : Q) : outcome unit * t :=
  if outOfRange threshold
  then (Throw (Error (js "Threshold must be between 0 and 1")), r)
  else (Return tt,
        {| embeddingManager := embeddingManager r;
           vectorStore := vectorStore r;
           thresholdSimilarity := thresholdSimilarity r;
           minimumConfidence := threshold |}).

(** An element of [topResults] in the answer of [analyzeQuery]. *)
Record preview := {
  p_document_id : jsstring;
  p_category : jsstring;
  p_language : jsstring;
  p_similarity : Q;
  p_text_preview : jsstring
}.

(** The answer of [analyzeQuery]: the analysis, or the error object of the
    [catch]. *)
Inductive analysis :=
| Analysis (query : value) (queryLength : Z) (topResults : list preview)
    (maxSimilarity : Q) (recommendedMode : mode)
| AnalysisError (error : jsstring) (query : value).

(** The callback of [topResults.map]: on a result without its chunk,
    [r.text] is [undefined] and [r.text.substring] raises a [TypeError]. *)
Definition previewOf (r : VectorStore.scored_chunk) : outcome preview :=
  match VectorStore.stored r with
  | Some stored =>
      let c := VectorStore.chunk stored in
      Return {| p_document_id := Chunk.document_id c;
                p_category := Chunk.category c;
                p_language := Chunk.language c;
                p_similarity := VectorStore.similarity_score r;
                p_text_preview := slice (Chunk.text c) 0 100 ++ js "..." |}
  | None => Throw (VectorStore.undefinedRead "substring")
  end.

(** [userQuery.length]; it is read only after [embedText] has accepted the
    query, which is then a string. *)
Definition lengthOf (v : value) : Z :=
  match v with Str s => Z.of_nat (length s) | _ => 0 end.

Definition analyzeQuery (h : host) (r : t) (userQuery : value) : M analysis :=
  (try_catch
     (queryEmbedding <-
        invoke (EmbedText userQuery)
          (EmbeddingManager.embedText (embeddingManager r) userQuery) ;;
      topResults <-
        invoke (Search 10)
          (VectorStore.search h (vectorStore r) queryEmbedding 10
             VectorStore.no_filters false) ;;
      previews <- lift (VectorStore.map_outcome previewOf topResults) ;;
      ret (Analysis userQuery (lengthOf userQuery)
             previews
             match topResults with
             | top :: _ => VectorStore.similarity_score top
             | [] => 0
             end
             match topResults with
             | top :: _ =>
                 if Qle_bool (thresholdSimilarity r)
                      (VectorStore.similarity_score top)
                 then ModeRag else ModeGeneral
             | [] => ModeGeneral
             end))
     (fun err => ret (AnalysisError (message err) userQuery)))%eff.

(** [batchRoute]: the queries are routed one after the other with the
    default options; a throw of [routeQuery] ends the batch. *)
Fixpoint batchRoute (h : host) (r : t) (queries : list value)
  : M (list (value * decision)) :=
  match queries with
  | [] => ret []
  | query :: rest =>
      (routing <- routeQuery h r query (OptionsObject no_options) ;;
       results <- batchRoute h r rest ;;
       ret ((query, routing) :: results))%eff
  end.

(** The object returned by [getRoutingStats].  For an empty history the
    percentages and the average are the number 0 and there is no
    [generalPercentage]; otherwise they are the strings of [toFixed]. *)
Record routing_stats := {
  total : Z;
  ragCount : Z;
  generalCount : Z;
  ragPercentage : value;
  generalPercentage : value;
  averageConfidence : value
}.

Definition is_mode (m : mode) (d : decision) : bool :=
  match m, dmode d with
  | ModeRag, ModeRag | ModeGeneral, ModeGeneral
  | ModeNoResults, ModeNoResults | ModeError, ModeError => true
  | _, _ => false
  end.

Definition getRoutingStats (h : host) (routingHistory : list decision)
  : routing_stats :=
  match routingHistory with
  | [] =>
      {| total := 0; ragCount := 0; generalCount := 0;
         ragPercentage := Number 0; generalPercentage := Undefined;
         averageConfidence := Number 0 |}
  | _ =>
      let n := Z.of_nat (length routingHistory) in
      let ragCount :=
        Z.of_nat (length (List.filter (is_mode ModeRag) routingHistory)) in
      let generalCount :=
        Z.of_nat (length (List.filter (is_mode ModeGeneral) routingHistory)) in
      let totalConfidence :=
        fold_left (fun sum d => fadd sum (confidence d)) routingHistory 0%Q in
      {| total := n;
         ragCount := ragCount;
         generalCount := generalCount;
         ragPercentage :=
           Str (toFixed h (fmul (fdiv (inject_Z ragCount) (inject_Z n)) 100) 1);
         generalPercentage :=
           Str (toFixed h
                  (fmul (fdiv (inject_Z generalCount) (inject_Z n)) 100) 1);
         averageConfidence :=
           Str (toFixed h (fdiv totalConfidence (inject_Z n)) 3) |}
  end.

End QueryRouter.

(** An options object is passed where the argument is expected. *)
Coercion QueryRouter.OptionsObject :
  QueryRouter.options >-> QueryRouter.options_arg.

(* ===================================================================== *)
(** ** RAG pipeline: [RAGPipeline] (src/unnamed/part_003) *)
(* ===================================================================== *)

Module RAGPipeline.

Record t := {
  embeddingManager : EmbeddingManager.t;
  vectorStore : VectorStore.t;
  documentManager : DocumentManager.t;
  modelManager : ModelManager.t;
  promptBuilder : PromptBuilder.object
}.

(** An [options] object of [query]; an absent field is [None]. *)
Record options := {
  topK : option Z;
  filters : option VectorStore.filters;
  generationConfig : option ModelManager.config;
  includeMetadata : option bool
}.

Definition no_options : options :=
  {| topK := None; filters := None; generationConfig := None;
     includeMetadata := None |}.

(** The [options] argument of [query]: an object, or [null].  An argument
    that is left out or [undefined] is the empty object [no_options], by the
    default value of the parameter; so is, for the destructuring, a boolean,
    a number or a string, which has none of the fields. *)
Inductive options_arg :=
| OptionsObject (o : options)
| OptionsNull.


(** An element of [retrievedChunks] in the response.  The fields copied
    from the retrieved chunk are [None] ([undefined]) when the search result
    came without its chunk. *)
Record chunk_view := {
  chunk_id : option jsstring;
  text : option jsstring;
  document_id : option jsstring;
  similarity_score : Q;
  category : option jsstring;
  language : option jsstring
}.

(** An element of [sources]. *)
Record source := {
  s_document_id : jsstring;
  s_title : jsstring;
  s_category : jsstring;
  s_categoryName : jsstring;
  s_source_url : jsstring;
  s_language : jsstring;
  s_filename : jsstring
}.

(** The [metadata] object: the short one of a [no_results] answer, and the
    full one of a [rag] answer. *)
Inductive metadata :=
| QueryMetadata (queryTime : Q) (retrievedCount : Z)
| RagMetadata (queryTime embeddingTime retrievalTime generationTime : Q)
    (retrievedCount sourceCount : Z) (avgSimilarity : Q).

Record response := {
  rmode : mode;
  answer : jsstring;
  error : option jsstring;
  retrievedChunks : list chunk_view;
  sources : list source;
  rmetadata : option metadata
}.

(** [`${x}`] for a string or [undefined]. *)
Definition interpolate (x : option jsstring) : jsstring :=
  default (js "undefined") x.

(** [`[Джерело ${idx + 1} / Source ${idx + 1}]:\n${chunk.text}`] *)
Definition contextBlock (idx : nat) (sc : VectorStore.scored_chunk)
  : jsstring :=
  js "[Джерело " ++ decimal (Z.of_nat idx + 1) ++ js " / Source "
    ++ decimal (Z.of_nat idx + 1) ++ js "]:"
    ++ LF :: interpolate (VectorStore.field Chunk.text sc).

Definition buildContext (chunks : list VectorStore.scored_chunk) : jsstring :=
  join [LF; LF] (imap contextBlock chunks).

(** [this.documentManager.getDocumentById(chunk.document_id)]: the
    catalog files documents under strings, so that it has none under
    [undefined]. *)
Definition documentFor (dm : DocumentManager.t)
    (sc : VectorStore.scored_chunk) : option Document.t :=
  VectorStore.field Chunk.document_id sc
    ≫= DocumentManager.getDocumentById dm.

(** The entry pushed for a chunk whose document is in the catalog.  The
    [language] parameter of [getCategoryName] has the default value
    ['uk'], which an [undefined] argument takes. *)
Definition sourceEntry (dm : DocumentManager.t)
    (sc : VectorStore.scored_chunk) (doc : Document.t) : source :=
  {| s_document_id := Document.id doc;
     s_title := Document.title doc;
     s_category := Document.category doc;
     s_categoryName :=
       DocumentManager.getCategoryName dm (Document.category doc)
         (default (js "uk") (VectorStore.field Chunk.language sc));
     s_source_url := Document.source_url doc;
     s_language := Document.language doc;
     s_filename := Document.filename doc |}.

(** One iteration of the loop of [extractSources], on the set
    [uniqueDocs] and the array [sources].  The set holds values of
    [chunk.document_id]: strings, and [undefined] ([None]). *)
Definition sourceStep (dm : DocumentManager.t)
    (acc : gset (option jsstring) * list source)
    (sc : VectorStore.scored_chunk)
  : gset (option jsstring) * list source :=
  let '(uniqueDocs, sources) := acc in
  let id := VectorStore.field Chunk.document_id sc in
  if decide (id ∈ uniqueDocs) then (uniqueDocs, sources)
  else
    let uniqueDocs := uniqueDocs ∪ {[ id ]} in
    match documentFor dm sc with
    | Some doc => (uniqueDocs, sources ++ [sourceEntry dm sc doc])
    | None => (uniqueDocs, sources)
    end.

Definition extractSources (dm : DocumentManager.t)
    (chunks : list VectorStore.scored_chunk) : list source :=
  snd (fold_left (sourceStep dm) chunks (∅, [])).

Definition calculateAvgSimilarity (h : host)
    (chunks : list VectorStore.scored_chunk) : Q :=
  match chunks with
  | [] => 0
  | _ =>
      let sum :=
        fold_left (fun acc sc => fadd acc (VectorStore.similarity_score sc))
          chunks 0%Q in
      parseFloat h
        (toFixed h (fdiv sum (inject_Z (Z.of_nat (length chunks)))) 3)
  end.

Definition viewChunk (sc : VectorStore.scored_chunk) : chunk_view :=
  {| chunk_id := VectorStore.field Chunk.chunk_id sc;
     text := VectorStore.field Chunk.text sc;
     document_id := VectorStore.field Chunk.document_id sc;
     similarity_score := VectorStore.similarity_score sc;
     category := VectorStore.field Chunk.category sc;
     language := VectorStore.field Chunk.language sc |}.

(** Calling a method of the prompt builder. *)
Definition method {A B} (name : jsstring) (m : option (A -> outcome B))
    (arg : A) : outcome B :=
  match m with
  | Some f => f arg
  | None =>
      Throw (TypeError (js "this.promptBuilder." ++ name
                          ++ js " is not a function"))
  end.

Definition noResultsAnswer : jsstring :=
  js "Не знайдено релевантних документів. / No relevant documents found.".

Definition errorAnswer : jsstring :=
  js "Виникла помилка при обробці запиту. / An error occurred while processing your request.".

(** [query]: the destructuring of [options], which raises a [TypeError]
    on [null], comes before the [try]. *)
Definition query (h : host) (p : t) (userQuery : value)
    (options : options_arg) : M response :=
  match options with
  | OptionsNull =>
      throw (TypeError
               (js "Cannot destructure property 'topK' of 'options' as it is null."))
  | OptionsObject opts =>
  (let topK := default 5 (topK opts) in
   let filters := default VectorStore.no_filters (filters opts) in
   let generationConfig :=
     default ModelManager.no_config (generationConfig opts) in
   let includeMetadata := default true (includeMetadata opts) in
   try_catch
     (startEmbed <- now h ;;
      queryEmbedding <-
        invoke (EmbedText userQuery)
          (EmbeddingManager.embedText (embeddingManager p) userQuery) ;;
      endEmbed <- now h ;;
      let embedTime := fsub endEmbed startEmbed in
      startRetrieval <- now h ;;
      retrievedChunks <-
        invoke (Search topK)
          (VectorStore.search h (vectorStore p) queryEmbedding topK filters
             false) ;;
      endRetrieval <- now h ;;
      let retrievalTime := fsub endRetrieval startRetrieval in
      match retrievedChunks with
      | [] =>
          ret {| rmode := ModeNoResults;
                 answer := noResultsAnswer;
                 error := None;
                 retrievedChunks := [];
                 sources := [];
                 rmetadata :=
                   Some (QueryMetadata (fadd embedTime retrievalTime) 0) |}
      | _ =>
          let context := buildContext retrievedChunks in
          ragPrompt <-
            lift (method (js "buildRAGPrompt")
                    (uncurry <$> PromptBuilder.buildRAGPrompt (promptBuilder p))
                    (userQuery, context)) ;;
          startGeneration <- now h ;;
          generatedAnswer <-
            invoke (GenerateResponse ragPrompt)
              (ModelManager.generateResponse (modelManager p) ragPrompt
                 generationConfig) ;;
          endGeneration <- now h ;;
          let generationTime := fsub endGeneration startGeneration in
          cleanAnswer <-
            lift (method (js "extractResponse")
                    (PromptBuilder.extractResponse_method (promptBuilder p))
                    generatedAnswer) ;;
          let sources := extractSources (documentManager p) retrievedChunks in
          let metadata :=
            if includeMetadata
            then Some (RagMetadata
                         (fadd (fadd embedTime retrievalTime) generationTime)
                         embedTime retrievalTime generationTime
                         (Z.of_nat (length retrievedChunks))
                         (Z.of_nat (length sources))
                         (calculateAvgSimilarity h retrievedChunks))
            else None in
          (* [console.log] reads [response.metadata.queryTime] *)
          match metadata with
          | None =>
              throw (TypeError
                       (js "Cannot read properties of undefined (reading 'queryTime')"))
          | Some _ =>
              ret {| rmode := ModeRag;
                     answer := cleanAnswer;
                     error := None;
                     retrievedChunks := List.map viewChunk retrievedChunks;
                     sources := sources;
                     rmetadata := metadata |}
          end
      end)
     (fun err =>
        ret {| rmode := ModeError;
               answer := errorAnswer;
               error := Some (message err);
               retrievedChunks := [];
               sources := [];
               rmetadata := None |}))%eff
  end.

(** The [document] of a formatted search result. *)
Record document_summary := {
  d_id : jsstring;
  d_title : jsstring;
  d_category : jsstring;
  d_language : jsstring
}.

(** An element of [results] in the answer of [semanticSearch]; an unknown
    document is [None] ([null]), and so is a field of a search result that
    came without its chunk ([undefined]). *)
Record search_result := {
  sr_chunk_id : option jsstring;
  sr_text : option jsstring;
  sr_similarity_score : Q;
  sr_document : option document_summary
}.

(** The answer of [semanticSearch]; [error] is present on the [catch] path,
    [totalResults] and [avgSimilarity] on the other. *)
Record search_response := {
  ss_query : value;
  ss_results : list search_result;
  ss_totalResults : option Z;
  ss_avgSimilarity : option Q;
  ss_error : option jsstring
}.

(** The fields of an [options] object that [semanticSearch] reads. *)
Record search_options := {
  so_topK : option Z;
  so_filters : option VectorStore.filters
}.

(** The [options] argument of [semanticSearch]: an object, or [null]. *)
Inductive search_options_arg :=
| SearchOptionsObject (o : search_options)
| SearchOptionsNull.


Definition formatResult (dm : DocumentManager.t)
    (sc : VectorStore.scored_chunk) : search_result :=
  {| sr_chunk_id := VectorStore.field Chunk.chunk_id sc;
     sr_text := VectorStore.field Chunk.text sc;
     sr_similarity_score := VectorStore.similarity_score sc;
     sr_document :=
       (fun doc =>
          {| d_id := Document.id doc;
             d_title := Document.title doc;
             d_category := Document.category doc;
             d_language := Document.language doc |})
       <$> documentFor dm sc |}.

Definition semanticSearch (h : host) (p : t) (query : value)
    (options : search_options_arg) : M search_response :=
  match options with
  | SearchOptionsNull =>
      throw (TypeError
               (js "Cannot destructure property 'topK' of 'options' as it is null."))
  | SearchOptionsObject opts =>
  (let topK := default 10 (so_topK opts) in
   let filters := default VectorStore.no_filters (so_filters opts) in
   try_catch
     (queryEmbedding <-
        invoke (EmbedText query)
          (EmbeddingManager.embedText (embeddingManager p) query) ;;
      results <-
        invoke (Search topK)
          (VectorStore.search h (vectorStore p) queryEmbedding topK filters
             false) ;;
      ret {| ss_query := query;
             ss_results := List.map (formatResult (documentManager p)) results;
             ss_totalResults := Some (Z.of_nat (length results));
             ss_avgSimilarity := Some (calculateAvgSimilarity h results);
             ss_error := None |})
     (fun err =>
        ret {| ss_query := query;
               ss_results := [];
               ss_totalResults := None;
               ss_avgSimilarity := None;
               ss_error := Some (message err) |}))%eff
  end.

(** [getDocumentChunks]; [limit] is [None] for [null].  [limit && limit > 0]
    holds for a positive number only. *)
Definition getDocumentChunks (p : t) (documentId : jsstring)
    (limit : option Z) : list VectorStore.stored_chunk :=
  let chunks := VectorStore.getChunksByDocument (vectorStore p) documentId in
  match limit with
  | Some n => if 0 <? n then slice chunks 0 n else chunks
  | None => chunks
  end.

(** [new Float32Array(chunk.embedding)]: a copy of an array, its elements
    rounded to singles, or of a typed array; a field that is absent or not
    iterable gives the empty array. *)
Definition toVector (e : VectorStore.embedding_field) : list Q :=
  match e with
  | VectorStore.PlainArray v => List.map fround v
  | VectorStore.Float32Array v => v
  | VectorStore.NotAnArray => []
  end.

(** The [for] loop of [findSimilarDocuments], on the set [seenDocs] and the
    array [similarDocs], with its [break].  An element of [similarDocs] is
    the document with the score of the chunk that brought it in. *)
Fixpoint collectSimilar (dm : DocumentManager.t) (topK : Z)
    (results : list VectorStore.scored_chunk)
    (seenDocs : gset (option jsstring))
    (similarDocs : list (Document.t * Q)) : list (Document.t * Q) :=
  match results with
  | [] => similarDocs
  | sc :: rest =>
      let id := VectorStore.field Chunk.document_id sc in
      if decide (id ∈ seenDocs)
      then collectSimilar dm topK rest seenDocs similarDocs
      else
        let seenDocs := seenDocs ∪ {[ id ]} in
        let similarDocs :=
          match documentFor dm sc with
          | Some doc =>
              similarDocs ++ [(doc, VectorStore.similarity_score sc)]
          | None => similarDocs
          end in
        if topK <=? Z.of_nat (length similarDocs) then similarDocs
        else collectSimilar dm topK rest seenDocs similarDocs
  end.

(** [findSimilarDocuments]: every throw inside is caught and answered with
    the empty array. *)
Definition findSimilarDocuments (h : host) (p : t) (documentId : jsstring)
    (topK : Z) : list (Document.t * Q) :=
  match getDocumentChunks p documentId (Some 3) with
  | [] => []
  | first :: _ =>
      let queryEmbedding := toVector (VectorStore.embedding first) in
      match VectorStore.search h (vectorStore p) queryEmbedding (topK * 3)
              VectorStore.no_filters false with
      | Throw _ => []
      | Return results =>
          collectSimilar (documentManager p) topK results
            {[ Some documentId ]} []
      end
  end.

Definition isReady (p : t) : bool :=
  EmbeddingManager.isLoaded (embeddingManager p)
  && VectorStore.isStoreLoaded (vectorStore p)
  && DocumentManager.isManagerLoaded (documentManager p).

End RAGPipeline.

Coercion RAGPipeline.OptionsObject :
  RAGPipeline.options >-> RAGPipeline.options_arg.
Coercion RAGPipeline.SearchOptionsObject :
  RAGPipeline.search_options >-> RAGPipeline.search_options_arg.

(* ===================================================================== *)
(** ** Predicates used to state the properties *)
(* ===================================================================== *)

Module Spec.

(** [2 ^ e <= n / d], on the pair of [scale2]. *)
Definition reaches (n d e : Z) : Prop :=
  snd (scale2 n d e) <= fst (scale2 n d e).

(** The nonzero numbers of a format, as pairs: [m * 2 ^ x] with [m] of at
    most [prec] digits, and of exactly [prec] unless [x] is the least
    exponent. *)
Definition normal (prec emin m x : Z) : Prop :=
  emin <= x /\ 0 < m < 2 ^ prec /\ (x = emin \/ 2 ^ (prec - 1) <= m).

(** The validation the specification asks of the loader: the dimension is
    present, every chunk has a vector of that length and non-empty
    [chunk_id], [document_id] and [text]. *)
Definition vectorLength (e : VectorStore.embedding_field) : option nat :=
  match e with
  | VectorStore.PlainArray v | VectorStore.Float32Array v => Some (length v)
  | VectorStore.NotAnArray => None
  end.

Definition chunkValid (dim : Z) (c : VectorStore.stored_chunk) : bool :=
  bool_decide (Z.of_nat <$> vectorLength (VectorStore.embedding c) = Some dim)
  && TextChunker.nonempty (Chunk.chunk_id (VectorStore.chunk c))
  && TextChunker.nonempty (Chunk.document_id (VectorStore.chunk c))
  && TextChunker.nonempty (Chunk.text (VectorStore.chunk c)).

Definition indexValid (d : VectorStore.embeddings_data) : bool :=
  match VectorStore.embedding_dim d, VectorStore.data_chunks d with
  | Some dim, Some cs => forallb (chunkValid dim) cs
  | _, _ => false
  end.

(** What [loadEmbeddings] does check: the data and its [chunks] are
    present and every [embedding] is an array. *)
Definition isArray (c : VectorStore.stored_chunk) : bool :=
  match VectorStore.embedding c with
  | VectorStore.NotAnArray => false
  | _ => true
  end.

Definition loadable (data : option VectorStore.embeddings_data) : bool :=
  match data with
  | Some d =>
      match VectorStore.data_chunks d with
      | Some cs => forallb isArray cs
      | None => false
      end
  | None => false
  end.

(** A chunk is a candidate when no supplied filter rejects it. *)
Definition passes (fs : VectorStore.filters) (c : VectorStore.stored_chunk)
  : bool :=
  negb (VectorStore.rejects (VectorStore.f_category fs)
          (Chunk.category (VectorStore.chunk c))
        || VectorStore.rejects (VectorStore.f_language fs)
             (Chunk.language (VectorStore.chunk c))
        || VectorStore.rejects (VectorStore.f_document_id fs)
             (Chunk.document_id (VectorStore.chunk c))).

(** The score of a stored vector against the query, in either mode. *)
Definition scoreOf (h : host) (useCosineSim : bool) (q e : list Q)
  : outcome Q :=
  if useCosineSim then VectorStore.cosineSimilarity h q e
  else VectorStore.dotProduct q e.

(** The order of the ranking: a higher score first, and among equal scores
    the chunk stored earlier. *)
Definition precedes (a b : VectorStore.similarity) : Prop :=
  (VectorStore.score b < VectorStore.score a)%Q
  \/ ((VectorStore.score a == VectorStore.score b)%Q
      /\ (VectorStore.index a < VectorStore.index b)%nat).

(** A sentence as [splitIntoSentences] yields it: not empty, and with no
    whitespace at either end. *)
Definition tidy (s : jsstring) : bool :=
  match head s, last s with
  | Some c, Some d => negb (is_ws c) && negb (is_ws d)
  | _, _ => false
  end.

(** A token of the overlap: a non-empty run without whitespace. *)
Definition isWord (w : jsstring) : Prop :=
  w <> [] /\ Forall (fun c => is_ws c = false) w.

(** The last [n] elements of a list. *)
Definition lastN {A} (n : nat) (l : list A) : list A :=
  drop (length l - n) l.

(** The [document_id] of a retrieved chunk; [None] ([undefined]) when the
    search result came without its chunk. *)
Definition documentOf (sc : VectorStore.scored_chunk) : option jsstring :=
  VectorStore.field Chunk.document_id sc.

(** The retrieved chunks that are the first of their document, in
    retrieval order: one per distinct [document_id]. *)
Fixpoint firstPerDocument (chunks : list VectorStore.scored_chunk)
  : list VectorStore.scored_chunk :=
  match chunks with
  | [] => []
  | sc :: rest =>
      sc :: List.filter
              (fun x => negb (bool_decide (documentOf x = documentOf sc)))
              (firstPerDocument rest)
  end.

(** The source entry of a chunk, when its document is in the catalog. *)
Definition resolve (dm : DocumentManager.t) (sc : VectorStore.scored_chunk)
  : option RAGPipeline.source :=
  RAGPipeline.sourceEntry dm sc <$> RAGPipeline.documentFor dm sc.

(** A store as a successful load of well-formed data leaves it: loaded,
    one vector per chunk, every vector of the store's dimension. *)
Definition consistent (vs : VectorStore.t) : Prop :=
  VectorStore.isLoaded vs = true
  /\ length (VectorStore.chunks vs) = length (VectorStore.embeddings vs)
  /\ Forall (fun e => Z.of_nat (length e) = VectorStore.embeddingDim vs)
       (VectorStore.embeddings vs).

(** A text whose only whitespace is single spaces; [after_space] tells
    that the previous code unit was a space. *)
Fixpoint singleSpaced (after_space : bool) (s : jsstring) : bool :=
  match s with
  | [] => true
  | c :: t =>
      if is_ws c
      then (c =? SPACE)%N && negb after_space && singleSpaced true t
      else singleSpaced false t
  end.

(** A code unit that [sanitizeFilename] lets through or puts in. *)
Definition filenameSafe (c : N) : bool :=
  negb (DocumentDownloader.is_unsafe c) && negb (is_ws c).

(** A query that [routeQuery] and [embedText] accept: a non-empty string. *)
Definition validQuery (v : value) : bool :=
  match v with Str (_ :: _) => true | _ => false end.

(** A catalog in which every document is filed under its own [id]. *)
Definition keyedById (dm : DocumentManager.t) : Prop :=
  forall id doc,
    DocumentManager.getDocumentById dm id = Some doc -> Document.id doc = id.

(** The sum of the token estimates of some sentences. *)
Definition totalEstimate (sentences : list jsstring) : Z :=
  fold_right (fun s acc => TextChunker.estimateTokens s + acc) 0 sentences.

(** The decision that the [catch] block of [routeQuery] returns for an
    error. *)
Definition routingFallback (err : exn) : QueryRouter.decision :=
  {| QueryRouter.dmode := ModeGeneral;
     QueryRouter.confidence := 5 # 10;
     QueryRouter.reason := js "Error during routing: " ++ message err;
     QueryRouter.relevantChunks := [];
     QueryRouter.error := Some (message err) |}.

End Spec.

(* ===================================================================== *)
(** ** Concrete inputs *)
(* ===================================================================== *)

(** A small index and its collaborators, used to run the definitions. *)
Module Demo.

Definition host0 : host :=
  {| performance_now := fun k => inject_Z (Z.of_nat k);
     Math_sqrt := fun x => x;
     toFixed := fun _ _ => js "0";
     parseFloat := fun _ => 0%Q |}.

Definition mkChunk (id doc text : string) (e : VectorStore.embedding_field)
  : VectorStore.stored_chunk :=
  {| VectorStore.chunk :=
       {| Chunk.chunk_id := js id;
          Chunk.document_id := js doc;
          Chunk.text := js text;
          Chunk.tokens := 1;
          Chunk.chunk_index := 0;
          Chunk.category := js "safety";
          Chunk.language := js "en";
          Chunk.metadata :=
            {| Chunk.document_title := js doc;
               Chunk.document_filename := js "f.pdf";
               Chunk.source_url := js "u" |} |};
     VectorStore.embedding := e |}.

(** Three chunks of dimension 3 on the axes, documents A, B, A. *)
Definition data3 : VectorStore.embeddings_data :=
  {| VectorStore.data_chunks :=
       Some [mkChunk "A_chunk_0" "A" "alpha" (VectorStore.PlainArray [1; 0; 0]%Q);
             mkChunk "B_chunk_0" "B" "beta" (VectorStore.PlainArray [0; 1; 0]%Q);
             mkChunk "A_chunk_1" "A" "gamma" (VectorStore.PlainArray [0; 0; 1]%Q)];
     VectorStore.embedding_dim := Some 3 |}.

Definition store3 : VectorStore.t :=
  snd (VectorStore.loadEmbeddings VectorStore.new (Some data3)).

(** Data without a dimension, whose only chunk has empty identifiers, an
    empty text and a vector of length 2. *)
Definition dataLoose : VectorStore.embeddings_data :=
  {| VectorStore.data_chunks :=
       Some [mkChunk "" "" "" (VectorStore.PlainArray [1; 2]%Q)];
     VectorStore.embedding_dim := None |}.

(** An embedder that maps every text to the given vector. *)
Definition embedder (v : list Q) : EmbeddingManager.t :=
  {| EmbeddingManager.isLoaded := true;
     EmbeddingManager.pipeline := Some (fun _ => Return v) |}.

(** A generator that answers every prompt with the given text. *)
Definition generator (g : jsstring) : ModelManager.t :=
  {| ModelManager.isLoaded := true;
     ModelManager.pipeline := Some (fun _ _ => Return g) |}.

Definition docA : Document.t :=
  {| Document.id := js "A"; Document.title := js "Statute";
     Document.filename := js "a.pdf"; Document.source_url := js "u/a";
     Document.category := js "safety"; Document.language := js "uk" |}.

(** A catalog that knows document A only. *)
Definition catalogA : DocumentManager.t :=
  snd (DocumentManager.loadMetadata DocumentManager.new (Some [docA])
         (Some [])).

(** A sentence of [n] words, [n >= 1], closed by a full stop. *)
Definition sentence (word : string) (n : nat) : jsstring :=
  join [SPACE] (repeat (js word) n) ++ js ".".

(** A short conversation, and a counter under which every text is over
    the budget. *)
Definition chat : list PromptBuilder.message :=
  [ {| PromptBuilder.role := js "user"; PromptBuilder.content := js "Hi" |};
    {| PromptBuilder.role := js "assistant";
       PromptBuilder.content := js "Hello" |};
    {| PromptBuilder.role := js "user";
       PromptBuilder.content := js "Rules?" |} ].

Definition greedyCounter (text : jsstring) : Z :=
  100 * Z.of_nat (length text).

(** The chunker after two sentences of 200 estimated tokens each. *)
Definition afterTwoSentences : TextChunker.state :=
  TextChunker.run docA ([sentence "abc" 175] ++ [sentence "xyz" 175]).

(** Retrieved chunks of documents A, B, A. *)
Definition retrievedABA : list VectorStore.scored_chunk :=
  [ {| VectorStore.stored :=
         Some (mkChunk "A_chunk_0" "A" "alpha"
                 (VectorStore.PlainArray [1; 0; 0]%Q));
       VectorStore.similarity_score := double (9 # 10) |};
    {| VectorStore.stored :=
         Some (mkChunk "B_chunk_0" "B" "beta"
                 (VectorStore.PlainArray [0; 1; 0]%Q));
       VectorStore.similarity_score := double (8 # 10) |};
    {| VectorStore.stored :=
         Some (mkChunk "A_chunk_1" "A" "gamma"
                 (VectorStore.PlainArray [0; 0; 1]%Q));
       VectorStore.similarity_score := double (7 # 10) |} ].

(** A pipeline built from the classes of the repository. *)
Definition pipeline (v : list Q) : RAGPipeline.t :=
  {| RAGPipeline.embeddingManager := embedder v;
     RAGPipeline.vectorStore := store3;
     RAGPipeline.documentManager := catalogA;
     RAGPipeline.modelManager := generator (js " Assistant: yes");
     RAGPipeline.promptBuilder := PromptBuilder.as_object PromptBuilder.new |}.

(** The same pipeline with a prompt builder that also has a
    [buildRAGPrompt], here one that appends the generation cue to the
    context. *)
Definition pipelineWithRAGPrompt (v : list Q) : RAGPipeline.t :=
  {| RAGPipeline.embeddingManager := embedder v;
     RAGPipeline.vectorStore := store3;
     RAGPipeline.documentManager := catalogA;
     RAGPipeline.modelManager := generator (js " Assistant: yes");
     RAGPipeline.promptBuilder :=
       {| PromptBuilder.buildRAGPrompt :=
            Some (fun _ context => Return (context ++ LF :: js "Assistant:"));
          PromptBuilder.extractResponse_method :=
            Some (fun g => Return (PromptBuilder.extractResponse g)) |} |}.

(** Data whose second chunk has no embedding array. *)
Definition dataBroken : VectorStore.embeddings_data :=
  {| VectorStore.data_chunks :=
       Some [mkChunk "X_chunk_0" "X" "chi" (VectorStore.PlainArray [1; 0; 0]%Q);
             mkChunk "X_chunk_1" "X" "psi" VectorStore.NotAnArray];
     VectorStore.embedding_dim := Some 3 |}.

(** Data whose second vector is shorter than the declared dimension, and
    the store loaded from it. *)
Definition dataUneven : VectorStore.embeddings_data :=
  {| VectorStore.data_chunks :=
       Some [mkChunk "U_chunk_0" "U" "upsilon"
               (VectorStore.PlainArray [1; 0; 0]%Q);
             mkChunk "U_chunk_1" "U" "phi" (VectorStore.PlainArray [0; 1]%Q)];
     VectorStore.embedding_dim := Some 3 |}.

Definition storeUneven : VectorStore.t :=
  snd (VectorStore.loadEmbeddings VectorStore.new (Some dataUneven)).

(** The three-chunk index after a reload of [dataBroken] has failed: two
    chunks and three vectors. *)
Definition storeOutOfStep : VectorStore.t :=
  snd (VectorStore.loadEmbeddings store3 (Some dataBroken)).

(** An index of one chunk whose vector is made of three singles that add
    up to the double 0.6, and its store. *)
Definition dataThreshold : VectorStore.embeddings_data :=
  {| VectorStore.data_chunks :=
       Some [mkChunk "T_chunk_0" "T" "tau"
               (VectorStore.PlainArray
                  [10066329 # 16777216; 10066329 # 281474976710656;
                   19 # 9007199254740992]%Q)];
     VectorStore.embedding_dim := Some 3 |}.

Definition storeThreshold : VectorStore.t :=
  snd (VectorStore.loadEmbeddings VectorStore.new (Some dataThreshold)).

(** Two chunks whose exact dot products with [1, 1, 1] differ by 2^-60,
    which is lost when the sum is rounded to a double. *)
Definition dataTie : VectorStore.embeddings_data :=
  {| VectorStore.data_chunks :=
       Some [mkChunk "B_chunk_0" "B" "beta"
               (VectorStore.PlainArray [1; 1 # 1073741824; 0]%Q);
             mkChunk "A_chunk_0" "A" "alpha"
               (VectorStore.PlainArray
                  [1; 1 # 1073741824; 1 # 1152921504606846976]%Q)];
     VectorStore.embedding_dim := Some 3 |}.

Definition storeTie : VectorStore.t :=
  snd (VectorStore.loadEmbeddings VectorStore.new (Some dataTie)).

Definition withoutMetadata : RAGPipeline.options :=
  {| RAGPipeline.topK := None; RAGPipeline.filters := None;
     RAGPipeline.generationConfig := None;
     RAGPipeline.includeMetadata := Some false |}.

End Demo.

(* ===================================================================== *)
(** * Properties *)
(* ===================================================================== *)

(** ** Numbers: rounding *)

Lemma pow2_gt0 k : 0 <= k -> 0 < 2 ^ k.
Proof. intros. now apply Z.pow_pos_nonneg. Qed.

Lemma scale2_pos n d x :
  0 < n -> 0 < d -> 0 < fst (scale2 n d x) /\ 0 < snd (scale2 n d x).
Proof.
  intros Hn Hd. unfold scale2. destruct (Z.leb_spec 0 x); cbn [fst snd].
  - pose proof (pow2_gt0 x). nia.
  - pose proof (pow2_gt0 (- x)). nia.
Qed.

(** [2 ^ (x + j) <= n / d] on the scaled pair. *)
Lemma reaches_shift n d x j :
  0 < n -> 0 < d -> 0 <= j ->
  Spec.reaches n d (x + j)
  <-> snd (scale2 n d x) * 2 ^ j <= fst (scale2 n d x).
Proof.
  intros Hn Hd Hj. unfold Spec.reaches, scale2.
  pose proof (pow2_gt0 j Hj) as Pj.
  destruct (Z.leb_spec 0 x) as [Hx|Hx];
    destruct (Z.leb_spec 0 (x + j)) as [Hxj|Hxj]; cbn [fst snd]; try lia.
  - rewrite Z.pow_add_r by lia. now rewrite Z.mul_assoc.
  - assert (E : 2 ^ j = 2 ^ (x + j) * 2 ^ (- x)).
    { rewrite <- Z.pow_add_r by lia. f_equal. lia. }
    rewrite E. pose proof (pow2_gt0 (- x) ltac:(lia)).
    pose proof (pow2_gt0 (x + j) Hxj). nia.
  - assert (E : 2 ^ (- x) = 2 ^ (- (x + j)) * 2 ^ j).
    { rewrite <- Z.pow_add_r by lia. f_equal. lia. }
    rewrite E. pose proof (pow2_gt0 (- (x + j)) ltac:(lia)). nia.
Qed.

Lemma reaches_mono n d e e' :
  0 < n -> 0 < d -> e' <= e -> Spec.reaches n d e -> Spec.reaches n d e'.
Proof.
  intros Hn Hd Hle H.
  replace e with (e' + (e - e')) in H by lia.
  apply reaches_shift in H; [|assumption|assumption|lia].
  unfold Spec.reaches. pose proof (pow2_gt0 (e - e') ltac:(lia)).
  pose proof (scale2_pos n d e' Hn Hd). nia.
Qed.

Lemma reaches_unique n d e e' :
  0 < n -> 0 < d ->
  Spec.reaches n d e -> ~ Spec.reaches n d (e + 1) ->
  Spec.reaches n d e' -> ~ Spec.reaches n d (e' + 1) -> e = e'.
Proof.
  intros Hn Hd H1 H2 H3 H4.
  destruct (Z.lt_trichotomy e e') as [H|[H|H]]; [|exact H|].
  - exfalso. apply H2. now apply (reaches_mono n d e'); [| |lia|].
  - exfalso. apply H4. now apply (reaches_mono n d e); [| |lia|].
Qed.

Lemma ilog2_spec n d :
  Spec.reaches (Zpos n) (Zpos d) (ilog2 n d)
  /\ ~ Spec.reaches (Zpos n) (Zpos d) (ilog2 n d + 1).
Proof.
  set (a := Z.log2 (Zpos n)). set (b := Z.log2 (Zpos d)).
  pose proof (Z.log2_spec (Zpos n) ltac:(lia)) as Ha.
  pose proof (Z.log2_spec (Zpos d) ltac:(lia)) as Hb.
  pose proof (Z.log2_nonneg (Zpos n)) as Ha0.
  pose proof (Z.log2_nonneg (Zpos d)) as Hb0.
  fold a in Ha, Ha0. fold b in Hb, Hb0.
  rewrite <- !Z.add_1_r in Ha, Hb.
  rewrite Z.pow_add_r in Ha, Hb by lia. change (2 ^ 1) with 2 in Ha, Hb.
  assert (Hlow : Spec.reaches (Zpos n) (Zpos d) (a - b - 1)).
  { unfold Spec.reaches, scale2.
    destruct (Z.leb_spec 0 (a - b - 1)) as [H|H]; cbn [fst snd].
    - assert (E : 2 ^ (b + 1 + (a - b - 1)) = 2 ^ b * 2 * 2 ^ (a - b - 1))
        by (rewrite !Z.pow_add_r by lia; reflexivity).
      replace (b + 1 + (a - b - 1)) with a in E by lia.
      pose proof (pow2_gt0 (a - b - 1) H). nia.
    - assert (E : 2 ^ (a + - (a - b - 1)) = 2 ^ a * 2 ^ (- (a - b - 1)))
        by (rewrite !Z.pow_add_r by lia; reflexivity).
      replace (a + - (a - b - 1)) with (b + 1) in E by lia.
      rewrite Z.pow_add_r in E by lia. change (2 ^ 1) with 2 in E.
      pose proof (pow2_gt0 (- (a - b - 1)) ltac:(lia)). nia. }
  assert (Hhigh : ~ Spec.reaches (Zpos n) (Zpos d) (a - b + 1)).
  { unfold Spec.reaches, scale2.
    destruct (Z.leb_spec 0 (a - b + 1)) as [H|H]; cbn [fst snd].
    - assert (E : 2 ^ (b + (a - b + 1)) = 2 ^ b * 2 ^ (a - b + 1))
        by (rewrite Z.pow_add_r by lia; reflexivity).
      replace (b + (a - b + 1)) with (a + 1) in E by lia.
      rewrite Z.pow_add_r in E by lia. change (2 ^ 1) with 2 in E.
      pose proof (pow2_gt0 (a - b + 1) H). nia.
    - assert (E : 2 ^ (a + 1 + - (a - b + 1))
                  = 2 ^ a * 2 * 2 ^ (- (a - b + 1)))
        by (rewrite !Z.pow_add_r by lia; reflexivity).
      replace (a + 1 + - (a - b + 1)) with b in E by lia.
      pose proof (pow2_gt0 (- (a - b + 1)) ltac:(lia)). nia. }
  unfold ilog2. fold a b.
  destruct (scale2 (Zpos n) (Zpos d) (a - b)) as [p q] eqn:E.
  assert (Hmid : Spec.reaches (Zpos n) (Zpos d) (a - b) <-> q <= p).
  { unfold Spec.reaches. now rewrite E. }
  destruct (Z.leb_spec q p) as [H|H].
  - split; [now apply Hmid | exact Hhigh].
  - split; [exact Hlow|]. replace (a - b - 1 + 1) with (a - b) by lia.
    intros H'. apply Hmid in H'. lia.
Qed.

Lemma round_half_even_multiple m q : 0 < q -> round_half_even (m * q) q = m.
Proof.
  intros Hq. unfold round_half_even.
  rewrite Z.mod_mul, Z.div_mul by lia. cbn [Z.mul].
  now destruct q.
Qed.

Lemma round_half_even_bounds p q :
  0 <= p -> 0 < q -> p / q <= round_half_even p q <= p / q + 1.
Proof.
  intros _ _. unfold round_half_even.
  destruct (2 * (p mod q) ?= q); [destruct (Z.even _)| |]; lia.
Qed.

Lemma Qred_integer z : Qred (z # 1) = (z # 1)%Q.
Proof.
  unfold Qred.
  pose proof (Z.ggcd_gcd z 1) as Hg.
  pose proof (Z.ggcd_correct_divisors z 1) as Hd.
  destruct (Z.ggcd z 1) as [g [aa bb]]. cbn [fst snd] in *.
  rewrite Z.gcd_1_r in Hg. subst g. destruct Hd as [-> Hb].
  replace bb with 1 by lia. f_equal. lia.
Qed.

(** [times_pow2] is in lowest terms, and denotes [m * 2 ^ x]. *)
Lemma times_pow2_eq m x m' x' :
  (if 0 <=? x then inject_Z (m * 2 ^ x) else m # Z.to_pos (2 ^ (- x)))%Q
  == (if 0 <=? x' then inject_Z (m' * 2 ^ x') else m' # Z.to_pos (2 ^ (- x')))%Q ->
  times_pow2 m x = times_pow2 m' x'.
Proof.
  intros H. apply Qred_complete in H. unfold times_pow2.
  destruct (0 <=? x), (0 <=? x'); unfold inject_Z in *;
    rewrite ?Qred_integer in H; exact H.
Qed.

Lemma times_pow2_double m x : times_pow2 (2 * m) x = times_pow2 m (x + 1).
Proof.
  apply times_pow2_eq.
  destruct (Z.leb_spec 0 x) as [Hx|Hx];
    destruct (Z.leb_spec 0 (x + 1)) as [Hx1|Hx1]; try lia.
  - rewrite Z.pow_add_r by lia. change (2 ^ 1) with 2.
    replace (2 * m * 2 ^ x) with (m * (2 ^ x * 2)) by lia. reflexivity.
  - assert (x = -1) as -> by lia. unfold Qeq.
    change ((2 * m) * 1 = (m * 2 ^ 0) * 2). lia.
  - unfold Qeq. cbn [Qnum Qden].
    pose proof (pow2_gt0 (- x) ltac:(lia)).
    pose proof (pow2_gt0 (- (x + 1)) ltac:(lia)).
    rewrite !Z2Pos.id by lia.
    replace (- x) with (- (x + 1) + 1) by lia.
    rewrite Z.pow_add_r by lia. change (2 ^ 1) with 2. lia.
Qed.

Lemma times_pow2_zero x : times_pow2 0 x = 0%Q.
Proof.
  unfold times_pow2. destruct (0 <=? x); [reflexivity|].
  rewrite <- (Qred_integer 0). apply Qred_complete. reflexivity.
Qed.

(** The numerator and denominator of [times_pow2 m x] scale to [m]. *)
Lemma times_pow2_scale m x :
  0 < m ->
  exists n,
    Qnum (times_pow2 m x) = Zpos n
    /\ fst (scale2 (Zpos n) (Zpos (Qden (times_pow2 m x))) x)
       = m * snd (scale2 (Zpos n) (Zpos (Qden (times_pow2 m x))) x).
Proof.
  intros Hm. unfold times_pow2, scale2.
  destruct (Z.leb_spec 0 x) as [Hx|Hx].
  - pose proof (pow2_gt0 x Hx). cbn [inject_Z Qnum Qden fst snd].
    destruct (m * 2 ^ x) as [|n|n] eqn:E; try lia.
    exists n. split; [reflexivity|]. lia.
  - pose proof (pow2_gt0 (- x) ltac:(lia)) as Hp.
    pose proof (Qred_correct (m # Z.to_pos (2 ^ (- x)))) as Hq.
    unfold Qeq in Hq. cbn [Qnum Qden] in Hq. rewrite Z2Pos.id in Hq by lia.
    destruct (Qred (m # Z.to_pos (2 ^ (- x)))) as [qn qd].
    cbn [Qnum Qden fst snd] in *.
    destruct qn as [|n|n]; try nia.
    exists n. split; [reflexivity|]. lia.
Qed.

Section Rounding.
Variables prec emin : Z.
Hypothesis prec_pos : 0 < prec.

Lemma round_magnitude_normal m x :
  Spec.normal prec emin m x ->
  exists n,
    Qnum (times_pow2 m x) = Zpos n
    /\ round_magnitude prec emin n (Qden (times_pow2 m x)) = times_pow2 m x.
Proof.
  intros (Hx & Hm & Hnorm).
  destruct (times_pow2_scale m x ltac:(lia)) as (n & Hn & Hscale).
  exists n. split; [exact Hn|].
  set (d := Qden (times_pow2 m x)) in *.
  pose proof (scale2_pos (Zpos n) (Zpos d) x ltac:(lia) ltac:(lia)) as [Hp Hq].
  pose proof (Z.log2_spec m ltac:(lia)) as Hlog.
  pose proof (Z.log2_nonneg m) as Hlog0.
  assert (Hexp : ilog2 n d = x + Z.log2 m).
  { destruct (ilog2_spec n d) as [H1 H2].
    apply (reaches_unique (Zpos n) (Zpos d)); try lia; try assumption.
    - apply reaches_shift; try lia. rewrite Hscale. nia.
    - rewrite <- Z.add_assoc. rewrite reaches_shift by lia.
      rewrite Hscale. rewrite Z.add_1_r. nia. }
  assert (Hlt : Z.log2 m < prec) by (apply Z.log2_lt_pow2; lia).
  unfold round_magnitude. rewrite Hexp.
  assert (Z.max (x + Z.log2 m - (prec - 1)) emin = x) as ->.
  { destruct Hnorm as [->|Hge]; [lia|].
    apply Z.log2_le_pow2 in Hge; lia. }
  destruct (scale2 (Zpos n) (Zpos d) x) as [p q]. cbn [fst snd] in *.
  subst p. now rewrite round_half_even_multiple.
Qed.

(** What [round_magnitude] returns is zero or a number of the format. *)
Lemma round_magnitude_format n d :
  round_magnitude prec emin n d = 0%Q
  \/ exists m x, Spec.normal prec emin m x /\ round_magnitude prec emin n d = times_pow2 m x.
Proof.
  unfold round_magnitude.
  set (e := ilog2 n d). set (x := Z.max (e - (prec - 1)) emin).
  destruct (ilog2_spec n d) as [Hreach Hnot]. fold e in Hreach, Hnot.
  pose proof (scale2_pos (Zpos n) (Zpos d) x ltac:(lia) ltac:(lia)) as [Hp Hq].
  pose proof (pow2_gt0 prec ltac:(lia)) as Hprec.
  assert (Hupper : fst (scale2 (Zpos n) (Zpos d) x)
                   < snd (scale2 (Zpos n) (Zpos d) x) * 2 ^ prec).
  { destruct (Z.le_gt_cases x (e + 1)) as [H|H].
    - replace (e + 1) with (x + (e + 1 - x)) in Hnot by lia.
      rewrite reaches_shift in Hnot by lia.
      assert (2 ^ (e + 1 - x) <= 2 ^ prec)
        by (apply Z.pow_le_mono_r; lia).
      nia.
    - assert (~ Spec.reaches (Zpos n) (Zpos d) x).
      { intros H'. apply Hnot.
        now apply (reaches_mono (Zpos n) (Zpos d) x); [| |lia|]. }
      unfold Spec.reaches in *. nia. }
  assert (Hlower : x = emin
                   \/ snd (scale2 (Zpos n) (Zpos d) x) * 2 ^ (prec - 1)
                      <= fst (scale2 (Zpos n) (Zpos d) x)).
  { destruct (Z.le_gt_cases (e - (prec - 1)) emin) as [H|H]; [left; lia|].
    right. replace e with (x + (prec - 1)) in Hreach by lia.
    now rewrite reaches_shift in Hreach by lia. }
  destruct (scale2 (Zpos n) (Zpos d) x) as [p q]. cbn [fst snd] in *.
  pose proof (round_half_even_bounds p q ltac:(lia) Hq) as Hm.
  assert (Hk : 0 <= p / q < 2 ^ prec).
  { split; [apply Z.div_pos; lia|]. apply Z.div_lt_upper_bound; lia. }
  assert (Hk' : x = emin \/ 2 ^ (prec - 1) <= p / q).
  { destruct Hlower as [H|H]; [now left|right].
    apply Z.div_le_lower_bound; lia. }
  set (m := round_half_even p q) in *.
  destruct (Z.eq_dec m 0) as [->|Hm0]; [left; apply times_pow2_zero|].
  right.
  destruct (Z.eq_dec m (2 ^ prec)) as [Htop|Htop].
  - exists (2 ^ (prec - 1)), (x + 1). split.
    + pose proof (pow2_gt0 (prec - 1) ltac:(lia)).
      assert (2 ^ prec = 2 * 2 ^ (prec - 1)).
      { rewrite <- Z.pow_succ_r by lia. f_equal. lia. }
      unfold Spec.normal. lia.
    + rewrite <- times_pow2_double. f_equal. rewrite Htop.
      rewrite <- Z.pow_succ_r by lia. f_equal. lia.
  - exists m, x. split; [|reflexivity].
    unfold Spec.normal. lia.
Qed.

(** A rounded number is zero or, up to its sign, a number of the format. *)
Lemma round_binary_format v :
  round_binary prec emin v = 0%Q
  \/ exists m x,
       Spec.normal prec emin m x
       /\ (round_binary prec emin v = times_pow2 m x
           \/ round_binary prec emin v = (- times_pow2 m x)%Q).
Proof.
  unfold round_binary.
  destruct (Qnum v) as [|n|n]; [now left| |];
    (destruct (round_magnitude_format n (Qden v))
       as [->|(m & x & Hnormal & ->)];
     [now left | right; exists m, x; split; [exact Hnormal|]]);
    [now left | now right].
Qed.

(** Rounding leaves a number of the format as it is. *)
Lemma round_binary_normal m x :
  Spec.normal prec emin m x ->
  round_binary prec emin (times_pow2 m x) = times_pow2 m x
  /\ round_binary prec emin (- times_pow2 m x) = (- times_pow2 m x)%Q.
Proof.
  intros Hnormal.
  destruct (round_magnitude_normal m x Hnormal) as (n & Hn & Hfix).
  unfold round_binary. cbn [Qopp Qnum Qden]. rewrite Hn.
  change (- Z.pos n) with (Z.neg n). cbv iota.
  split; [exact Hfix | now rewrite Hfix].
Qed.

Lemma round_binary_idempotent v :
  round_binary prec emin (round_binary prec emin v) = round_binary prec emin v.
Proof.
  destruct (round_binary_format v) as [->|(m & x & Hnormal & [->| ->])];
    [reflexivity|now apply round_binary_normal..].
Qed.

End Rounding.

Lemma times_pow2_shift m x k :
  0 <= k -> times_pow2 (m * 2 ^ k) (x - k) = times_pow2 m x.
Proof.
  intros Hk. revert x. pattern k. apply natlike_ind; [| |exact Hk].
  - intros x. cbn. now rewrite Z.mul_1_r, Z.sub_0_r.
  - intros j Hj IH x. rewrite Z.pow_succ_r by exact Hj.
    replace (m * (2 * 2 ^ j)) with (2 * (m * 2 ^ j)) by lia.
    rewrite times_pow2_double.
    replace (x - Z.succ j + 1) with (x - j) by lia. apply IH.
Qed.

(** A number of a format is a number of every format that has at least its
    digits and Spec.reaches down to its least digit. *)
Lemma normal_wider prec emin prec' emin' m x :
  0 < prec <= prec' -> emin' + (prec' - 1) <= emin ->
  Spec.normal prec emin m x ->
  exists m' x', Spec.normal prec' emin' m' x' /\ times_pow2 m' x' = times_pow2 m x.
Proof.
  intros Hprec Hemin (Hx & Hm & _).
  pose proof (Z.log2_nonneg m) as Hlog0.
  assert (Hlog : Z.log2 m < prec) by (apply Z.log2_lt_pow2; lia).
  set (k := prec' - 1 - Z.log2 m).
  exists (m * 2 ^ k), (x - k). split; [|apply times_pow2_shift; lia].
  pose proof (Z.log2_mul_pow2 m k ltac:(lia) ltac:(lia)) as Hshift.
  pose proof (pow2_gt0 k ltac:(lia)) as Hk.
  assert (H0 : 0 < m * 2 ^ k) by nia.
  split; [lia|]. split; [split; [exact H0|]|right].
  - apply Z.log2_lt_pow2; lia.
  - apply Z.log2_le_pow2; lia.
Qed.

Lemma round_binary_wider prec emin prec' emin' v :
  0 < prec <= prec' -> emin' + (prec' - 1) <= emin ->
  round_binary prec' emin' (round_binary prec emin v)
  = round_binary prec emin v.
Proof.
  intros Hprec Hemin.
  destruct (round_binary_format prec emin ltac:(lia) v)
    as [->|(m & x & Hnormal & Hv)]; [reflexivity|].
  destruct (normal_wider prec emin prec' emin' m x Hprec Hemin Hnormal)
    as (m' & x' & Hnormal' & E).
  rewrite <- E in Hv.
  destruct Hv as [-> | ->];
    now apply round_binary_normal; [lia|].
Qed.

(** A single is left as it is by [fround], a double by [double], and a
    single is a double. *)
Lemma fround_idempotent v : fround (fround v) = fround v.
Proof. now apply round_binary_idempotent. Qed.

Lemma double_idempotent v : double (double v) = double v.
Proof. now apply round_binary_idempotent. Qed.

Lemma double_fround v : double (fround v) = fround v.
Proof. now apply round_binary_wider. Qed.

(** ** Strings *)

Lemma trimStart_Forall (P : N -> Prop) (s : jsstring) :
  Forall P s -> Forall P (trimStart s).
Proof.
  induction 1 as [|c t Hc Ht IH]; simpl; [constructor|].
  destruct (is_ws c); [exact IH | now constructor].
Qed.

Lemma trimEnd_Forall (P : N -> Prop) (s : jsstring) :
  Forall P s -> Forall P (trimEnd s).
Proof.
  induction 1 as [|c t Hc Ht IH]; simpl; [constructor|].
  destruct (trimEnd t) as [|c' t'].
  - destruct (is_ws c); [constructor | now repeat constructor].
  - now constructor.
Qed.

Lemma trim_Forall (P : N -> Prop) (s : jsstring) :
  Forall P s -> Forall P (trim s).
Proof. intros H. now apply trimEnd_Forall, trimStart_Forall. Qed.

(** ** Extractor *)

(** After the first replacement every whitespace code unit is a space. *)
Lemma replace_ws_runs_no_LF (in_run : bool) (s : jsstring) :
  Forall (fun c => c <> LF) (replace_ws_runs in_run s).
Proof.
  revert in_run; induction s as [|c t IH]; intros in_run; simpl.
  - constructor.
  - destruct (is_ws c) eqn:Hc.
    + destruct in_run; [apply IH|].
      constructor; [discriminate | apply IH].
    + constructor; [|apply IH].
      intros ->. discriminate Hc.
Qed.

(** Without a line feed there is no run for [/\n{3,}/] to match. *)
Lemma replace_newline_runs_id (s : jsstring) :
  Forall (fun c => c <> LF) s -> replace_newline_runs 0 s = s.
Proof.
  induction 1 as [|c t Hc _ IH]; simpl; [reflexivity|].
  destruct (N.eqb_spec c LF) as [->|_]; [contradiction|].
  unfold flush_newlines; simpl. now rewrite IH.
Qed.

(** The example of C4 on the code: the input "A", two spaces, four line
    feeds, "B" is not normalised to "A", two line feeds, "B". *)
Lemma C4_example_output_differs :
  TextExtractor.cleanText [65; 32; 32; 10; 10; 10; 10; 66]%N
  <> [65; 10; 10; 66]%N.
Proof. vm_compute. discriminate. Qed.

(** C4 on the code: [cleanText] first turns every run of whitespace, line
    feeds included, into one space; the replacement of three or more line
    feeds by two, which the source comments as keeping at most two, then
    has nothing left to match, so the text is only trimmed afterwards and
    the output holds no line feed.  For "A", two spaces, four line feeds,
    "B" the output is "A B", not "A", two line feeds, "B". *)
Theorem C4_cleanText_leaves_single_spaces :
  (forall text,
     TextExtractor.cleanText text = trim (replace_ws_runs false text))
  /\ (forall text, Forall (fun c => c <> LF) (TextExtractor.cleanText text))
  /\ TextExtractor.cleanText [65; 32; 32; 10; 10; 10; 10; 66]%N
     = [65; 32; 66]%N.
Proof.
  assert (Hid : forall text,
    TextExtractor.cleanText text = trim (replace_ws_runs false text)).
  { intros text. unfold TextExtractor.cleanText.
    now rewrite replace_newline_runs_id by apply replace_ws_runs_no_LF. }
  split; [exact Hid|]. split; [|reflexivity].
  intros text. rewrite Hid. apply trim_Forall, replace_ws_runs_no_LF.
Qed.

(** ** Query router *)

(** C9: an empty string, or a value that is not a string, makes
    [routeQuery] throw, whatever is passed for the options ([null]
    included); the world is left as it was, so no embedding and no search
    was called, and the result is not a routing decision. *)
Theorem C9_routeQuery_rejects_invalid_query
    (h : host) (r : QueryRouter.t) (userQuery : value)
    (options : QueryRouter.options_arg) (w : world) :
  userQuery = Str [] \/ is_string userQuery = false ->
  QueryRouter.routeQuery h r userQuery options w
  = (Throw (Error (js "User query must be a non-empty string")), w).
Proof.
  intros [-> | Hns]; [reflexivity|].
  unfold QueryRouter.routeQuery. rewrite Hns.
  now rewrite orb_true_r.
Qed.

(** C9 on the empty string and on a number. *)
Lemma C9_routeQuery_rejects_invalid_query_witness :
  QueryRouter.routeQuery Demo.host0
    (QueryRouter.new (Demo.embedder [1; 0; 0]%Q) Demo.store3)
    (Str []) QueryRouter.no_options start
  = (Throw (Error (js "User query must be a non-empty string")), start)
  /\ QueryRouter.routeQuery Demo.host0
       (QueryRouter.new (Demo.embedder [1; 0; 0]%Q) Demo.store3)
       (Number 7) QueryRouter.no_options start
     = (Throw (Error (js "User query must be a non-empty string")), start).
Proof.
  split.
  - apply C9_routeQuery_rejects_invalid_query. left. reflexivity.
  - apply C9_routeQuery_rejects_invalid_query. right. reflexivity.
Defined.

(** C6: with the thresholds of the constructor, the numbers [0.6] and
    [0.4], for a non-empty query string, no forced mode, an embedding that
    succeeds and a search whose best result has score [s]: if
    [0.4 <= s < 0.6] the decision is [general] with confidence [1 - s] and
    carries the retrieved chunks; if [s >= 0.6] it is [rag] with confidence
    [s].  The numbers are doubles: [0.6] and [0.4] are the doubles nearest
    to 6/10 and 4/10, and [1 - s] is the rounded difference. *)
Theorem C6_routeQuery_thresholds
    (h : host) (em : EmbeddingManager.t) (vs : VectorStore.t)
    (c : N) (q : jsstring) (opts : QueryRouter.options) (w : world)
    (e : list Q) (top : VectorStore.scored_chunk)
    (rest : list VectorStore.scored_chunk) :
  QueryRouter.is_str (QueryRouter.forceMode opts) (js "rag") = false ->
  QueryRouter.is_str (QueryRouter.forceMode opts) (js "general") = false ->
  EmbeddingManager.embedText em (Str (c :: q)) = Return e ->
  VectorStore.search h vs e (default 1 (QueryRouter.topK opts))
    VectorStore.no_filters false = Return (top :: rest) ->
  let s := VectorStore.similarity_score top in
  let result :=
    fst (QueryRouter.routeQuery h (QueryRouter.new em vs) (Str (c :: q)) opts w) in
  ((double (4 # 10) <= s)%Q /\ (s < double (6 # 10))%Q ->
     exists d, result = Return d
       /\ QueryRouter.dmode d = ModeGeneral
       /\ QueryRouter.confidence d = fsub 1 s
       /\ QueryRouter.relevantChunks d = top :: rest)
  /\ ((double (6 # 10) <= s)%Q ->
     exists d, result = Return d
       /\ QueryRouter.dmode d = ModeRag
       /\ QueryRouter.confidence d = s
       /\ QueryRouter.relevantChunks d = top :: rest).
Proof.
  intros Hrag Hgen Hembed Hsearch s result.
  assert (Hrun : forall w0,
    QueryRouter.routeQuery h (QueryRouter.new em vs) (Str (c :: q)) opts w0
    = (if Qle_bool (double (6 # 10)) s
       then Return {| QueryRouter.dmode := ModeRag;
                      QueryRouter.confidence := s;
                      QueryRouter.reason :=
                        js "High similarity (" ++ QueryRouter.percent h s
                          ++ js ") to document content";
                      QueryRouter.relevantChunks := top :: rest;
                      QueryRouter.error := None |}
       else if Qle_bool (double (4 # 10)) s
       then Return {| QueryRouter.dmode := ModeGeneral;
                      QueryRouter.confidence := fsub 1 s;
                      QueryRouter.reason :=
                        js "Low similarity (" ++ QueryRouter.percent h s
                          ++ js ") to documents - using general chat";
                      QueryRouter.relevantChunks := top :: rest;
                      QueryRouter.error := None |}
       else Return {| QueryRouter.dmode := ModeGeneral;
                      QueryRouter.confidence := 1;
                      QueryRouter.reason := js "Query not document-related";
                      QueryRouter.relevantChunks := [];
                      QueryRouter.error := None |},
       {| clock := clock w0;
          log := (log w0 ++ [EmbedText (Str (c :: q))])
                   ++ [Search (default 1 (QueryRouter.topK opts))] |})).
  { intros w0. unfold QueryRouter.routeQuery.
    cbn [truthy is_string negb orb]. rewrite Hrag, Hgen.
    unfold try_catch, bind, invoke, ret.
    cbn [QueryRouter.embeddingManager QueryRouter.vectorStore
      QueryRouter.new QueryRouter.thresholdSimilarity
      QueryRouter.minimumConfidence].
    rewrite Hembed. cbn [clock log]. rewrite Hsearch. fold s.
    destruct (Qle_bool (double (6 # 10)) s); [reflexivity|].
    destruct (Qle_bool (double (4 # 10)) s); reflexivity. }
  subst result. rewrite Hrun. cbn [fst]. split.
  - intros [Hlow Hhigh].
    assert (Qle_bool (double (6 # 10)) s = false) as ->.
    { destruct (Qle_bool (double (6 # 10)) s) eqn:E; [|reflexivity].
      apply Qle_bool_iff in E. exfalso. exact (Qlt_not_le _ _ Hhigh E). }
    apply Qle_bool_iff in Hlow. rewrite Hlow. eexists. repeat split.
  - intros Hhigh. apply Qle_bool_iff in Hhigh. rewrite Hhigh.
    eexists. repeat split.
Qed.

(** C6 on the three-chunk index.  The query [0.55, 0, 0] is stored as
    singles, so that its score is 0.550000011920929 (9227469 / 2^24): it is
    routed to [general] with confidence 0.44999998807907104 (7549747 / 2^24)
    and its chunk attached.  The query [1, 0, 0], of score 1, is routed to
    [rag] with confidence 1. *)
Lemma C6_routeQuery_thresholds_witness :
  (exists d,
     fst (QueryRouter.routeQuery Demo.host0
            (QueryRouter.new (Demo.embedder [55 # 100; 0; 0]%Q) Demo.store3)
            (Str (js "q")) QueryRouter.no_options start) = Return d
     /\ QueryRouter.dmode d = ModeGeneral
     /\ QueryRouter.confidence d = (7549747 # 16777216)%Q
     /\ length (QueryRouter.relevantChunks d) = 1%nat)
  /\ (exists d,
     fst (QueryRouter.routeQuery Demo.host0
            (QueryRouter.new (Demo.embedder [1; 0; 0]%Q) Demo.store3)
            (Str (js "q")) QueryRouter.no_options start) = Return d
     /\ QueryRouter.dmode d = ModeRag
     /\ QueryRouter.confidence d = 1%Q).
Proof.
  split.
  - edestruct (C6_routeQuery_thresholds Demo.host0
                 (Demo.embedder [55 # 100; 0; 0]%Q) Demo.store3
                 113%N [] QueryRouter.no_options start) as [Hmid _];
      [reflexivity | reflexivity | reflexivity | vm_compute; reflexivity |].
    destruct Hmid as (d & Hd & Hmode & Hconf & Hchunks).
    { split; vm_compute; [discriminate | reflexivity]. }
    exists d. rewrite Hconf, Hchunks. repeat split; [exact Hd | exact Hmode].
  - edestruct (C6_routeQuery_thresholds Demo.host0
                 (Demo.embedder [1; 0; 0]%Q) Demo.store3
                 113%N [] QueryRouter.no_options start) as [_ Hhigh];
      [reflexivity | reflexivity | reflexivity | vm_compute; reflexivity |].
    destruct Hhigh as (d & Hd & Hmode & Hconf & _).
    { vm_compute. discriminate. }
    exists d. rewrite Hconf. repeat split; [exact Hd | exact Hmode].
Defined.

(** The number [0.6] of the source is the double nearest to 6/10, which
    lies below 6/10.  A best score that is exactly this double meets the
    test [topScore >= 0.6] and is routed to [rag]. *)
Example routeQuery_at_the_threshold :
  double (6 # 10) = (5404319552844595 # 9007199254740992)%Q
  /\ (double (6 # 10) < 6 # 10)%Q
  /\ exists d,
       fst (QueryRouter.routeQuery Demo.host0
              (QueryRouter.new (Demo.embedder [1; 1; 1]%Q) Demo.storeThreshold)
              (Str (js "q")) QueryRouter.no_options start) = Return d
       /\ QueryRouter.dmode d = ModeRag
       /\ QueryRouter.confidence d = double (6 # 10).
Proof.
  split; [vm_compute; reflexivity|]. split; [vm_compute; reflexivity|].
  eexists. split; [vm_compute; reflexivity|]. split; vm_compute; reflexivity.
Qed.

(** Rounding to a single leaves a single as it is; here on the singles
    nearest to some decimal fractions, to a large and to a tiny number. *)
Example fround_of_singles :
  let singles :=
    List.map fround
      [55 # 100; 1 # 3; - (2 # 3); 6 # 10; 16777217; 1 # 1000000007;
       1 # 1427247692705959881058285969449495136382746624]%Q in
  List.map fround singles = singles /\ List.map double singles = singles.
Proof. split; vm_compute; reflexivity. Qed.

(** ** Vector store: loading *)

Lemma map_outcome_toFloat32 (cs : list VectorStore.stored_chunk) :
  if forallb Spec.isArray cs
  then exists es, VectorStore.map_outcome VectorStore.toFloat32 cs = Return es
                  /\ Forall2 (fun c e =>
                        Spec.vectorLength (VectorStore.embedding c)
                        = Some (length e)) cs es
  else exists msg,
         VectorStore.map_outcome VectorStore.toFloat32 cs = Throw (Error msg).
Proof.
  induction cs as [|c cs IH]; cbn [forallb VectorStore.map_outcome].
  - exists []. split; [reflexivity | constructor].
  - assert (Hc : if Spec.isArray c
                 then exists v, VectorStore.toFloat32 c = Return v
                        /\ Spec.vectorLength (VectorStore.embedding c)
                           = Some (length v)
                 else exists msg, VectorStore.toFloat32 c = Throw (Error msg)).
    { unfold Spec.isArray, VectorStore.toFloat32.
      destruct (VectorStore.embedding c) as [v | v |]; [|eauto | eauto].
      eexists. split; [reflexivity|].
      cbn [Spec.vectorLength]. now rewrite length_map. }
    destruct (Spec.isArray c); cbn [andb].
    + destruct Hc as (v & -> & Hv).
      destruct (forallb Spec.isArray cs).
      * destruct IH as (es & -> & Hes). exists (v :: es).
        split; [reflexivity | now constructor].
      * destruct IH as (msg & ->). now exists msg.
    + destruct Hc as (msg & ->). now exists msg.
Qed.

(** C2, as the spec states it, fails: data with no [embedding_dim], a
    vector of length 2 and empty [chunk_id], [document_id] and [text] is
    loaded without an error. *)
Lemma C2_invalid_index_is_loaded :
  Spec.indexValid Demo.dataLoose = false
  /\ fst (VectorStore.loadEmbeddings VectorStore.new (Some Demo.dataLoose))
     = Return tt
  /\ VectorStore.isLoaded
       (snd (VectorStore.loadEmbeddings VectorStore.new (Some Demo.dataLoose)))
     = true.
Proof. repeat split. Qed.

(** C2 (amended): [loadEmbeddings] checks that the data and its [chunks]
    are present and that every chunk's [embedding] is an array, nothing
    else.  Data that passes is loaded: the store is marked loaded, holds the
    chunks as given and for each a vector of the length given, and its
    dimension is [embedding_dim], or 768 when that is absent or zero.  Data that does not pass makes the
    load throw an error and leaves the loaded flag as it was. *)
Theorem C2_loadEmbeddings_checks
    (vs : VectorStore.t) (data : option VectorStore.embeddings_data) :
  let result := VectorStore.loadEmbeddings vs data in
  if Spec.loadable data
  then exists d cs,
         data = Some d /\ VectorStore.data_chunks d = Some cs
         /\ fst result = Return tt
         /\ VectorStore.isLoaded (snd result) = true
         /\ VectorStore.chunks (snd result) = cs
         /\ Forall2 (fun c e =>
               Spec.vectorLength (VectorStore.embedding c) = Some (length e))
              cs (VectorStore.embeddings (snd result))
         /\ VectorStore.embeddingDim (snd result)
            = match VectorStore.embedding_dim d with
              | Some dim => if dim =? 0 then 768 else dim
              | None => 768
              end
  else exists msg,
         fst result = Throw (Error msg)
         /\ VectorStore.isLoaded (snd result) = VectorStore.isLoaded vs.
Proof.
  intros result; subst result.
  destruct data as [[[cs|] dim]|]; simpl.
  - pose proof (map_outcome_toFloat32 cs) as H.
    destruct (forallb Spec.isArray cs).
    + destruct H as (es & -> & Hes). simpl.
      eexists _, cs. repeat split. exact Hes.
    + destruct H as (msg & ->). simpl. now exists msg.
  - eexists; split; reflexivity.
  - eexists; split; reflexivity.
Qed.

(** Data that the specification calls valid, with a dimension other than
    zero, loads into a consistent store. *)
Lemma loadEmbeddings_valid_consistent
    (vs : VectorStore.t) (d : VectorStore.embeddings_data) (dim : Z) :
  VectorStore.embedding_dim d = Some dim -> dim <> 0 ->
  Spec.indexValid d = true ->
  Spec.consistent (snd (VectorStore.loadEmbeddings vs (Some d))).
Proof.
  intros Hdim Hnz Hvalid. destruct d as [[cs|] dim']; simpl in Hdim;
    subst dim'; unfold Spec.indexValid in Hvalid; simpl in Hvalid;
    [|discriminate].
  assert (Harr : forallb Spec.isArray cs = true).
  { rewrite forallb_forall in Hvalid |- *. intros c Hc.
    specialize (Hvalid c Hc). unfold Spec.chunkValid in Hvalid.
    unfold Spec.isArray.
    destruct (VectorStore.embedding c); [reflexivity | reflexivity |].
    discriminate. }
  pose proof (map_outcome_toFloat32 cs) as Hmap. rewrite Harr in Hmap.
  destruct Hmap as (es & Hes & Hlens).
  unfold VectorStore.loadEmbeddings. rewrite Hes.
  destruct (Z.eqb_spec dim 0); [contradiction|].
  split; [reflexivity|]. split; [exact (Forall2_length _ _ _ Hlens)|].
  cbn [snd VectorStore.embeddings VectorStore.embeddingDim VectorStore.chunks].
  rewrite forallb_forall in Hvalid. clear Harr Hes.
  induction Hlens as [|c e cs' es' Hce _ IH]; [constructor|].
  constructor.
  - specialize (Hvalid c (or_introl eq_refl)).
    unfold Spec.chunkValid in Hvalid. rewrite Hce in Hvalid.
    destruct (bool_decide_reflect (Z.of_nat <$> Some (length e) = Some dim))
      as [Heq | _]; [|discriminate].
    now injection Heq.
  - apply IH. intros x Hx. apply Hvalid. now right.
Qed.

(** ** Sorting *)

Lemma sort_insert_Permutation {A} (cmp : A -> A -> Q) (x : A) (l : list A) :
  Permutation (sort_insert cmp x l) (x :: l).
Proof.
  induction l as [|y t IH]; simpl; [reflexivity|].
  destruct (Qle_bool (cmp x y) 0); [reflexivity|].
  rewrite IH. apply perm_swap.
Qed.

Lemma sort_Permutation {A} (cmp : A -> A -> Q) (l : list A) :
  Permutation (sort cmp l) l.
Proof.
  induction l as [|x t IH]; simpl; [reflexivity|].
  unfold sort in *. simpl. rewrite sort_insert_Permutation. now constructor.
Qed.

Lemma sort_length {A} (cmp : A -> A -> Q) (l : list A) :
  length (sort cmp l) = length l.
Proof. apply Permutation_length, sort_Permutation. Qed.

(** Inserting a similarity that was stored before every element of a
    ranking keeps the ranking ordered. *)
Lemma sort_insert_ranked (x : VectorStore.similarity)
    (l : list VectorStore.similarity) :
  StronglySorted Spec.precedes l ->
  Forall (fun y => (VectorStore.index x < VectorStore.index y)%nat) l ->
  StronglySorted Spec.precedes (sort_insert VectorStore.byScoreDesc x l).
Proof.
  induction 1 as [|y t Ht IH Hy]; intros Hx; simpl.
  - repeat constructor.
  - inversion_clear Hx as [|? ? Hxy Hxt].
    destruct (Qle_bool (VectorStore.byScoreDesc x y) 0) eqn:E.
    + apply Qle_bool_iff in E. unfold VectorStore.byScoreDesc in E.
      constructor; [now constructor|].
      assert (Hle : (VectorStore.score y <= VectorStore.score x)%Q) by lra.
      constructor.
      * unfold Spec.precedes.
        destruct (Qlt_le_dec (VectorStore.score y) (VectorStore.score x));
          [now left | right; split; [lra | exact Hxy]].
      * rewrite Forall_forall in Hy, Hxt |- *. intros z Hz.
        specialize (Hy z Hz). specialize (Hxt z Hz). unfold Spec.precedes in *.
        destruct (Qlt_le_dec (VectorStore.score z) (VectorStore.score x));
          [now left | right; split; [|exact Hxt]].
        destruct Hy as [Hy | [Hy _]]; lra.
    + assert (Hlt : (VectorStore.score x < VectorStore.score y)%Q).
      { destruct (Qlt_le_dec (VectorStore.score x) (VectorStore.score y))
          as [Hlt | Hge]; [exact Hlt|].
        assert (Hc : (VectorStore.byScoreDesc x y <= 0)%Q)
          by (unfold VectorStore.byScoreDesc; lra).
        apply Qle_bool_iff in Hc. congruence. }
      constructor; [now apply IH|].
      eapply Permutation_Forall;
        [symmetry; apply sort_insert_Permutation|].
      constructor; [now left | exact Hy].
Qed.

(** Sorting candidates listed in storage order gives the ranking. *)
Lemma sort_ranked (l : list VectorStore.similarity) :
  StronglySorted (fun a b => (VectorStore.index a < VectorStore.index b)%nat) l ->
  StronglySorted Spec.precedes (sort VectorStore.byScoreDesc l).
Proof.
  induction 1 as [|x t Ht IH Hx]; [constructor|].
  unfold sort in *; simpl. apply sort_insert_ranked; [exact IH|].
  eapply Permutation_Forall; [symmetry; apply sort_Permutation | exact Hx].
Qed.

(** ** Array slices *)

Lemma slice_from_start {A} (l : list A) (k : Z) :
  slice l 0 k = take (Z.to_nat (slice_index (Z.of_nat (length l)) k)) l.
Proof.
  unfold slice. replace (slice_index (Z.of_nat (length l)) 0) with 0.
  - now rewrite Z.sub_0_r.
  - unfold slice_index. simpl. lia.
Qed.

Lemma slice_prefix {A} (l : list A) (k : Z) :
  0 <= k -> slice l 0 k = take (Z.to_nat k) l.
Proof.
  intros Hk. rewrite slice_from_start. unfold slice_index.
  destruct (Z.ltb_spec k 0); [lia|].
  destruct (Z.min_spec k (Z.of_nat (length l))) as [[_ ->] | [Hle ->]];
    [reflexivity|].
  rewrite Nat2Z.id, !firstn_all2; [reflexivity | lia | lia].
Qed.

Lemma slice_drop_last {A} (l : list A) (k : Z) :
  k < 0 -> slice l 0 k = take (length l - Z.to_nat (- k)) l.
Proof.
  intros Hk. rewrite slice_from_start. unfold slice_index.
  destruct (Z.ltb_spec k 0); f_equal; lia.
Qed.

(** ** Vector store: the scan of [search] *)

(** On a chunk that is there, the filter tests are [Spec.passes]. *)
Lemma filteredOut_present (fs : VectorStore.filters)
    (c : VectorStore.stored_chunk) :
  VectorStore.filteredOut fs (Some c) = Return (negb (Spec.passes fs c)).
Proof.
  unfold VectorStore.filteredOut, Spec.passes. now rewrite negb_involutive.
Qed.

Section Scan.

Variables (h : host) (vs : VectorStore.t) (q : list Q)
          (fs : VectorStore.filters) (cos : bool).

Let index_lt (a b : VectorStore.similarity) : Prop :=
  (VectorStore.index a < VectorStore.index b)%nat.

(** What the scan found: an index of the scanned range whose chunk the
    filters let through, with the score of the vector at that index. *)
Let found (i : nat) (rest : list (list Q)) (s : VectorStore.similarity)
  : Prop :=
  (i <= VectorStore.index s)%nat
  /\ exists e,
       rest !! (VectorStore.index s - i)%nat = Some e
       /\ VectorStore.filteredOut fs
            (VectorStore.chunks vs !! VectorStore.index s) = Return false
       /\ Spec.scoreOf h cos q e = Return (VectorStore.score s).

Lemma scan_sound (rest : list (list Q)) (i : nat)
    (sims : list VectorStore.similarity) :
  VectorStore.scan h vs q fs cos i rest = Return sims ->
  StronglySorted index_lt sims
  /\ Forall (found i rest) sims
  /\ (length sims <= length rest)%nat.
Proof.
  revert i sims. induction rest as [|e rest IH]; intros i sims;
    cbn [VectorStore.scan].
  - intros [= <-]. repeat constructor.
  - assert (Hshift : forall l, Forall (found (S i) rest) l ->
              Forall (found i (e :: rest)) l).
    { intros l. apply List.Forall_impl.
      intros s (Hi & e' & H2 & H1 & H3).
      split; [lia|]. exists e'. split; [|split; [exact H1 | exact H3]].
      replace (VectorStore.index s - i)%nat
        with (S (VectorStore.index s - S i)) by lia. exact H2. }
    destruct (VectorStore.filteredOut fs (VectorStore.chunks vs !! i))
      as [[|]|] eqn:Hrej; [| |discriminate].
    + intros Hrec. destruct (IH _ _ Hrec) as (Hs & Hf & Hl).
      split; [exact Hs|]. split; [now apply Hshift | cbn [length]; lia].
    + destruct (if cos then _ else _) as [sc|] eqn:Hsc; [|discriminate].
      destruct (VectorStore.scan h vs q fs cos (S i) rest) as [sims'|]
        eqn:Hrec; [|discriminate].
      intros [= <-]. destruct (IH _ _ Hrec) as (Hs & Hf & Hl).
      split; [|split; [|cbn [length]; lia]].
      * constructor; [exact Hs|]. revert Hf. apply List.Forall_impl.
        intros s [Hi _]. unfold index_lt. cbn [VectorStore.index]. lia.
      * constructor; [|now apply Hshift].
        split; [cbn [VectorStore.index]; lia|]. exists e.
        cbn [VectorStore.index VectorStore.score]. rewrite Nat.sub_diag.
        split; [reflexivity|]. split; [exact Hrej | exact Hsc].
Qed.

Lemma scan_complete (rest : list (list Q)) (i : nat)
    (sims : list VectorStore.similarity) :
  VectorStore.scan h vs q fs cos i rest = Return sims ->
  forall (j : nat) e,
    rest !! j = Some e ->
    VectorStore.filteredOut fs (VectorStore.chunks vs !! (i + j)%nat)
    = Return false ->
    exists sc, Spec.scoreOf h cos q e = Return sc
               /\ In {| VectorStore.index := (i + j)%nat;
                        VectorStore.score := sc |} sims.
Proof.
  revert i sims. induction rest as [|e0 rest IH]; intros i sims;
    cbn [VectorStore.scan].
  - intros _ j e Hj. destruct j; discriminate.
  - intros Hscan j e He Hpass.
    destruct j as [|j].
    + rewrite Nat.add_0_r in *. cbn in He. injection He as ->.
      rewrite Hpass in Hscan.
      destruct (if cos then _ else _) as [sc|] eqn:Hsc; [|discriminate].
      destruct (VectorStore.scan h vs q fs cos (S i) rest); [|discriminate].
      injection Hscan as <-. exists sc. split; [exact Hsc | now left].
    + cbn in He. replace (i + S j)%nat with (S i + j)%nat in * by lia.
      destruct (VectorStore.filteredOut fs (VectorStore.chunks vs !! i))
        as [[|]|]; [| |discriminate].
      * eapply IH; eauto.
      * destruct (if cos then _ else _); [|discriminate].
        destruct (VectorStore.scan h vs q fs cos (S i) rest) as [sims'|]
          eqn:Hrec; [|discriminate].
        injection Hscan as <-.
        destruct (IH _ _ Hrec j e He Hpass) as (sc & Hsc & Hin).
        exists sc. split; [exact Hsc | now right].
Qed.

Lemma scoreOf_returns (e : list Q) :
  length e = length q -> exists sc, Spec.scoreOf h cos q e = Return sc.
Proof.
  intros He. unfold Spec.scoreOf, VectorStore.cosineSimilarity,
    VectorStore.dotProduct.
  rewrite He, Nat.eqb_refl. cbn [negb]. destruct cos; [|eauto].
  destruct (fold_left _ _ _) as [[d m1] m2].
  destruct (Qeq_bool _ 0); eauto.
Qed.

(** On a range that has chunks and vectors of the query's length the scan
    returns. *)
Lemma scan_total (rest : list (list Q)) (i : nat) :
  (i + length rest <= length (VectorStore.chunks vs))%nat ->
  Forall (fun e => length e = length q) rest ->
  exists sims, VectorStore.scan h vs q fs cos i rest = Return sims.
Proof.
  revert i. induction rest as [|e rest IH]; intros i Hlen Hall;
    cbn [VectorStore.scan].
  - eauto.
  - inversion_clear Hall as [|? ? He Hrest]. cbn [length] in Hlen.
    destruct (lookup_lt_is_Some_2 (VectorStore.chunks vs) i) as [c ->];
      [lia|].
    rewrite filteredOut_present.
    destruct (IH (S i)) as [sims ->]; [lia | exact Hrest|].
    destruct (negb (Spec.passes fs c)); [eauto|].
    destruct (scoreOf_returns e He) as [sc Hsc].
    unfold Spec.scoreOf in Hsc. rewrite Hsc. eauto.
Qed.

End Scan.

(** ** Vector store: [search] *)

(** The final [map] of [search] yields one result per ranked entry: what
    the store has at the entry's index, and the entry's score. *)
Lemma attach_ranked (vs : VectorStore.t) (l : list VectorStore.similarity) :
  Forall2 (fun r s =>
             VectorStore.stored r
             = VectorStore.chunks vs !! VectorStore.index s
             /\ VectorStore.similarity_score r = VectorStore.score s)
    (List.map (VectorStore.attach vs) l) l.
Proof. induction l as [|s t IH]; constructor; [now split | exact IH]. Qed.

(** What [search] computes once its two checks have passed. *)
Lemma search_unfold (h : host) (vs : VectorStore.t) (q : list Q) (topK : Z)
    (fs : VectorStore.filters) (cos : bool)
    (results : list VectorStore.scored_chunk) :
  VectorStore.search h vs q topK fs cos = Return results ->
  exists sims,
    VectorStore.scan h vs (List.map fround q) fs cos 0
      (VectorStore.embeddings vs) = Return sims
    /\ results
       = List.map (VectorStore.attach vs)
           (slice (sort VectorStore.byScoreDesc sims) 0 topK).
Proof.
  unfold VectorStore.search.
  destruct (negb (VectorStore.isLoaded vs)); [discriminate|]. cbn zeta.
  destruct (negb (_ =? _)); [discriminate|].
  destruct (VectorStore.scan _ _ _ _ _ _ _) as [sims|]; [|discriminate].
  intros [= <-]. now exists sims.
Qed.

(** C3, as the spec states it, fails: on the three-chunk index, with a
    query of the right dimension, [topK = 0] returns the empty list and
    [topK = -1] returns two results; neither call throws. *)
Lemma C3_search_nonpositive_topK_returns :
  VectorStore.isLoaded Demo.store3 = true
  /\ Z.of_nat (length [0; 1; 0]%Q) = VectorStore.embeddingDim Demo.store3
  /\ VectorStore.search Demo.host0 Demo.store3 [0; 1; 0]%Q 0
       VectorStore.no_filters false = Return []
  /\ exists r1 r2,
       VectorStore.search Demo.host0 Demo.store3 [0; 1; 0]%Q (-1)
         VectorStore.no_filters false = Return [r1; r2].
Proof.
  split; [reflexivity|]. split; [reflexivity|]. split; [reflexivity|].
  eexists _, _. vm_compute. reflexivity.
Qed.

(** C3 (amended): [search] has no check on [topK].  Whenever the full
    ranking can be computed (a search for as many results as there are
    stored vectors returns), a search with [topK = 0] returns the empty list
    and a search with [topK < 0] returns the ranking without its last
    [-topK] entries. *)
Theorem C3_search_nonpositive_topK
    (h : host) (vs : VectorStore.t) (q : list Q) (topK : Z)
    (fs : VectorStore.filters) (cos : bool)
    (ranking : list VectorStore.scored_chunk) :
  topK <= 0 ->
  VectorStore.search h vs q (Z.of_nat (length (VectorStore.embeddings vs)))
    fs cos = Return ranking ->
  VectorStore.search h vs q topK fs cos
  = Return (if topK =? 0 then []
            else take (length ranking - Z.to_nat (- topK)) ranking).
Proof.
  intros Hk. unfold VectorStore.search.
  destruct (negb (VectorStore.isLoaded vs)); [discriminate|]. cbn zeta.
  destruct (negb (_ =? _)); [discriminate|].
  destruct (VectorStore.scan h vs (List.map fround q) fs cos 0
              (VectorStore.embeddings vs)) as [sims|] eqn:Hscan;
    [|discriminate].
  destruct (scan_sound _ _ _ _ _ _ _ _ Hscan) as (_ & _ & Hlen).
  set (sorted := sort VectorStore.byScoreDesc sims).
  rewrite slice_prefix by lia.
  rewrite firstn_all2 by (subst sorted; rewrite sort_length; lia).
  intros [= <-]. f_equal.
  destruct (Z.eqb_spec topK 0) as [-> | Hne];
    [now rewrite slice_prefix by lia|].
  rewrite slice_drop_last by lia. rewrite length_map.
  symmetry. apply firstn_map.
Qed.

(** C3 (amended) on the three-chunk index: [topK = -2] leaves the best
    of the three results. *)
Lemma C3_search_nonpositive_topK_witness :
  VectorStore.search Demo.host0 Demo.store3 [0; 1; 0]%Q (-2)
    VectorStore.no_filters false
  = Return [ {| VectorStore.stored :=
                  Some (Demo.mkChunk "B_chunk_0" "B" "beta"
                          (VectorStore.PlainArray [0; 1; 0]%Q));
                VectorStore.similarity_score := 1 |} ].
Proof.
  erewrite (C3_search_nonpositive_topK Demo.host0 Demo.store3 [0; 1; 0]%Q (-2));
    [| lia | vm_compute; reflexivity].
  vm_compute. reflexivity.
Defined.

(** On entries whose index has a chunk, the results carry that chunk. *)
Lemma attach_ranked_present (vs : VectorStore.t)
    (l : list VectorStore.similarity) :
  Forall (fun s => is_Some (VectorStore.chunks vs !! VectorStore.index s)) l ->
  Forall2 (fun r s =>
             VectorStore.stored r
             = VectorStore.chunks vs !! VectorStore.index s
             /\ is_Some (VectorStore.stored r)
             /\ VectorStore.similarity_score r = VectorStore.score s)
    (List.map (VectorStore.attach vs) l) l.
Proof.
  induction 1 as [|s t Hs _ IH]; constructor; [|exact IH].
  cbn [VectorStore.attach VectorStore.stored VectorStore.similarity_score].
  now repeat split.
Qed.




(** Three chunks on the axes, the query on the first axis, [topK = 2]:
    chunk 0 with score 1, then chunk 1 with score 0, chosen over chunk 2 of
    equal score because it is stored earlier. *)
Example search_tie_by_storage_order :
  VectorStore.search Demo.host0 Demo.store3 [1; 0; 0]%Q 2
    VectorStore.no_filters false
  = Return [ {| VectorStore.stored :=
                  Some (Demo.mkChunk "A_chunk_0" "A" "alpha"
                          (VectorStore.PlainArray [1; 0; 0]%Q));
                VectorStore.similarity_score := 1 |};
             {| VectorStore.stored :=
                  Some (Demo.mkChunk "B_chunk_0" "B" "beta"
                          (VectorStore.PlainArray [0; 1; 0]%Q));
                VectorStore.similarity_score := 0 |} ].
Proof. vm_compute. reflexivity. Qed.

(** Scores are equal when the doubles are: chunk A beats chunk B by 2^-60
    in exact arithmetic, the sums round to the same double 1 + 2^-30, and
    chunk B, stored earlier, comes first. *)
Example search_tie_after_rounding :
  List.map (fun r => (VectorStore.field Chunk.chunk_id r,
                      VectorStore.similarity_score r))
    <$> match VectorStore.search Demo.host0 Demo.storeTie [1; 1; 1]%Q 2
                VectorStore.no_filters false with
        | Return results => Some results
        | Throw _ => None
        end
  = Some [ (Some (js "B_chunk_0"), (1073741825 # 1073741824)%Q);
           (Some (js "A_chunk_0"), (1073741825 # 1073741824)%Q) ].
Proof. vm_compute. reflexivity. Qed.

(** ** RAG pipeline: [query] *)

Section Query.

Variables (h : host) (p : RAGPipeline.t) (userQuery : value)
          (opts : RAGPipeline.options) (w : world).

Variables (e : list Q) (top : VectorStore.scored_chunk)
          (others : list VectorStore.scored_chunk).

Let retrieved := top :: others.

Hypothesis embed_ok :
  EmbeddingManager.embedText (RAGPipeline.embeddingManager p) userQuery
  = Return e.

Hypothesis search_ok :
  VectorStore.search h (RAGPipeline.vectorStore p) e
    (default 5 (RAGPipeline.topK opts))
    (default VectorStore.no_filters (RAGPipeline.filters opts)) false
  = Return retrieved.

(** The answer when the steps up to the prompt succeed and the prompt
    builder has no [buildRAGPrompt]: the [TypeError] of the call is caught
    and an [error] response is returned. *)
Lemma query_without_buildRAGPrompt :
  PromptBuilder.buildRAGPrompt (RAGPipeline.promptBuilder p) = None ->
  fst (RAGPipeline.query h p userQuery opts w)
  = Return {| RAGPipeline.rmode := ModeError;
              RAGPipeline.answer := RAGPipeline.errorAnswer;
              RAGPipeline.error :=
                Some (js "this.promptBuilder.buildRAGPrompt is not a function");
              RAGPipeline.retrievedChunks := [];
              RAGPipeline.sources := [];
              RAGPipeline.rmetadata := None |}.
Proof.
  intros Hnone. unfold RAGPipeline.query, try_catch, bind, now, invoke, lift.
  cbn [clock log]. rewrite embed_ok. cbn [clock log]. rewrite search_ok.
  unfold retrieved. cbn [clock log]. rewrite Hnone. reflexivity.
Qed.

Variables (build : value -> jsstring -> outcome jsstring)
          (extract : jsstring -> outcome jsstring)
          (ragPrompt generated clean : jsstring).

Hypothesis has_build :
  PromptBuilder.buildRAGPrompt (RAGPipeline.promptBuilder p) = Some build.

Hypothesis has_extract :
  PromptBuilder.extractResponse_method (RAGPipeline.promptBuilder p)
  = Some extract.

Hypothesis build_ok :
  build userQuery (RAGPipeline.buildContext retrieved) = Return ragPrompt.

Hypothesis generate_ok :
  ModelManager.generateResponse (RAGPipeline.modelManager p) ragPrompt
    (default ModelManager.no_config (RAGPipeline.generationConfig opts))
  = Return generated.

Hypothesis extract_ok : extract generated = Return clean.

(** With a prompt builder that does have [buildRAGPrompt], and metadata
    not switched off, the response is the [rag] one: the cleaned answer,
    the retrieved chunks with their scores, the sources, the timings
    between the six clock readings, the counts and the average score. *)
Lemma query_rag_response :
  RAGPipeline.includeMetadata opts <> Some false ->
  let t (k : nat) := performance_now h (clock w + k) in
  let embedTime := fsub (t 1%nat) (t 0%nat) in
  let retrievalTime := fsub (t 3%nat) (t 2%nat) in
  let generationTime := fsub (t 5%nat) (t 4%nat) in
  let sources :=
    RAGPipeline.extractSources (RAGPipeline.documentManager p) retrieved in
  fst (RAGPipeline.query h p userQuery opts w)
  = Return {| RAGPipeline.rmode := ModeRag;
              RAGPipeline.answer := clean;
              RAGPipeline.error := None;
              RAGPipeline.retrievedChunks :=
                List.map RAGPipeline.viewChunk retrieved;
              RAGPipeline.sources := sources;
              RAGPipeline.rmetadata :=
                Some (RAGPipeline.RagMetadata
                        (fadd (fadd embedTime retrievalTime) generationTime)
                        embedTime retrievalTime generationTime
                        (Z.of_nat (length retrieved))
                        (Z.of_nat (length sources))
                        (RAGPipeline.calculateAvgSimilarity h retrieved)) |}.
Proof.
  intros Hmeta. unfold RAGPipeline.query, try_catch, bind, now, invoke, lift.
  cbn [clock log]. rewrite embed_ok. cbn [clock log]. rewrite search_ok.
  unfold retrieved in *. cbn [clock log]. rewrite has_build.
  cbn [fmap option_fmap option_map RAGPipeline.method uncurry].
  rewrite build_ok. cbn [clock log]. rewrite generate_ok. cbn [clock log].
  rewrite has_extract. cbn [RAGPipeline.method]. rewrite extract_ok.
  assert (default true (RAGPipeline.includeMetadata opts) = true) as ->.
  { destruct (RAGPipeline.includeMetadata opts) as [[]|];
      [reflexivity | contradiction | reflexivity]. }
  cbn [ret fst]. rewrite Nat.add_0_r.
  replace (clock w + 1)%nat with (S (clock w)) by lia.
  replace (clock w + 2)%nat with (S (S (clock w))) by lia.
  replace (clock w + 3)%nat with (S (S (S (clock w)))) by lia.
  replace (clock w + 4)%nat with (S (S (S (S (clock w))))) by lia.
  replace (clock w + 5)%nat with (S (S (S (S (S (clock w)))))) by lia.
  reflexivity.
Qed.

(** With [includeMetadata: false] the response has no [metadata], the
    final log line reads [response.metadata.queryTime], and the answer is
    the [error] one although every step succeeded. *)
Lemma query_without_metadata :
  RAGPipeline.includeMetadata opts = Some false ->
  fst (RAGPipeline.query h p userQuery opts w)
  = Return {| RAGPipeline.rmode := ModeError;
              RAGPipeline.answer := RAGPipeline.errorAnswer;
              RAGPipeline.error :=
                Some (js "Cannot read properties of undefined (reading 'queryTime')");
              RAGPipeline.retrievedChunks := [];
              RAGPipeline.sources := [];
              RAGPipeline.rmetadata := None |}.
Proof.
  intros Hmeta. unfold RAGPipeline.query, try_catch, bind, now, invoke, lift.
  cbn [clock log]. rewrite embed_ok. cbn [clock log]. rewrite search_ok.
  unfold retrieved in *. cbn [clock log]. rewrite has_build.
  cbn [fmap option_fmap option_map RAGPipeline.method uncurry].
  rewrite build_ok. cbn [clock log]. rewrite generate_ok. cbn [clock log].
  rewrite has_extract. cbn [RAGPipeline.method]. rewrite extract_ok.
  rewrite Hmeta. reflexivity.
Qed.

End Query.

(** With a prompt builder that has [buildRAGPrompt] the query on the
    three-chunk index is answered in [rag] mode: the cleaned answer, the
    three chunks, document A as the one source known to the catalog, and the
    metadata (the clock of [Demo.host0] advances by one per reading). *)
Example query_rag_on_demo_index :
  exists r,
    fst (RAGPipeline.query Demo.host0 (Demo.pipelineWithRAGPrompt [1; 0; 0]%Q)
           (Str (js "What does the statute say?")) RAGPipeline.no_options
           start) = Return r
    /\ RAGPipeline.rmode r = ModeRag
    /\ RAGPipeline.answer r = js "yes"
    /\ List.map RAGPipeline.chunk_id (RAGPipeline.retrievedChunks r)
       = [Some (js "A_chunk_0"); Some (js "B_chunk_0"); Some (js "A_chunk_1")]
    /\ List.map RAGPipeline.s_document_id (RAGPipeline.sources r) = [js "A"]
    /\ RAGPipeline.rmetadata r
       = Some (RAGPipeline.RagMetadata 3 1 1 1 3 1 0).
Proof.
  eexists. split.
  - eapply (query_rag_response Demo.host0
              (Demo.pipelineWithRAGPrompt [1; 0; 0]%Q));
      [ reflexivity | vm_compute; reflexivity | reflexivity | reflexivity
      | reflexivity | reflexivity | reflexivity | discriminate ].
  - repeat split; vm_compute; reflexivity.
Qed.

(** The same query with [includeMetadata: false] ends in [error] mode. *)
Example query_metadata_off_on_demo_index :
  fst (RAGPipeline.query Demo.host0 (Demo.pipelineWithRAGPrompt [1; 0; 0]%Q)
         (Str (js "What does the statute say?")) Demo.withoutMetadata start)
  = Return {| RAGPipeline.rmode := ModeError;
              RAGPipeline.answer := RAGPipeline.errorAnswer;
              RAGPipeline.error :=
                Some (js "Cannot read properties of undefined (reading 'queryTime')");
              RAGPipeline.retrievedChunks := [];
              RAGPipeline.sources := [];
              RAGPipeline.rmetadata := None |}.
Proof. vm_compute. reflexivity. Qed.

(** C1 on the code: a pipeline built from the classes of the repository,
    whose embedder, search and generator all succeed, on the three-chunk
    index.  [PromptBuilder] has no [buildRAGPrompt], so [query] catches a
    [TypeError] and returns the [error] response, not the [rag] one. *)
Theorem C1_query_with_repository_prompt_builder :
  EmbeddingManager.embedText
    (RAGPipeline.embeddingManager (Demo.pipeline [1; 0; 0]%Q))
    (Str (js "What does the statute say?")) = Return [1; 0; 0]%Q
  /\ (exists r others,
        VectorStore.search Demo.host0
          (RAGPipeline.vectorStore (Demo.pipeline [1; 0; 0]%Q))
          [1; 0; 0]%Q 5 VectorStore.no_filters false = Return (r :: others))
  /\ (forall prompt cfg,
        ModelManager.generateResponse
          (RAGPipeline.modelManager (Demo.pipeline [1; 0; 0]%Q)) prompt cfg
        = Return (js " Assistant: yes"))
  /\ fst (RAGPipeline.query Demo.host0 (Demo.pipeline [1; 0; 0]%Q)
            (Str (js "What does the statute say?")) RAGPipeline.no_options
            start)
     = Return {| RAGPipeline.rmode := ModeError;
                 RAGPipeline.answer := RAGPipeline.errorAnswer;
                 RAGPipeline.error :=
                   Some (js "this.promptBuilder.buildRAGPrompt is not a function");
                 RAGPipeline.retrievedChunks := [];
                 RAGPipeline.sources := [];
                 RAGPipeline.rmetadata := None |}.
Proof.
  split; [reflexivity|]. split; [|split; [reflexivity|]].
  - eexists _, _. vm_compute. reflexivity.
  - eapply query_without_buildRAGPrompt;
      [reflexivity | vm_compute; reflexivity | reflexivity].
Qed.

(** ** Prompt builder: the chat history *)

(** The loop drops a front part of the formatted messages, never all of
    them, and stops as soon as the count fits or one message is left. *)
Lemma truncateOldest_suffix (tokenCounter : jsstring -> Z) (maxTokens : Z)
    (formatted : list jsstring) :
  formatted <> [] ->
  exists k : nat,
    (k < length formatted)%nat
    /\ PromptBuilder.truncateOldest tokenCounter maxTokens formatted
       = join [LF] (drop k formatted)
    /\ (tokenCounter (join [LF] (drop k formatted)) <= maxTokens
        \/ k = (length formatted - 1)%nat).
Proof.
  induction formatted as [|m rest IH]; [congruence|]. intros _.
  destruct rest as [|m' rest'].
  - exists 0%nat. simpl. split; [lia|]. split; [reflexivity | now right].
  - cbn [PromptBuilder.truncateOldest].
    destruct (Z.ltb_spec maxTokens (tokenCounter (join [LF] (m :: m' :: rest')))).
    + destruct IH as (k & Hk & Heq & Hfit); [discriminate|].
      exists (S k). cbn [drop length] in *.
      split; [lia|]. split; [exact Heq|].
      destruct Hfit as [Hfit | ->]; [now left | right; lia].
    + exists 0%nat. cbn [drop length]. split; [lia|].
      split; [reflexivity | now left].
Qed.

(** C8: for a non-empty message list and any token counter, the history
    that [buildPrompt] formats with the default context of 512 tokens is the
    join of the formatted messages without their first [k], for some [k]
    smaller than the number of messages; the last formatted message is
    always part of it; and either the history counts at most 412 tokens or
    it is the last message alone. *)
Theorem C8_history_is_recent_suffix
    (messages : list PromptBuilder.message) (newMessage : jsstring)
    (tokenCounter : jsstring -> Z) :
  messages <> [] ->
  let formatted := List.map PromptBuilder.formatMessage messages in
  exists (k : nat) (history : jsstring),
    history
    = PromptBuilder.formatConversationHistory messages
        (PromptBuilder.maxContextTokens PromptBuilder.new - 100) tokenCounter
    /\ PromptBuilder.buildPrompt PromptBuilder.new messages newMessage
         tokenCounter
       = PromptBuilder.createPrompt history newMessage
    /\ (k < length messages)%nat
    /\ history = join [LF] (drop k formatted)
    /\ (exists kept last_message,
          drop k formatted = kept ++ [PromptBuilder.formatMessage last_message]
          /\ last messages = Some last_message)
    /\ (tokenCounter history <= 512 - 100
        \/ (exists last_message,
              last messages = Some last_message
              /\ history = PromptBuilder.formatMessage last_message)).
Proof.
  intros Hne formatted.
  destruct (truncateOldest_suffix tokenCounter (512 - 100) formatted)
    as (k & Hk & Heq & Hfit).
  { subst formatted. destruct messages; [congruence | discriminate]. }
  assert (Hlen : length formatted = length messages)
    by (subst formatted; apply length_map).
  exists k, (join [LF] (drop k formatted)).
  assert (Hhist : join [LF] (drop k formatted)
    = PromptBuilder.formatConversationHistory messages
        (PromptBuilder.maxContextTokens PromptBuilder.new - 100) tokenCounter).
  { unfold PromptBuilder.formatConversationHistory.
    destruct messages; [congruence|]. symmetry. exact Heq. }
  destruct (exists_last Hne) as (front & last_message & Hsplit).
  assert (Hlast : last messages = Some last_message)
    by (rewrite Hsplit; apply last_snoc).
  assert (Hfront : length messages = S (length front)).
  { rewrite Hsplit, length_app. simpl. lia. }
  assert (Hdrop : drop k formatted
    = drop k (List.map PromptBuilder.formatMessage front)
        ++ [PromptBuilder.formatMessage last_message]).
  { subst formatted. rewrite Hsplit, map_app. simpl.
    rewrite drop_app_le; [reflexivity|]. rewrite length_map. lia. }
  split; [exact Hhist|]. split.
  { unfold PromptBuilder.buildPrompt. now rewrite <- Hhist. }
  split; [lia|]. split; [reflexivity|]. split.
  { eexists _, last_message. split; [exact Hdrop | exact Hlast]. }
  destruct Hfit as [Hfit | ->]; [now left | right].
  exists last_message. split; [exact Hlast|].
  rewrite Hdrop. rewrite drop_ge; [reflexivity|].
  rewrite length_map. lia.
Qed.

(** ** RAG pipeline: source attribution *)

Lemma filter_filter_and {A} (f g : A -> bool) (l : list A) :
  List.filter f (List.filter g l) = List.filter (fun x => f x && g x) l.
Proof.
  induction l as [|x t IH]; simpl; [reflexivity|].
  destruct (g x); simpl; rewrite ?andb_true_r, ?andb_false_r;
    [destruct (f x); now rewrite IH | exact IH].
Qed.

(** The loop of [extractSources], started with a set of seen documents and
    the sources found so far. *)
Lemma extractSources_loop (dm : DocumentManager.t)
    (chunks : list VectorStore.scored_chunk) (seen : gset (option jsstring))
    (acc : list RAGPipeline.source) :
  snd (fold_left (RAGPipeline.sourceStep dm) chunks (seen, acc))
  = acc ++ omap (Spec.resolve dm)
             (List.filter (fun x => bool_decide (Spec.documentOf x ∉ seen))
                (Spec.firstPerDocument chunks)).
Proof.
  revert seen acc. induction chunks as [|sc rest IH]; intros seen acc.
  - simpl. now rewrite app_nil_r.
  - cbn [fold_left Spec.firstPerDocument List.filter].
    unfold RAGPipeline.sourceStep at 2. fold (Spec.documentOf sc).
    rewrite filter_filter_and.
    destruct (decide (Spec.documentOf sc ∈ seen)) as [Hin | Hnew].
    + rewrite bool_decide_eq_false_2 by (intros Hn; now apply Hn).
      rewrite IH. f_equal. f_equal. apply List.filter_ext. intros x.
      destruct (bool_decide_reflect (Spec.documentOf x ∉ seen))
        as [Hx | _]; [|reflexivity].
      rewrite bool_decide_eq_false_2; [reflexivity | congruence].
    + rewrite bool_decide_eq_true_2 by exact Hnew.
      assert (Hfilter :
        List.filter
          (fun x => bool_decide (Spec.documentOf x ∉ seen ∪ {[Spec.documentOf sc]}))
          (Spec.firstPerDocument rest)
        = List.filter
            (fun x => bool_decide (Spec.documentOf x ∉ seen)
                      && negb (bool_decide
                                 (Spec.documentOf x = Spec.documentOf sc)))
            (Spec.firstPerDocument rest)).
      { apply List.filter_ext. intros x.
        destruct (bool_decide_reflect (Spec.documentOf x ∉ seen)) as [Hx | Hx];
          destruct (bool_decide_reflect (Spec.documentOf x = Spec.documentOf sc))
            as [He | He]; simpl;
          [ apply bool_decide_eq_false_2 | apply bool_decide_eq_true_2
          | apply bool_decide_eq_false_2 | apply bool_decide_eq_false_2 ];
          rewrite not_elem_of_union, not_elem_of_singleton; tauto. }
      cbn [omap list_omap].
      assert (Hres : Spec.resolve dm sc
                = (RAGPipeline.sourceEntry dm sc
                   <$> RAGPipeline.documentFor dm sc))
        by reflexivity.
      destruct (RAGPipeline.documentFor dm sc)
        as [doc|]; cbn in Hres; rewrite Hres, IH, Hfilter;
        [now rewrite <- app_assoc | reflexivity].
Qed.

Lemma firstPerDocument_In (chunks : list VectorStore.scored_chunk) x :
  In x (Spec.firstPerDocument chunks) -> In x chunks.
Proof.
  induction chunks as [|sc rest IH]; simpl; [tauto|].
  intros [-> | Hin]; [now left | right].
  apply List.filter_In in Hin. now apply IH.
Qed.

Lemma firstPerDocument_covers (chunks : list VectorStore.scored_chunk) x :
  In x chunks ->
  exists y, In y (Spec.firstPerDocument chunks)
            /\ Spec.documentOf y = Spec.documentOf x.
Proof.
  induction chunks as [|sc rest IH]; simpl; [tauto|].
  intros [-> | Hin]; [exists x; split; [now left | reflexivity]|].
  destruct (IH Hin) as (y & Hy & Hid).
  destruct (decide (Spec.documentOf y = Spec.documentOf sc)) as [He | Hne].
  - exists sc. split; [now left | congruence].
  - exists y. split; [|exact Hid]. right. apply List.filter_In.
    split; [exact Hy|]. now rewrite bool_decide_eq_false_2.
Qed.

Lemma firstPerDocument_NoDup (chunks : list VectorStore.scored_chunk) :
  List.NoDup (List.map Spec.documentOf (Spec.firstPerDocument chunks)).
Proof.
  induction chunks as [|sc rest IH]; simpl; [constructor|].
  constructor.
  - rewrite List.in_map_iff. intros (x & Hid & Hin).
    apply List.filter_In in Hin. destruct Hin as [_ Hne].
    rewrite bool_decide_eq_true_2 in Hne by exact Hid.
    discriminate.
  - induction (Spec.firstPerDocument rest) as [|y l IHl]; simpl; [constructor|].
    inversion_clear IH as [|? ? Hy Hl].
    destruct (negb _); simpl; [|now apply IHl].
    constructor; [|now apply IHl].
    rewrite List.in_map_iff. intros (x & Hid & Hin).
    apply List.filter_In in Hin. apply Hy. rewrite List.in_map_iff.
    exists x. tauto.
Qed.


(** Chunks of documents A, B, A against a catalog that knows A only: the
    sources hold A once, and B, unknown to the catalog, is left out. *)
Example extractSources_skips_unknown_document :
  List.map RAGPipeline.s_document_id
    (RAGPipeline.extractSources Demo.catalogA Demo.retrievedABA) = [js "A"]
  /\ List.map Spec.documentOf (Spec.firstPerDocument Demo.retrievedABA)
     = [Some (js "A"); Some (js "B")].
Proof. split; vm_compute; reflexivity. Qed.

(** ** Chunker *)

Lemma tidy_inv (s : jsstring) :
  Spec.tidy s = true ->
  exists c d, head s = Some c /\ last s = Some d
              /\ is_ws c = false /\ is_ws d = false.
Proof.
  unfold Spec.tidy. destruct (head s) as [c|]; [|discriminate].
  destruct (last s) as [d|]; [|discriminate].
  intros H. apply andb_true_iff in H. destruct H as [Hc Hd].
  apply negb_true_iff in Hc, Hd. now exists c, d.
Qed.

Lemma tidy_intro (s : jsstring) c d :
  head s = Some c -> last s = Some d -> is_ws c = false -> is_ws d = false ->
  Spec.tidy s = true.
Proof. unfold Spec.tidy. now intros -> -> -> ->. Qed.

Lemma trimEnd_keeps (s : jsstring) d :
  last s = Some d -> is_ws d = false -> trimEnd s = s.
Proof.
  induction s as [|c t IH]; [reflexivity|]. intros Hlast Hd.
  destruct t as [|c' t'].
  - simpl in *. injection Hlast as ->. now rewrite Hd.
  - rewrite last_cons_cons in Hlast.
    change (trimEnd (c :: c' :: t'))
      with (match trimEnd (c' :: t') with
            | [] => if is_ws c then [] else [c]
            | t'' => c :: t''
            end).
    now rewrite (IH Hlast Hd).
Qed.

Lemma tidy_trim (s : jsstring) : Spec.tidy s = true -> trim s = s.
Proof.
  intros H. destruct (tidy_inv s H) as (c & d & Hc & Hd & Hwc & Hwd).
  unfold trim. destruct s as [|c0 t]; [discriminate|].
  simpl in Hc. injection Hc as ->. simpl. rewrite Hwc.
  now apply (trimEnd_keeps (c :: t) d).
Qed.

Lemma trimStart_head (s : jsstring) c :
  head (trimStart s) = Some c -> is_ws c = false.
Proof.
  induction s as [|c0 t IH]; simpl; [discriminate|].
  destruct (is_ws c0) eqn:E; [exact IH|]. simpl. now intros [= <-].
Qed.

Lemma trimEnd_head (s : jsstring) : trimEnd s <> [] -> head (trimEnd s) = head s.
Proof.
  destruct s as [|c t]; simpl; [congruence|].
  destruct (trimEnd t); [destruct (is_ws c); [congruence|]|]; reflexivity.
Qed.

Lemma trimEnd_last (s : jsstring) d :
  last (trimEnd s) = Some d -> is_ws d = false.
Proof.
  induction s as [|c t IH]; simpl; [discriminate|].
  destruct (trimEnd t) as [|c' t'] eqn:E.
  - destruct (is_ws c) eqn:Hc; [discriminate|]. simpl. now intros [= <-].
  - rewrite last_cons_cons. exact IH.
Qed.

Lemma trim_tidy (s : jsstring) : trim s <> [] -> Spec.tidy (trim s) = true.
Proof.
  intros Hne. unfold trim in *.
  destruct (head (trimEnd (trimStart s))) as [c|] eqn:Hc.
  2: { destruct (trimEnd (trimStart s)); [congruence | discriminate]. }
  destruct (last (trimEnd (trimStart s))) as [d|] eqn:Hd.
  2: { apply last_None in Hd. congruence. }
  apply (tidy_intro _ c d Hc Hd).
  - rewrite trimEnd_head in Hc by exact Hne. now apply trimStart_head in Hc.
  - now apply trimEnd_last in Hd.
Qed.

(** Every sentence handed to [createChunks] by [chunkDocument] is tidy. *)
Lemma splitIntoSentences_tidy (text : jsstring) :
  forallb Spec.tidy (TextChunker.splitIntoSentences text) = true.
Proof.
  unfold TextChunker.splitIntoSentences.
  induction (split_sentences_from false false text) as [|p ps IH];
    [reflexivity|].
  simpl. destruct (trim p) as [|c t] eqn:E; simpl; [exact IH|].
  rewrite IH, andb_true_r. rewrite <- E. apply trim_tidy. congruence.
Qed.

Lemma split_ws_from_cons (b : bool) (s : jsstring) :
  exists w ws, split_ws_from b s = w :: ws.
Proof.
  revert b. induction s as [|c t IH]; intros b; simpl; [eauto|].
  destruct (is_ws c); [destruct b; eauto|].
  destruct (IH false) as (w & ws & ->). eauto.
Qed.

Lemma split_ws_from_no_ws (b : bool) (s : jsstring) :
  Forall (Forall (fun c => is_ws c = false)) (split_ws_from b s).
Proof.
  revert b. induction s as [|c t IH]; intros b; simpl.
  - repeat constructor.
  - destruct (is_ws c) eqn:Hc.
    + destruct b; [apply IH | constructor; [constructor | apply IH]].
    + specialize (IH false).
      destruct (split_ws_from false t) as [|w ws]; [repeat constructor; auto|].
      inversion_clear IH. constructor; [now constructor | assumption].
Qed.

(** The tokens joined by single spaces are the text with every whitespace
    run collapsed. *)
Lemma join_split_ws_from (b : bool) (s : jsstring) :
  join [SPACE] (split_ws_from b s) = replace_ws_runs b s.
Proof.
  revert b. induction s as [|c t IH]; intros b; simpl; [reflexivity|].
  destruct (is_ws c).
  - destruct b; [apply IH|]. rewrite <- (IH true).
    destruct (split_ws_from_cons true t) as (w & ws & ->). reflexivity.
  - rewrite <- (IH false).
    destruct (split_ws_from_cons false t) as (w & ws & ->).
    destruct ws; reflexivity.
Qed.

(** In a text that ends with a non-whitespace code unit only the first
    piece can be empty, and only when the text starts with whitespace. *)
Lemma split_ws_from_nonempty (s : jsstring) (b : bool) d :
  last s = Some d -> is_ws d = false ->
  Forall (fun w => w <> []) (tail (split_ws_from b s))
  /\ ((b = true \/ exists c, head s = Some c /\ is_ws c = false) ->
      exists w ws, split_ws_from b s = w :: ws /\ w <> []).
Proof.
  revert b. induction s as [|c t IH]; intros b Hlast Hd; [discriminate|].
  destruct t as [|c' t'].
  - simpl in Hlast. injection Hlast as ->. simpl. rewrite Hd. simpl.
    split; [constructor | eauto].
  - rewrite last_cons_cons in Hlast.
    change (split_ws_from b (c :: c' :: t'))
      with (if is_ws c
            then (if b then split_ws_from true (c' :: t')
                  else [] :: split_ws_from true (c' :: t'))
            else match split_ws_from false (c' :: t') with
                 | w :: ws => (c :: w) :: ws
                 | [] => [[c]]
                 end).
    destruct (is_ws c) eqn:Hc.
    + destruct (IH true Hlast Hd) as [Htail Hhead].
      destruct Hhead as (w & ws & Heq & Hw); [now left|].
      rewrite Heq in Htail |- *. cbn [tail] in Htail.
      destruct b; cbn [tail].
      * split; [exact Htail | eauto].
      * split; [now constructor|].
        intros [? | (c0 & [= <-] & Hc0)]; congruence.
    + destruct (IH false Hlast Hd) as [Htail _].
      destruct (split_ws_from_cons false (c' :: t')) as (w & ws & Heq).
      rewrite Heq in Htail |- *. cbn [tail] in Htail |- *.
      split; [exact Htail|].
      intros _. exists (c :: w), ws. split; [reflexivity | discriminate].
Qed.

Lemma split_ws_words (s : jsstring) :
  Spec.tidy s = true -> Forall Spec.isWord (split_ws s).
Proof.
  intros H. destruct (tidy_inv s H) as (c & d & Hc & Hd & Hwc & Hwd).
  destruct (split_ws_from_nonempty s false d Hd Hwd) as [Htail Hhead].
  destruct Hhead as (w & ws & Heq & Hw); [right; eauto|].
  pose proof (split_ws_from_no_ws false s) as Hno.
  unfold split_ws. rewrite Heq in *. simpl in Htail.
  assert (Hne : Forall (fun w => w <> []) (w :: ws)) by now constructor.
  clear - Hne Hno. induction Hne as [|x l Hx _ IH]; [constructor|].
  inversion_clear Hno. constructor; [now split | now apply IH].
Qed.

Lemma tidy_app (a b : jsstring) :
  Spec.tidy a = true -> Spec.tidy b = true ->
  Spec.tidy (a ++ [SPACE] ++ b) = true.
Proof.
  intros Ha Hb.
  destruct (tidy_inv a Ha) as (c & _ & Hc & _ & Hwc & _).
  destruct (tidy_inv b Hb) as (_ & d & _ & Hd & _ & Hwd).
  apply (tidy_intro _ c d); [| |exact Hwc | exact Hwd].
  - destruct a; [discriminate | exact Hc].
  - rewrite !last_app, Hd. reflexivity.
Qed.

Lemma word_tidy (w : jsstring) : Spec.isWord w -> Spec.tidy w = true.
Proof.
  intros [Hne Hall].
  destruct w as [|c t]; [congruence|].
  destruct (last (c :: t)) as [d|] eqn:Hd;
    [|apply last_None in Hd; discriminate].
  apply (tidy_intro _ c d); [reflexivity | exact Hd | |].
  - now inversion_clear Hall.
  - rewrite Forall_forall in Hall. apply Hall.
    apply last_Some in Hd. destruct Hd as [l' ->]. set_solver.
Qed.

Lemma join_words_tidy (ws : list jsstring) :
  ws <> [] -> Forall Spec.isWord ws -> Spec.tidy (join [SPACE] ws) = true.
Proof.
  intros Hne Hall. induction Hall as [|w rest Hw Hrest IH]; [congruence|].
  destruct rest as [|w' rest'].
  - simpl. now apply word_tidy.
  - change (join [SPACE] (w :: w' :: rest'))
      with (w ++ [SPACE] ++ join [SPACE] (w' :: rest')).
    apply tidy_app; [now apply word_tidy | apply IH; discriminate].
Qed.

Lemma slice_from_last {A} (l : list A) (n : Z) :
  1 <= n <= Z.of_nat (length l) ->
  slice_from l (- n) = Spec.lastN (Z.to_nat n) l.
Proof.
  intros Hn. unfold slice_from, slice, slice_index, Spec.lastN.
  destruct (Z.ltb_spec (- n) 0); [|lia].
  destruct (Z.ltb_spec (Z.of_nat (length l)) 0); [lia|].
  rewrite Z.max_l, Z.min_id by lia.
  replace (Z.to_nat (Z.of_nat (length l) + - n))
    with (length l - Z.to_nat n)%nat by lia.
  apply firstn_all2. rewrite length_drop. lia.
Qed.

(** The overlap of a tidy segment: its last [min(tokens, word count)]
    tokens, joined by single spaces. *)
Lemma getOverlapText_tidy (text : jsstring) (tokens : Z) :
  Spec.tidy text = true -> 1 <= tokens ->
  let words := split_ws text in
  let tail :=
    Spec.lastN (Z.to_nat (Z.min tokens (Z.of_nat (length words)))) words in
  TextChunker.getOverlapText text tokens = join [SPACE] tail
  /\ tail <> [] /\ Forall Spec.isWord tail.
Proof.
  intros Htidy Htok words tail.
  pose proof (split_ws_words text Htidy) as Hwords. fold words in Hwords.
  assert (Hlen : (1 <= length words)%nat).
  { unfold words, split_ws.
    destruct (split_ws_from_cons false text) as (w & ws & ->). simpl. lia. }
  unfold TextChunker.getOverlapText. fold words.
  destruct (Z.leb_spec (Z.min tokens (Z.of_nat (length words))) 0); [lia|].
  rewrite slice_from_last by lia. fold tail. split; [reflexivity|].
  split.
  - unfold tail, Spec.lastN. intros Hnil.
    apply (f_equal length) in Hnil. rewrite length_drop in Hnil.
    simpl in Hnil. lia.
  - unfold tail, Spec.lastN. now apply Forall_drop.
Qed.

Lemma nonempty_tidy (s : jsstring) :
  Spec.tidy s = true -> TextChunker.nonempty s = true.
Proof. destruct s; [discriminate | reflexivity]. Qed.

(** The segment under construction is empty or tidy, as long as the
    sentences are. *)
Lemma step_tidy (doc : Document.t) (st : TextChunker.state) (s : jsstring) :
  TextChunker.currentChunk st = []
  \/ Spec.tidy (TextChunker.currentChunk st) = true ->
  Spec.tidy s = true ->
  Spec.tidy (TextChunker.currentChunk (TextChunker.step doc st s)) = true.
Proof.
  intros Hcur Hs. unfold TextChunker.step.
  destruct Hcur as [Hcur | Hcur].
  - rewrite Hcur. simpl. rewrite andb_false_r. exact Hs.
  - rewrite (nonempty_tidy _ Hcur), andb_true_r.
    destruct (_ <? _); cbn [TextChunker.currentChunk].
    + destruct (getOverlapText_tidy (TextChunker.currentChunk st)
                  TextChunker.OVERLAP_TOKENS Hcur) as (-> & Hne & Hwords);
        [unfold TextChunker.OVERLAP_TOKENS; lia|].
      pose proof (join_words_tidy _ Hne Hwords) as Htail.
      rewrite (nonempty_tidy _ Htail). now apply tidy_app.
    + now apply tidy_app.
Qed.

Lemma fold_step_tidy (doc : Document.t) (sentences : list jsstring)
    (st : TextChunker.state) :
  forallb Spec.tidy sentences = true ->
  TextChunker.currentChunk st = []
  \/ Spec.tidy (TextChunker.currentChunk st) = true ->
  let st' := fold_left (TextChunker.step doc) sentences st in
  TextChunker.currentChunk st' = []
  \/ Spec.tidy (TextChunker.currentChunk st') = true.
Proof.
  revert st. induction sentences as [|s rest IH]; intros st Hall Hst;
    [exact Hst|].
  simpl in Hall. apply andb_true_iff in Hall. destruct Hall as [Hs Hrest].
  simpl. apply IH; [exact Hrest|]. right. now apply step_tidy.
Qed.

(** C7: let the chunker have read the tidy sentences [pre], and let the
    next sentence [s] overflow the non-empty current segment (the running
    count plus the estimate of [s] exceeds 250).  Then the current segment
    is emitted as it stands, with the running count and the current index;
    the new segment is the last [min(50, word count)] whitespace-separated
    tokens of the emitted segment, joined by single spaces, then a space
    and [s]; the running count becomes the estimate of the new segment; and
    the index grows by one. *)
Theorem C7_overflow_seeds_next_segment
    (doc : Document.t) (pre : list jsstring) (s : jsstring) :
  forallb Spec.tidy pre = true ->
  Spec.tidy s = true ->
  let st := TextChunker.run doc pre in
  TextChunker.currentChunk st <> [] ->
  TextChunker.TARGET_TOKENS
    < TextChunker.currentTokens st + TextChunker.estimateTokens s ->
  let st' := TextChunker.run doc (pre ++ [s]) in
  let words := split_ws (TextChunker.currentChunk st) in
  let overlap :=
    Spec.lastN
      (Z.to_nat (Z.min TextChunker.OVERLAP_TOKENS (Z.of_nat (length words))))
      words in
  TextChunker.chunks st'
  = TextChunker.chunks st
      ++ [TextChunker.createChunkObject (TextChunker.currentChunk st) doc
            (TextChunker.chunkIndex st) (TextChunker.currentTokens st)]
  /\ Forall Spec.isWord words
  /\ join [SPACE] words = replace_ws_runs false (TextChunker.currentChunk st)
  /\ TextChunker.currentChunk st' = join [SPACE] overlap ++ [SPACE] ++ s
  /\ TextChunker.currentTokens st'
     = TextChunker.estimateTokens (TextChunker.currentChunk st')
  /\ TextChunker.chunkIndex st' = TextChunker.chunkIndex st + 1.
Proof.
  intros Hpre Hs st Hcur Hover st' words overlap.
  assert (Htidy : Spec.tidy (TextChunker.currentChunk st) = true).
  { destruct (fold_step_tidy doc pre TextChunker.initial Hpre) as [H | H];
      [now left | contradiction | exact H]. }
  destruct (getOverlapText_tidy (TextChunker.currentChunk st)
              TextChunker.OVERLAP_TOKENS Htidy) as (Hov & Hne & Hwords);
    [unfold TextChunker.OVERLAP_TOKENS; lia|].
  fold words in Hov, Hne, Hwords. fold overlap in Hov, Hne, Hwords.
  assert (Hstep : st' = TextChunker.step doc st s).
  { unfold st', st, TextChunker.run. now rewrite fold_left_app. }
  rewrite Hstep. unfold TextChunker.step.
  apply Z.ltb_lt in Hover. rewrite Hover, (nonempty_tidy _ Htidy).
  cbn [andb TextChunker.chunks TextChunker.currentChunk
       TextChunker.currentTokens TextChunker.chunkIndex].
  rewrite (tidy_trim _ Htidy), Hov.
  rewrite (nonempty_tidy _ (join_words_tidy _ Hne Hwords)).
  split; [reflexivity|]. split; [now apply split_ws_words|].
  split; [apply join_split_ws_from|]. repeat split.
Qed.

(** C7 on two sentences of 175 words and 200 estimated tokens each: the
    first is emitted alone, and the new segment starts with its last 50
    words. *)
Lemma C7_overflow_seeds_next_segment_witness :
  List.map Chunk.text (TextChunker.chunks Demo.afterTwoSentences)
  = [Demo.sentence "abc" 175]
  /\ TextChunker.currentChunk Demo.afterTwoSentences
     = Demo.sentence "abc" 50 ++ [SPACE] ++ Demo.sentence "xyz" 175
  /\ TextChunker.chunkIndex Demo.afterTwoSentences = 1.
Proof.
  destruct (C7_overflow_seeds_next_segment Demo.docA
              [Demo.sentence "abc" 175] (Demo.sentence "xyz" 175))
    as (Hchunks & _ & _ & Hcur & _ & Hidx);
    [ vm_compute; reflexivity | vm_compute; reflexivity
    | vm_compute; discriminate | vm_compute; reflexivity |].
  unfold Demo.afterTwoSentences. rewrite Hchunks, Hcur, Hidx.
  split; [|split]; vm_compute; reflexivity.
Defined.

(** C8 on a conversation of three messages that is over the budget
    whatever is dropped: the history is the last message. *)
Lemma C8_history_is_recent_suffix_witness :
  exists history,
    PromptBuilder.buildPrompt PromptBuilder.new Demo.chat (js "And fees?")
      Demo.greedyCounter
    = PromptBuilder.createPrompt history (js "And fees?")
    /\ history = js "User: Rules?".
Proof.
  destruct (C8_history_is_recent_suffix Demo.chat (js "And fees?")
              Demo.greedyCounter)
    as (k & history & Hhist & Hprompt & _); [discriminate|].
  exists history. split; [exact Hprompt|].
  rewrite Hhist. vm_compute. reflexivity.
Defined.



(* ===================================================================== *)
(** * Further properties *)
(* ===================================================================== *)

(** ** Extractor: the normal form of [cleanText] *)

Lemma trim_idempotent (s : jsstring) : trim (trim s) = trim s.
Proof.
  destruct (trim s) as [|c t] eqn:E; [reflexivity|].
  rewrite <- E. apply tidy_trim, trim_tidy. congruence.
Qed.

Lemma singleSpaced_weaken (s : jsstring) :
  Spec.singleSpaced true s = true -> Spec.singleSpaced false s = true.
Proof.
  destruct s as [|c t]; simpl; [reflexivity|].
  destruct (is_ws c); [|tauto]. intros H.
  apply andb_true_iff in H. destruct H as [H _].
  apply andb_true_iff in H. destruct H as [_ H]. discriminate.
Qed.

Lemma replace_ws_runs_singleSpaced (b : bool) (s : jsstring) :
  Spec.singleSpaced b (replace_ws_runs b s) = true.
Proof.
  revert b. induction s as [|c t IH]; intros b; simpl; [reflexivity|].
  destruct (is_ws c) eqn:Hc.
  - destruct b; [apply IH|]. simpl. apply IH.
  - simpl. rewrite Hc. apply IH.
Qed.

Lemma replace_ws_runs_fixed (b : bool) (s : jsstring) :
  Spec.singleSpaced b s = true -> replace_ws_runs b s = s.
Proof.
  revert b. induction s as [|c t IH]; intros b; simpl; [reflexivity|].
  destruct (is_ws c).
  - intros H. apply andb_true_iff in H. destruct H as [H Ht].
    apply andb_true_iff in H. destruct H as [Hc Hb].
    apply N.eqb_eq in Hc. subst c. destruct b; [discriminate|].
    now rewrite IH.
  - intros H. now rewrite IH.
Qed.

Lemma trimStart_singleSpaced (s : jsstring) :
  Spec.singleSpaced false s = true ->
  Spec.singleSpaced false (trimStart s) = true.
Proof.
  induction s as [|c t IH]; [reflexivity|]. intros H.
  cbn [trimStart]. destruct (is_ws c) eqn:Hc; [|exact H].
  apply IH, singleSpaced_weaken. simpl in H. rewrite Hc in H.
  apply andb_true_iff in H. tauto.
Qed.

Lemma trimEnd_singleSpaced (b : bool) (s : jsstring) :
  Spec.singleSpaced b s = true -> Spec.singleSpaced b (trimEnd s) = true.
Proof.
  revert b. induction s as [|c t IH]; intros b; [reflexivity|].
  cbn [trimEnd Spec.singleSpaced].
  destruct (is_ws c) eqn:Hc.
  - intros H. apply andb_true_iff in H. destruct H as [H Ht].
    specialize (IH true Ht). destruct (trimEnd t); [reflexivity|].
    cbn [Spec.singleSpaced]. rewrite Hc, H. exact IH.
  - intros H. specialize (IH false H). destruct (trimEnd t).
    + simpl. now rewrite Hc.
    + cbn [Spec.singleSpaced]. rewrite Hc. exact IH.
Qed.

(** X1: the output of [cleanText] holds no whitespace but single spaces,
    is empty or starts and ends with a code unit that is not whitespace,
    and is left as it is by a second [cleanText]. *)
Theorem cleanText_normal_form (text : jsstring) :
  let cleaned := TextExtractor.cleanText text in
  Spec.singleSpaced false cleaned = true
  /\ (cleaned = [] \/ Spec.tidy cleaned = true)
  /\ TextExtractor.cleanText cleaned = cleaned.
Proof.
  assert (Hstep : forall x,
    TextExtractor.cleanText x = trim (replace_ws_runs false x)).
  { intros x. unfold TextExtractor.cleanText.
    now rewrite replace_newline_runs_id by apply replace_ws_runs_no_LF. }
  intros cleaned. subst cleaned. rewrite !Hstep.
  assert (Hss : Spec.singleSpaced false (trim (replace_ws_runs false text))
                = true).
  { apply trimEnd_singleSpaced, trimStart_singleSpaced,
      replace_ws_runs_singleSpaced. }
  split; [exact Hss|]. split.
  - destruct (trim (replace_ws_runs false text)) eqn:E; [now left | right].
    rewrite <- E. apply trim_tidy. congruence.
  - rewrite (replace_ws_runs_fixed _ _ Hss). apply trim_idempotent.
Qed.

(** ** Downloader *)

Lemma underscore_ws_runs_safe (b : bool) (s : jsstring) :
  Forall (fun c => DocumentDownloader.is_unsafe c = false) s ->
  Forall (fun c => Spec.filenameSafe c = true)
    (DocumentDownloader.underscore_ws_runs b s).
Proof.
  intros H. revert b. induction H as [|c t Hc _ IH]; intros b; simpl;
    [constructor|].
  destruct (is_ws c) eqn:Hw.
  - destruct b; [apply IH | constructor; [reflexivity | apply IH]].
  - constructor; [|apply IH]. unfold Spec.filenameSafe. now rewrite Hc, Hw.
Qed.

Lemma replace_unsafe_safe (s : jsstring) :
  Forall (fun c => DocumentDownloader.is_unsafe c = false)
    (DocumentDownloader.replace_unsafe s).
Proof.
  induction s as [|c t IH]; simpl; constructor; [|exact IH].
  destruct (DocumentDownloader.is_unsafe c) eqn:E; [reflexivity | exact E].
Qed.

Lemma sanitize_steps_fixed (s : jsstring) :
  Forall (fun c => Spec.filenameSafe c = true) s ->
  DocumentDownloader.underscore_ws_runs false
    (DocumentDownloader.replace_unsafe s) = s.
Proof.
  induction 1 as [|c t Hc _ IH]; [reflexivity|].
  unfold Spec.filenameSafe in Hc. apply andb_true_iff in Hc.
  destruct Hc as [Hu Hw]. apply negb_true_iff in Hu, Hw.
  simpl. rewrite Hu, Hw. now rewrite IH.
Qed.

(** X2: a sanitized file name has at most 200 code units, none of them
    one of the nine unsafe characters or whitespace, and sanitizing it
    again changes nothing. *)
Theorem sanitizeFilename_safe (name : jsstring) :
  let safe := DocumentDownloader.sanitizeFilename name in
  (length safe <= 200)%nat
  /\ Forall (fun c => DocumentDownloader.is_unsafe c = false
                      /\ is_ws c = false) safe
  /\ DocumentDownloader.sanitizeFilename safe = safe.
Proof.
  intros safe.
  assert (Hsafe : Forall (fun c => Spec.filenameSafe c = true) safe).
  { apply Forall_take, underscore_ws_runs_safe, replace_unsafe_safe. }
  assert (Hlen : (length safe <= 200)%nat).
  { unfold safe, DocumentDownloader.sanitizeFilename.
    rewrite length_take. lia. }
  split; [exact Hlen|]. split.
  - revert Hsafe. apply List.Forall_impl. intros c Hc.
    unfold Spec.filenameSafe in Hc. apply andb_true_iff in Hc.
    destruct Hc as [Hu Hw]. now apply negb_true_iff in Hu, Hw.
  - unfold DocumentDownloader.sanitizeFilename at 1.
    rewrite (sanitize_steps_fixed _ Hsafe). now apply firstn_all2.
Qed.

(** X3: [normalizeUrl] always yields a URL that starts with "http", and
    normalizing a normalized URL changes nothing. *)
Theorem normalizeUrl_absolute (url : jsstring) :
  startsWith (js "http") (DocumentDownloader.normalizeUrl url) = true
  /\ DocumentDownloader.normalizeUrl (DocumentDownloader.normalizeUrl url)
     = DocumentDownloader.normalizeUrl url.
Proof.
  assert (H : startsWith (js "http") (DocumentDownloader.normalizeUrl url)
              = true).
  { unfold DocumentDownloader.normalizeUrl.
    destruct (startsWith (js "http") url) eqn:E; [exact E|].
    destruct (startsWith (js "/") url); reflexivity. }
  split; [exact H|].
  unfold DocumentDownloader.normalizeUrl at 1. now rewrite H.
Qed.

(** ** Embedding driver: batches *)

Lemma slice_window {A} (l : list A) (i k : Z) :
  0 <= i <= Z.of_nat (length l) -> 0 <= k ->
  slice l i (i + k) = take (Z.to_nat k) (drop (Z.to_nat i) l).
Proof.
  intros Hi Hk. unfold slice, slice_index.
  destruct (Z.ltb_spec i 0); [lia|].
  destruct (Z.ltb_spec (i + k) 0); [lia|].
  rewrite (Z.min_l i) by lia.
  destruct (Z.min_spec (i + k) (Z.of_nat (length l))) as [[_ ->] | [Hle ->]].
  - f_equal. lia.
  - rewrite !firstn_all2; [reflexivity | |]; rewrite length_drop; lia.
Qed.

Lemma batchesFrom_partition {A} (array : list A) (batchSize : Z) :
  1 <= batchSize ->
  forall (fuel : nat) (i : Z),
    0 <= i ->
    (length array - Z.to_nat i <= fuel)%nat ->
    exists batches,
      EmbeddingGenerator.batchesFrom fuel array batchSize i = Some batches
      /\ concat batches = drop (Z.to_nat i) array
      /\ Forall (fun b => (1 <= length b)%nat
                          /\ Z.of_nat (length b) <= batchSize) batches
      /\ (forall (n : nat) b,
            batches !! n = Some b -> (S n < length batches)%nat ->
            Z.of_nat (length b) = batchSize).
Proof.
  intros Hsize. induction fuel as [|fuel IH]; intros i Hi Hfuel.
  - exists []. simpl. destruct (Z.ltb_spec i (Z.of_nat (length array))); [lia|].
    split; [reflexivity|]. split; [|split; [constructor | intros n b Hn; now rewrite lookup_nil in Hn]].
    symmetry. apply drop_ge. lia.
  - cbn [EmbeddingGenerator.batchesFrom].
    destruct (Z.ltb_spec i (Z.of_nat (length array))) as [Hlt | Hge].
    + destruct (IH (i + batchSize)) as (rest & -> & Hcat & Hall & Hfull);
        [lia | lia |].
      rewrite slice_window by lia.
      set (b := take (Z.to_nat batchSize) (drop (Z.to_nat i) array)).
      exists (b :: rest). cbn [fmap option_fmap option_map].
      split; [reflexivity|].
      assert (Hb : length b = Nat.min (Z.to_nat batchSize)
                                (length array - Z.to_nat i)).
      { unfold b. now rewrite length_take, length_drop. }
      split; [|split].
      * cbn [concat]. rewrite Hcat. unfold b.
        replace (Z.to_nat (i + batchSize))
          with (Z.to_nat i + Z.to_nat batchSize)%nat by lia.
        rewrite <- drop_drop. apply take_drop.
      * constructor; [lia | exact Hall].
      * intros [|n] b' Hn Hlast; simpl in Hn, Hlast.
        -- injection Hn as <-. destruct rest as [|b2 rest']; [simpl in Hlast; lia|].
           assert (Hnonempty : drop (Z.to_nat (i + batchSize)) array <> []).
           { rewrite <- Hcat. inversion_clear Hall as [|? ? [Hb2 _] _].
             destruct b2; [simpl in Hb2; lia | discriminate]. }
           assert ((Z.to_nat (i + batchSize) < length array)%nat).
           { destruct (Nat.lt_ge_cases (Z.to_nat (i + batchSize)) (length array));
               [assumption|]. now rewrite drop_ge in Hnonempty by lia. }
           lia.
        -- apply (Hfull n b' Hn). lia.
    + exists []. split; [reflexivity|].
      split; [|split; [constructor | intros n b Hn; now rewrite lookup_nil in Hn]].
      symmetry. apply drop_ge. lia.
Qed.

(** X4: for a batch size of at least 1, [createBatches] ends within as many
    iterations as the array has elements, and its batches, laid end to end,
    are the array: every batch is non-empty and no longer than the batch
    size, and every batch but the last has exactly that size. *)
Theorem createBatches_partition {A} (array : list A) (batchSize : Z)
    (fuel : nat) :
  1 <= batchSize ->
  (length array <= fuel)%nat ->
  exists batches,
    EmbeddingGenerator.createBatches fuel array batchSize = Some batches
    /\ concat batches = array
    /\ Forall (fun b => (1 <= length b)%nat
                        /\ Z.of_nat (length b) <= batchSize) batches
    /\ (forall (n : nat) b,
          batches !! n = Some b -> (S n < length batches)%nat ->
          Z.of_nat (length b) = batchSize).
Proof.
  intros Hsize Hfuel.
  destruct (batchesFrom_partition array batchSize Hsize fuel 0)
    as (batches & Heq & Hcat & Hall & Hfull); [lia | simpl; lia |].
  exists batches. repeat split; assumption.
Qed.

(** X4 on 23 elements in batches of 10: sizes 10, 10 and 3. *)
Lemma createBatches_partition_witness :
  exists batches,
    EmbeddingGenerator.createBatches 23 (seq 0 23)
      EmbeddingGenerator.BATCH_SIZE = Some batches
    /\ concat batches = seq 0 23
    /\ List.map (@length nat) batches = [10; 10; 3]%nat.
Proof.
  destruct (createBatches_partition (seq 0 23) EmbeddingGenerator.BATCH_SIZE 23)
    as (batches & Heq & Hcat & _); [vm_compute; discriminate | simpl; lia |].
  exists batches. split; [exact Heq|]. split; [exact Hcat|].
  vm_compute in Heq. injection Heq as <-. reflexivity.
Defined.

(** ** Chunker: the estimator *)

(** X5: the token estimate is the integer [(2 * length + 6) / 7], the
    least integer [t] with [7 * t >= 2 * length]; it is 0 for the empty text
    only and grows with the length. *)
Theorem estimateTokens_closed_form (text : jsstring) :
  let len := Z.of_nat (length text) in
  let t := TextChunker.estimateTokens text in
  t = (2 * len + 6) / 7
  /\ 2 * len <= 7 * t < 2 * len + 7
  /\ (t = 0 <-> text = [])
  /\ (forall other,
        (length text <= length other)%nat ->
        t <= TextChunker.estimateTokens other).
Proof.
  assert (Hform : forall s,
    TextChunker.estimateTokens s = (2 * Z.of_nat (length s) + 6) / 7).
  { intros s. unfold TextChunker.estimateTokens, Qceiling, Qfloor.
    simpl. change (Z.pos (1 * 7)) with 7.
    set (n := Z.of_nat (length s)).
    Z.to_euclidean_division_equations. lia. }
  intros len t. subst t. rewrite Hform. fold len.
  split; [reflexivity|]. split; [|split].
  - Z.to_euclidean_division_equations. lia.
  - split.
    + intros H. destruct text; [reflexivity|]. exfalso.
      subst len. cbn [length] in H. revert H.
      Z.to_euclidean_division_equations. lia.
    + intros ->. reflexivity.
  - intros other Hle. rewrite Hform.
    apply Z.div_le_mono; lia.
Qed.

(** ** Chunker: sentences and chunks *)

(** X6: every sentence that [splitIntoSentences] returns is non-empty and
    is its own trimmed form, and a text of whitespace only has no sentence. *)
Theorem splitIntoSentences_trimmed (text : jsstring) :
  Forall (fun s => s <> [] /\ trim s = s)
    (TextChunker.splitIntoSentences text)
  /\ (forallb is_ws text = true -> TextChunker.splitIntoSentences text = []).
Proof.
  split.
  - pose proof (splitIntoSentences_tidy text) as H.
    rewrite forallb_forall in H. apply List.Forall_forall. intros s Hs.
    specialize (H s Hs). split; [|now apply tidy_trim].
    intros ->. discriminate.
  - intros Hws. unfold TextChunker.splitIntoSentences.
    assert (Hpiece : split_sentences_from false false text = [text]).
    { clear - Hws. induction text as [|c t IH]; [reflexivity|].
      simpl in Hws. apply andb_true_iff in Hws. destruct Hws as [Hc Ht].
      cbn [split_sentences_from]. rewrite Hc. cbn [orb andb].
      replace (is_sentence_end c) with false.
      - now rewrite (IH Ht).
      - symmetry. unfold is_sentence_end, is_ws in *.
        destruct (N.eqb_spec c 46) as [->|]; [discriminate|].
        destruct (N.eqb_spec c 33) as [->|]; [discriminate|].
        destruct (N.eqb_spec c 63) as [->|]; [discriminate|]. reflexivity. }
    rewrite Hpiece. simpl.
    assert (Htrim : trim text = []).
    { unfold trim. replace (trimStart text) with (@nil N); [reflexivity|].
      clear - Hws. induction text as [|c t IH]; [reflexivity|].
      simpl in Hws. apply andb_true_iff in Hws. destruct Hws as [Hc Ht].
      simpl. rewrite Hc. now apply IH. }
    now rewrite Htrim.
Qed.

(** What the loop of [createChunks] keeps true: the chunks emitted so far
    carry the indices 0, 1, ... and the fields of the document, the next
    index is their number, and they are fewer than the sentences read. *)
Lemma fold_step_indices (doc : Document.t) (sentences : list jsstring)
    (st : TextChunker.state) (n : nat) :
  let ok (st : TextChunker.state) (n : nat) :=
    List.map Chunk.chunk_index (TextChunker.chunks st)
    = List.map Z.of_nat (seq 0 (length (TextChunker.chunks st)))
    /\ TextChunker.chunkIndex st = Z.of_nat (length (TextChunker.chunks st))
    /\ Forall (fun c => exists text i tokens,
                 c = TextChunker.createChunkObject text doc i tokens)
         (TextChunker.chunks st)
    /\ (length (TextChunker.chunks st)
        + (if TextChunker.nonempty (TextChunker.currentChunk st)
           then 1 else 0) <= n)%nat in
  ok st n ->
  ok (fold_left (TextChunker.step doc) sentences st) (n + length sentences)%nat.
Proof.
  intros ok. revert st n. induction sentences as [|s rest IH]; intros st n Hst.
  - simpl. now rewrite Nat.add_0_r.
  - cbn [fold_left length].
    replace (n + S (length rest))%nat with (S n + length rest)%nat by lia.
    apply IH. clear IH. destruct Hst as (Hidx & Hnext & Hdoc & Hcount).
    unfold ok, TextChunker.step.
    destruct (_ && _) eqn:Hover;
      cbn [TextChunker.chunks TextChunker.chunkIndex TextChunker.currentChunk].
    + apply andb_true_iff in Hover. destruct Hover as [_ Hcur].
      rewrite Hcur in Hcount.
      rewrite length_app, List.map_app, Hidx, Nat.add_1_r.
      rewrite seq_S, List.map_app. cbn [List.map length Nat.add].
      split; [now rewrite Hnext|]. split; [lia|]. split.
      * apply Forall_app. split; [exact Hdoc|]. constructor; [|constructor].
        eauto.
      * match goal with
        | |- context [if ?b then 1%nat else 0%nat] => destruct b
        end; lia.
    + split; [exact Hidx|]. split; [exact Hnext|]. split; [exact Hdoc|].
      destruct (TextChunker.nonempty (TextChunker.currentChunk st));
        match goal with
        | |- context [if ?b then 1%nat else 0%nat] => destruct b
        end; lia.
Qed.

(** X7: the chunks of a document are numbered 0, 1, 2, ... in the order
    of emission, each carries the document's id, category and language and
    the id [<document id>_chunk_<index>], and there are at most as many
    chunks as sentences. *)
Theorem createChunks_indices (sentences : list jsstring) (doc : Document.t) :
  let chunks := TextChunker.createChunks sentences doc in
  List.map Chunk.chunk_index chunks
  = List.map Z.of_nat (seq 0 (length chunks))
  /\ Forall (fun c =>
               Chunk.document_id c = Document.id doc
               /\ Chunk.category c = Document.category doc
               /\ Chunk.language c = Document.language doc
               /\ Chunk.chunk_id c
                  = Document.id doc ++ js "_chunk_"
                      ++ decimal (Chunk.chunk_index c)) chunks
  /\ (length chunks <= length sentences)%nat.
Proof.
  intros chunks.
  destruct (fold_step_indices doc sentences TextChunker.initial 0)
    as (Hidx & Hnext & Hdoc & Hcount).
  { simpl. repeat split; [constructor | lia]. }
  fold (TextChunker.run doc sentences) in Hidx, Hnext, Hdoc, Hcount.
  assert (Hfields : forall l,
    Forall (fun c => exists text i tokens,
              c = TextChunker.createChunkObject text doc i tokens) l ->
    Forall (fun c =>
              Chunk.document_id c = Document.id doc
              /\ Chunk.category c = Document.category doc
              /\ Chunk.language c = Document.language doc
              /\ Chunk.chunk_id c
                 = Document.id doc ++ js "_chunk_"
                     ++ decimal (Chunk.chunk_index c)) l).
  { intros l. apply List.Forall_impl. intros c (text & i & tokens & ->).
    repeat split. }
  subst chunks. unfold TextChunker.createChunks.
  destruct (TextChunker.nonempty _) eqn:Hcur; cbn [andb].
  2: { split; [exact Hidx|]. split; [now apply Hfields|]. simpl in Hcount. lia. }
  destruct (_ <=? _).
  - rewrite length_app, List.map_app, Hidx, Nat.add_1_r.
    rewrite seq_S, List.map_app. cbn [List.map length Nat.add].
    split; [now rewrite Hnext|]. split; [|simpl in Hcount; lia].
    apply Hfields, Forall_app. split; [exact Hdoc|].
    constructor; [eauto | constructor].
  - split; [exact Hidx|]. split; [now apply Hfields|]. simpl in Hcount. lia.
Qed.

Lemma estimateTokens_nonneg (s : jsstring) : 0 <= TextChunker.estimateTokens s.
Proof.
  unfold TextChunker.estimateTokens, Qceiling, Qfloor. simpl.
  change (Z.pos (1 * 7)) with 7. Z.to_euclidean_division_equations. lia.
Qed.

Lemma totalEstimate_nonneg (sentences : list jsstring) :
  0 <= Spec.totalEstimate sentences.
Proof.
  induction sentences as [|s rest IH]; simpl; [lia|].
  pose proof (estimateTokens_nonneg s). lia.
Qed.

Lemma join_glue (sep a b : jsstring) (rest : list jsstring) :
  join sep ((a ++ sep ++ b) :: rest) = join sep (a :: b :: rest).
Proof.
  destruct rest as [|c rest]; cbn [join]; [reflexivity|].
  now rewrite <- !app_assoc.
Qed.

(** While the running count stays within the target the loop only appends:
    no chunk is emitted and the segment is the sentences joined by spaces. *)
Lemma fold_step_no_overflow (doc : Document.t) (sentences : list jsstring)
    (st : TextChunker.state) :
  Forall (fun s => s <> []) sentences ->
  TextChunker.currentTokens st + Spec.totalEstimate sentences
    <= TextChunker.TARGET_TOKENS ->
  fold_left (TextChunker.step doc) sentences st
  = {| TextChunker.chunks := TextChunker.chunks st;
       TextChunker.currentChunk :=
         match TextChunker.currentChunk st with
         | [] => join [SPACE] sentences
         | cur => join [SPACE] (cur :: sentences)
         end;
       TextChunker.currentTokens :=
         TextChunker.currentTokens st + Spec.totalEstimate sentences;
       TextChunker.chunkIndex := TextChunker.chunkIndex st |}.
Proof.
  intros Hne. revert st. induction Hne as [|s rest Hs _ IH]; intros st Hsum.
  - destruct st as [chunks cur tokens idx]. simpl. rewrite Z.add_0_r.
    now destruct cur.
  - cbn [fold_left].
    change (Spec.totalEstimate (s :: rest))
      with (TextChunker.estimateTokens s + Spec.totalEstimate rest) in *.
    pose proof (totalEstimate_nonneg rest) as Hrest.
    assert (Hstep : TextChunker.step doc st s
      = {| TextChunker.chunks := TextChunker.chunks st;
           TextChunker.currentChunk :=
             TextChunker.currentChunk st
               ++ (if TextChunker.nonempty (TextChunker.currentChunk st)
                   then [SPACE] else []) ++ s;
           TextChunker.currentTokens :=
             TextChunker.currentTokens st + TextChunker.estimateTokens s;
           TextChunker.chunkIndex := TextChunker.chunkIndex st |}).
    { unfold TextChunker.step.
      destruct (Z.ltb_spec TextChunker.TARGET_TOKENS
                  (TextChunker.currentTokens st + TextChunker.estimateTokens s));
        [lia | reflexivity]. }
    rewrite Hstep, IH; cbn [TextChunker.chunks TextChunker.currentChunk
      TextChunker.currentTokens TextChunker.chunkIndex]; [|lia].
    f_equal; [|lia].
    destruct (TextChunker.currentChunk st) as [|c cur] eqn:Hcur.
    + simpl. destruct s as [|c s]; [congruence | reflexivity].
    + cbn [TextChunker.nonempty].
      change ((c :: cur) ++ [SPACE] ++ s) with (c :: (cur ++ [SPACE] ++ s)).
      change (c :: (cur ++ [SPACE] ++ s)) with ((c :: cur) ++ [SPACE] ++ s).
      rewrite <- join_glue. reflexivity.
Qed.

(** X8: a document whose non-empty sentences add up to at most 250
    estimated tokens is never split.  If the sum reaches 100 it becomes one
    chunk, index 0, holding the sentences joined by single spaces and the
    sum as its token count; below 100 it yields no chunk at all. *)
Theorem createChunks_short_document
    (sentences : list jsstring) (doc : Document.t) :
  Forall (fun s => s <> []) sentences ->
  Spec.totalEstimate sentences <= TextChunker.TARGET_TOKENS ->
  TextChunker.createChunks sentences doc
  = if TextChunker.MIN_CHUNK_TOKENS <=? Spec.totalEstimate sentences
    then [TextChunker.createChunkObject (trim (join [SPACE] sentences)) doc 0
            (Spec.totalEstimate sentences)]
    else [].
Proof.
  intros Hne Hsum. unfold TextChunker.createChunks, TextChunker.run.
  rewrite (fold_step_no_overflow doc sentences TextChunker.initial Hne)
    by (simpl; lia).
  cbn [TextChunker.chunks TextChunker.currentChunk TextChunker.currentTokens
       TextChunker.chunkIndex TextChunker.initial]. rewrite Z.add_0_l.
  destruct sentences as [|s rest].
  - reflexivity.
  - assert (Hjoin : TextChunker.nonempty (join [SPACE] (s :: rest)) = true).
    { inversion_clear Hne as [|? ? Hs _].
      destruct s as [|c s]; [congruence|]. now destruct rest. }
    rewrite Hjoin. cbn [andb].
    destruct (_ <=? _); reflexivity.
Qed.

(** X8 on a single sentence of 200 estimated tokens, kept as one chunk, and
    on one of 10 words, dropped. *)
Lemma createChunks_short_document_witness :
  List.map Chunk.text
    (TextChunker.createChunks [Demo.sentence "abc" 175] Demo.docA)
  = [Demo.sentence "abc" 175]
  /\ TextChunker.createChunks [Demo.sentence "abc" 10] Demo.docA = [].
Proof.
  split.
  - rewrite (createChunks_short_document [Demo.sentence "abc" 175] Demo.docA);
      [vm_compute; reflexivity
      | repeat constructor; vm_compute; discriminate
      | vm_compute; discriminate].
  - rewrite (createChunks_short_document [Demo.sentence "abc" 10] Demo.docA);
      [vm_compute; reflexivity
      | repeat constructor; vm_compute; discriminate
      | vm_compute; discriminate].
Defined.

(** ** Prompt builder: truncation and extraction *)

Lemma truncateOldest_least (tokenCounter : jsstring -> Z) (maxTokens : Z)
    (formatted : list jsstring) :
  formatted <> [] ->
  exists k : nat,
    (k < length formatted)%nat
    /\ PromptBuilder.truncateOldest tokenCounter maxTokens formatted
       = join [LF] (drop k formatted)
    /\ forall j : nat,
         (j < k)%nat -> maxTokens < tokenCounter (join [LF] (drop j formatted)).
Proof.
  induction formatted as [|m rest IH]; [congruence|]. intros _.
  destruct rest as [|m' rest'].
  - exists 0%nat. simpl. split; [lia|]. split; [reflexivity | intros; lia].
  - cbn [PromptBuilder.truncateOldest].
    destruct (Z.ltb_spec maxTokens (tokenCounter (join [LF] (m :: m' :: rest'))))
      as [Hover | Hfit].
    + destruct IH as (k & Hk & Heq & Hleast); [discriminate|].
      exists (S k). cbn [drop length] in *. split; [lia|].
      split; [exact Heq|]. intros [|j] Hj; [exact Hover|].
      cbn [drop]. apply Hleast. lia.
    + exists 0%nat. cbn [drop length]. split; [lia|].
      split; [reflexivity | intros; lia].
Qed.

(** X9: the history drops as few messages as possible.  If it starts at
    message [k], every longer suffix of the formatted conversation counts
    more than the limit; in particular a conversation that fits the limit
    is kept whole. *)
Theorem formatConversationHistory_drops_fewest
    (messages : list PromptBuilder.message) (maxTokens : Z)
    (tokenCounter : jsstring -> Z) :
  messages <> [] ->
  let formatted := List.map PromptBuilder.formatMessage messages in
  let history :=
    PromptBuilder.formatConversationHistory messages maxTokens tokenCounter in
  (exists k : nat,
     (k < length messages)%nat
     /\ history = join [LF] (drop k formatted)
     /\ forall j : nat,
          (j < k)%nat ->
          maxTokens < tokenCounter (join [LF] (drop j formatted)))
  /\ (tokenCounter (join [LF] formatted) <= maxTokens ->
      history = join [LF] formatted).
Proof.
  intros Hne formatted history.
  destruct (truncateOldest_least tokenCounter maxTokens formatted)
    as (k & Hk & Heq & Hleast).
  { subst formatted. destruct messages; [congruence | discriminate]. }
  assert (Hhist : history = join [LF] (drop k formatted)).
  { subst history. unfold PromptBuilder.formatConversationHistory.
    destruct messages; [congruence | exact Heq]. }
  split.
  - exists k. split; [|split; [exact Hhist | exact Hleast]].
    subst formatted. now rewrite length_map in Hk.
  - intros Hfit. rewrite Hhist. destruct k as [|k]; [reflexivity|].
    specialize (Hleast 0%nat ltac:(lia)).
    change (drop 0 formatted) with formatted in Hleast. lia.
Qed.

(** X9 on the three-message conversation: under a counter of four code
    units per token it fits the limit of 412 and is kept whole. *)
Lemma formatConversationHistory_drops_fewest_witness :
  PromptBuilder.formatConversationHistory Demo.chat 412
    ModelManager.countTokens
  = join [LF] (List.map PromptBuilder.formatMessage Demo.chat).
Proof.
  destruct (formatConversationHistory_drops_fewest Demo.chat 412
              ModelManager.countTokens) as [_ Hwhole]; [discriminate|].
  apply Hwhole. vm_compute. discriminate.
Defined.

Lemma startsWith_iff (p s : jsstring) :
  startsWith p s = true <-> exists post, s = p ++ post.
Proof.
  revert s. induction p as [|a p IH]; intros s; simpl.
  - split; [eauto | reflexivity].
  - destruct s as [|b s].
    + split; [discriminate | intros [post H]; discriminate].
    + rewrite andb_true_iff, N.eqb_eq, IH. split.
      * intros [-> [post ->]]. eauto.
      * intros [post [= -> ->]]. eauto.
Qed.

Lemma includes_iff (p s : jsstring) :
  includes p s = true <-> exists pre post, s = pre ++ p ++ post.
Proof.
  induction s as [|c t IH]; cbn [includes]; rewrite orb_true_iff, startsWith_iff.
  - split.
    + intros [[post H] | H]; [exists [], post; exact H | discriminate].
    + intros (pre & post & H). left.
      destruct pre; [eauto | discriminate].
  - rewrite IH. split.
    + intros [[post H] | (pre & post & ->)];
        [exists [], post; exact H | exists (c :: pre), post; reflexivity].
    + intros (pre & post & H). destruct pre as [|c' pre].
      * left. eauto.
      * right. injection H as -> ->. eauto.
Qed.

(** A text free of a marker stays free of it in every contiguous part. *)
Lemma includes_part (p a t b : jsstring) :
  includes p (a ++ t ++ b) = false -> includes p t = false.
Proof.
  intros H. destruct (includes p t) eqn:E; [|reflexivity].
  apply includes_iff in E. destruct E as (pre & post & ->).
  assert (includes p (a ++ (pre ++ p ++ post) ++ b) = true); [|congruence].
  apply includes_iff. exists (a ++ pre), (post ++ b).
  now rewrite <- !app_assoc.
Qed.

Lemma trimStart_suffix (s : jsstring) : exists a, s = a ++ trimStart s.
Proof.
  induction s as [|c t [a IH]]; [now exists []|]. simpl.
  destruct (is_ws c); [|now exists []].
  exists (c :: a). simpl. now f_equal.
Qed.

Lemma trimEnd_prefix (s : jsstring) : exists b, s = trimEnd s ++ b.
Proof.
  induction s as [|c t [b IH]]; [now exists []|]. simpl.
  destruct (trimEnd t) as [|c' t'] eqn:E.
  - destruct (is_ws c); [now exists (c :: t) | exists t; reflexivity].
  - exists b. simpl. now f_equal.
Qed.

Lemma includes_trim (p s : jsstring) :
  includes p s = false -> includes p (trim s) = false.
Proof.
  intros H. unfold trim.
  destruct (trimStart_suffix s) as [a Ha].
  destruct (trimEnd_prefix (trimStart s)) as [b Hb].
  apply (includes_part p a _ b). now rewrite <- Hb, <- Ha.
Qed.

Lemma before_first_prefix (p s : jsstring) :
  exists b, s = before_first p s ++ b.
Proof.
  induction s as [|c t [b IH]]; cbn [before_first].
  - destruct (startsWith p []); now exists [].
  - destruct (startsWith p (c :: t)); [now exists (c :: t)|].
    exists b. simpl. now f_equal.
Qed.

Lemma before_first_free (p s : jsstring) :
  p <> [] -> includes p (before_first p s) = false.
Proof.
  intros Hp. induction s as [|c t IH]; cbn [before_first].
  - destruct p; [congruence|]. reflexivity.
  - destruct (startsWith p (c :: t)) eqn:E.
    + destruct p; [congruence | reflexivity].
    + cbn [includes]. rewrite IH, orb_false_r.
      destruct (startsWith p (c :: before_first p t)) eqn:E'; [|reflexivity].
      apply startsWith_iff in E'. destruct E' as [post Hpost].
      destruct (before_first_prefix p t) as [b Hb].
      assert (startsWith p (c :: t) = true); [|congruence].
      apply startsWith_iff. exists (post ++ b).
      rewrite app_assoc, <- Hpost. simpl. now f_equal.
Qed.

Lemma stopAt_free (marker other response : jsstring) :
  marker <> [] ->
  includes marker (PromptBuilder.stopAt marker response) = false
  /\ (includes other response = false ->
      includes other (PromptBuilder.stopAt marker response) = false).
Proof.
  intros Hm. unfold PromptBuilder.stopAt.
  destruct (includes marker response) eqn:E.
  - split.
    + apply includes_trim, before_first_free, Hm.
    + intros H. apply includes_trim.
      destruct (before_first_prefix marker response) as [b Hb].
      apply (includes_part other [] _ b). simpl. now rewrite <- Hb.
  - split; [exact E | tauto].
Qed.

Lemma stripPrefix_free (marker response prefix : jsstring) :
  includes marker response = false ->
  includes marker (PromptBuilder.stripPrefix response prefix) = false.
Proof.
  intros H. unfold PromptBuilder.stripPrefix.
  destruct (startsWith prefix response); [|exact H].
  apply includes_trim.
  apply (includes_part marker (take (length prefix) response) _ []).
  now rewrite app_nil_r, take_drop.
Qed.

Lemma stopAt_trimmed (marker response : jsstring) :
  trim response = response ->
  trim (PromptBuilder.stopAt marker response)
  = PromptBuilder.stopAt marker response.
Proof.
  intros H. unfold PromptBuilder.stopAt.
  destruct (includes marker response); [apply trim_idempotent | exact H].
Qed.

Lemma stripPrefix_trimmed (response prefix : jsstring) :
  trim response = response ->
  trim (PromptBuilder.stripPrefix response prefix)
  = PromptBuilder.stripPrefix response prefix.
Proof.
  intros H. unfold PromptBuilder.stripPrefix.
  destruct (startsWith prefix response); [apply trim_idempotent | exact H].
Qed.

(** X10: the extracted response has no whitespace at either end and
    contains neither a line feed followed by "User:" nor one followed by
    "Assistant:". *)
Theorem extractResponse_clean (generatedText : jsstring) :
  let response := PromptBuilder.extractResponse generatedText in
  trim response = response
  /\ includes (LF :: js "User:") response = false
  /\ includes (LF :: js "Assistant:") response = false.
Proof.
  intros response. subst response. unfold PromptBuilder.extractResponse.
  set (r0 := trim generatedText).
  set (r1 := PromptBuilder.stopAt (LF :: js "User:") r0).
  set (r2 := PromptBuilder.stopAt (LF :: js "Assistant:") r1).
  assert (H0 : trim r0 = r0) by apply trim_idempotent.
  assert (H1 : trim r1 = r1) by now apply stopAt_trimmed.
  assert (H2 : trim r2 = r2) by now apply stopAt_trimmed.
  destruct (stopAt_free (LF :: js "User:") [] r0) as [Hu1 _]; [discriminate|].
  fold r1 in Hu1.
  destruct (stopAt_free (LF :: js "Assistant:") (LF :: js "User:") r1)
    as [Ha2 Hu2]; [discriminate|].
  fold r2 in Ha2, Hu2. specialize (Hu2 Hu1).
  clearbody r2. clear - H2 Ha2 Hu2.
  unfold PromptBuilder.prefixes.
  generalize [js "Assistant:"; js "Bot:"; js "AI:"; js "GPT:"].
  intros prefixes. revert r2 H2 Ha2 Hu2.
  induction prefixes as [|prefix rest IH]; intros r H2 Ha Hu; simpl.
  - now repeat split.
  - apply IH; [now apply stripPrefix_trimmed | |]; now apply stripPrefix_free.
Qed.

(** ** Embedding manager: batches of texts *)

Lemma embedText_accepts (em : EmbeddingManager.t) (text : value) e :
  EmbeddingManager.embedText em text = Return e ->
  Spec.validQuery text = true.
Proof.
  unfold EmbeddingManager.embedText.
  destruct (EmbeddingManager.isLoaded em); [|discriminate].
  destruct (EmbeddingManager.pipeline em); [|discriminate].
  destruct text as [| | | |[|c s]|]; try discriminate. reflexivity.
Qed.

Lemma embedEach_returns (em : EmbeddingManager.t) (texts : list value) es :
  EmbeddingManager.embedEach em texts = Return es ->
  Forall2 (fun text e => EmbeddingManager.embedText em text = Return e)
    texts es.
Proof.
  revert es. induction texts as [|t rest IH]; intros es; simpl.
  - intros [= <-]. constructor.
  - destruct (EmbeddingManager.embedText em t) as [e|] eqn:He; [|discriminate].
    destruct (EmbeddingManager.embedEach em rest) as [es'|]; [|discriminate].
    intros [= <-]. constructor; [exact He | now apply IH].
Qed.

(** X11: when [embedBatch] returns, it returns one vector per text, each
    the embedding of the text at the same position, and every text was a
    non-empty string; a single text that is empty or not a string makes the
    whole batch throw. *)
Theorem embedBatch_all_or_nothing
    (em : EmbeddingManager.t) (texts : list value) :
  (forall es,
     EmbeddingManager.embedBatch em (Some texts) = Return es ->
     Forall2 (fun text e => EmbeddingManager.embedText em text = Return e)
       texts es
     /\ forallb Spec.validQuery texts = true)
  /\ (forallb Spec.validQuery texts = false ->
      exists err, EmbeddingManager.embedBatch em (Some texts) = Throw err).
Proof.
  assert (Hret : forall es,
    EmbeddingManager.embedBatch em (Some texts) = Return es ->
    Forall2 (fun text e => EmbeddingManager.embedText em text = Return e)
      texts es /\ forallb Spec.validQuery texts = true).
  { intros es Hes.
    assert (Hall : Forall2
      (fun text e => EmbeddingManager.embedText em text = Return e) texts es).
    { destruct texts as [|t rest]; [injection Hes as <-; constructor|].
      now apply embedEach_returns. }
    split; [exact Hall|]. clear Hes.
    induction Hall as [|t e ts es' He _ IH]; [reflexivity|].
    simpl. now rewrite (embedText_accepts em t e He). }
  split; [exact Hret|]. intros Hbad.
  destruct (EmbeddingManager.embedBatch em (Some texts)) as [es|err] eqn:E;
    [|eauto].
  destruct (Hret es eq_refl) as [_ Hok]. congruence.
Qed.

(** ** Vector store: more on [search] *)

Lemma slice_elements {A} (l : list A) (start stop : Z) (x : A) :
  In x (slice l start stop) -> In x l.
Proof.
  unfold slice. intros H. apply list_elem_of_In in H.
  apply list_elem_of_In.
  eapply subseteq_drop, subseteq_take, H.
Qed.

(** X12: every result of a search passes the filters that were supplied:
    its category, language and document id are the ones asked for. *)
Theorem search_respects_filters
    (h : host) (vs : VectorStore.t) (q : list Q) (topK : Z)
    (fs : VectorStore.filters) (cos : bool)
    (results : list VectorStore.scored_chunk) :
  VectorStore.search h vs q topK fs cos = Return results ->
  Forall (fun r =>
            (forall a s, VectorStore.f_category fs = Some (a :: s) ->
                         VectorStore.field Chunk.category r = Some (a :: s))
            /\ (forall a s, VectorStore.f_language fs = Some (a :: s) ->
                            VectorStore.field Chunk.language r = Some (a :: s))
            /\ (forall a s, VectorStore.f_document_id fs = Some (a :: s) ->
                            VectorStore.field Chunk.document_id r
                            = Some (a :: s))) results.
Proof.
  intros Hsearch.
  destruct (search_unfold _ _ _ _ _ _ _ Hsearch) as (sims & Hscan & ->).
  destruct (scan_sound _ _ _ _ _ _ _ _ Hscan) as (_ & Hfound & _).
  apply List.Forall_forall. intros r Hr.
  apply List.in_map_iff in Hr as (s & <- & Hs).
  apply slice_elements in Hs.
  apply (Permutation_in _ (sort_Permutation VectorStore.byScoreDesc sims)) in Hs.
  rewrite List.Forall_forall in Hfound.
  destruct (Hfound s Hs) as (_ & _ & _ & Hpass & _).
  unfold VectorStore.field, VectorStore.attach. cbn [VectorStore.stored].
  destruct (VectorStore.chunks vs !! VectorStore.index s) as [c|].
  - cbn [VectorStore.filteredOut] in Hpass. injection Hpass as Hpass.
    apply orb_false_iff in Hpass. destruct Hpass as [Hpass Hdoc].
    apply orb_false_iff in Hpass. destruct Hpass as [Hcat Hlang].
    assert (Hrej : forall wanted actual a s,
      VectorStore.rejects wanted actual = false ->
      wanted = Some (a :: s) -> actual = a :: s).
    { intros wanted actual a t Hr ->. cbn [VectorStore.rejects] in Hr.
      apply negb_false_iff in Hr. unfold str_eqb in Hr.
      now apply bool_decide_eq_true in Hr. }
    cbn [fmap option_fmap option_map].
    repeat split; intros a t Hwanted; f_equal;
      (eapply Hrej; [|exact Hwanted]; assumption).
  - cbn [VectorStore.filteredOut] in Hpass.
    repeat split; intros a t Hwanted; rewrite Hwanted in Hpass;
      cbn [VectorStore.active] in Hpass;
      repeat (destruct (VectorStore.active _)); discriminate.
Qed.

(** X12 on the three-chunk index: a search for document B returns chunks
    of document B only. *)
Lemma search_respects_filters_witness :
  Forall (fun r =>
            (forall a s, None = Some (a :: s) ->
                         VectorStore.field Chunk.category r = Some (a :: s))
            /\ (forall a s, None = Some (a :: s) ->
                            VectorStore.field Chunk.language r = Some (a :: s))
            /\ (forall a s, Some (js "B") = Some (a :: s) ->
                            VectorStore.field Chunk.document_id r
                            = Some (a :: s)))
    [ {| VectorStore.stored :=
           Some (Demo.mkChunk "B_chunk_0" "B" "beta"
                   (VectorStore.PlainArray [0; 1; 0]%Q));
         VectorStore.similarity_score := 0 |} ].
Proof.
  apply (search_respects_filters Demo.host0 Demo.store3 [1; 0; 0]%Q 5
           {| VectorStore.f_category := None; VectorStore.f_language := None;
              VectorStore.f_document_id := Some (js "B") |} false).
  vm_compute. reflexivity.
Defined.

Lemma scan_count (h : host) (vs : VectorStore.t) (q : list Q)
    (fs : VectorStore.filters) (cos : bool) (rest : list (list Q)) (i : nat)
    (sims : list VectorStore.similarity) :
  (i + length rest <= length (VectorStore.chunks vs))%nat ->
  VectorStore.scan h vs q fs cos i rest = Return sims ->
  length sims
  = length (List.filter (Spec.passes fs)
              (take (length rest) (drop i (VectorStore.chunks vs)))).
Proof.
  revert i sims. induction rest as [|e rest IH]; intros i sims Hlen;
    cbn [VectorStore.scan].
  - intros [= <-]. reflexivity.
  - cbn [length] in Hlen.
    destruct (lookup_lt_is_Some_2 (VectorStore.chunks vs) i) as [c Hc];
      [lia|].
    rewrite Hc, filteredOut_present, (drop_S _ _ _ Hc).
    cbn [length take List.filter].
    destruct (Spec.passes fs c); cbn [negb].
    + destruct (if cos then _ else _); [|discriminate].
      destruct (VectorStore.scan h vs q fs cos (S i) rest) as [sims'|] eqn:Hrec;
        [|discriminate].
      intros [= <-]. cbn [length]. f_equal. apply IH; [lia | exact Hrec].
    + apply IH. lia.
Qed.

(** X13: on a consistent store, for a query of the store's dimension and
    [topK >= 0], a search returns exactly [topK] results, or all the chunks
    that pass the filters when these are fewer. *)
Theorem search_result_count
    (h : host) (vs : VectorStore.t) (q : list Q) (topK : Z)
    (fs : VectorStore.filters) (cos : bool) :
  Spec.consistent vs ->
  Z.of_nat (length q) = VectorStore.embeddingDim vs ->
  0 <= topK ->
  exists results,
    VectorStore.search h vs q topK fs cos = Return results
    /\ length results
       = Nat.min (Z.to_nat topK)
           (length (List.filter (Spec.passes fs) (VectorStore.chunks vs))).
Proof.
  intros (Hloaded & Hsame & Hdims) Hq Hk.
  destruct (scan_total h vs (List.map fround q) fs cos
              (VectorStore.embeddings vs) 0) as [sims Hscan].
  { cbn. lia. }
  { revert Hdims. apply List.Forall_impl. intros e He.
    rewrite length_map. lia. }
  assert (Hcover : (0 + length (VectorStore.embeddings vs)
                    <= length (VectorStore.chunks vs))%nat) by (cbn; lia).
  pose proof (scan_count _ _ _ _ _ _ _ _ Hcover Hscan) as Hcount.
  rewrite <- Hsame, drop_0, firstn_all in Hcount.
  eexists. split.
  - unfold VectorStore.search. rewrite Hloaded. cbn [negb]. cbn zeta.
    rewrite length_map, Hq, Z.eqb_refl. cbn [negb].
    rewrite Hscan. reflexivity.
  - rewrite slice_prefix by lia.
    now rewrite length_map, length_take, sort_length, Hcount.
Qed.

(** X13 on the three-chunk index: five results are asked for, the three
    chunks are returned. *)
Lemma search_result_count_witness :
  exists results,
    VectorStore.search Demo.host0 Demo.store3 [1; 0; 0]%Q 5
      VectorStore.no_filters false = Return results
    /\ length results
       = Nat.min (Z.to_nat 5)
           (length (List.filter (Spec.passes VectorStore.no_filters)
                      (VectorStore.chunks Demo.store3))).
Proof.
  apply search_result_count.
  - split; [reflexivity|]. split; [reflexivity | repeat constructor].
  - reflexivity.
  - lia.
Defined.

Lemma search_take
    (h : host) (vs : VectorStore.t) (q : list Q) (k1 k2 : Z)
    (fs : VectorStore.filters) (cos : bool)
    (results : list VectorStore.scored_chunk) :
  0 <= k1 <= k2 ->
  VectorStore.search h vs q k2 fs cos = Return results ->
  VectorStore.search h vs q k1 fs cos = Return (take (Z.to_nat k1) results).
Proof.
  intros Hk. unfold VectorStore.search.
  destruct (negb (VectorStore.isLoaded vs)); [discriminate|]. cbn zeta.
  destruct (negb (_ =? _)); [discriminate|].
  destruct (VectorStore.scan _ _ _ _ _ _ _) as [sims|]; [|discriminate].
  rewrite !slice_prefix by lia. intros [= <-]. f_equal.
  rewrite firstn_map, take_take. do 2 f_equal. lia.
Qed.

(** X14: the results of a search for fewer chunks are the first results of
    a search for more: for [0 <= k1 <= k2], what [search] returns for [k1]
    is the prefix of length [k1] of what it returns for [k2]. *)
Theorem search_prefix
    (h : host) (vs : VectorStore.t) (q : list Q) (k1 k2 : Z)
    (fs : VectorStore.filters) (cos : bool)
    (results : list VectorStore.scored_chunk) :
  0 <= k1 <= k2 ->
  VectorStore.search h vs q k2 fs cos = Return results ->
  VectorStore.search h vs q k1 fs cos = Return (take (Z.to_nat k1) results).
Proof.
  intros Hk. unfold VectorStore.search.
  destruct (negb (VectorStore.isLoaded vs)); [discriminate|]. cbn zeta.
  destruct (negb (_ =? _)); [discriminate|].
  destruct (VectorStore.scan _ _ _ _ _ _ _) as [sims|]; [|discriminate].
  rewrite !slice_prefix by lia. intros [= <-]. f_equal.
  rewrite firstn_map, take_take. do 2 f_equal. lia.
Qed.

(** X14 on the three-chunk index: the best result alone is the first of
    the best two. *)
Lemma search_prefix_witness :
  VectorStore.search Demo.host0 Demo.store3 [1; 0; 0]%Q 1
    VectorStore.no_filters false
  = Return [ {| VectorStore.stored :=
                  Some (Demo.mkChunk "A_chunk_0" "A" "alpha"
                          (VectorStore.PlainArray [1; 0; 0]%Q));
                VectorStore.similarity_score := 1 |} ].
Proof.
  erewrite (search_prefix Demo.host0 Demo.store3 [1; 0; 0]%Q 1 2);
    [| lia | vm_compute; reflexivity].
  vm_compute. reflexivity.
Defined.

Lemma fmul_comm (u v : Q) : fmul u v = fmul v u.
Proof.
  unfold fmul. f_equal. unfold Qmult.
  now rewrite Z.mul_comm, Pos.mul_comm.
Qed.

Lemma dot_fold_symmetric (a b : list Q) (x : Q) :
  fold_left (fun sum '(u, v) => fadd sum (fmul u v)) (combine a b) x
  = fold_left (fun sum '(u, v) => fadd sum (fmul u v)) (combine b a) x.
Proof.
  revert b x. induction a as [|u a IH]; intros [|v b] x; cbn [combine fold_left];
    try reflexivity.
  rewrite (fmul_comm u v). apply IH.
Qed.

(** X15: the dot product does not depend on the order of its arguments:
    the two calls throw together, or return equal numbers. *)
Theorem dotProduct_symmetric (vec1 vec2 : list Q) :
  match VectorStore.dotProduct vec1 vec2, VectorStore.dotProduct vec2 vec1 with
  | Return x, Return y => (x == y)%Q
  | Throw e1, Throw e2 => e1 = e2
  | _, _ => False
  end.
Proof.
  unfold VectorStore.dotProduct.
  rewrite (Nat.eqb_sym (length vec2) (length vec1)).
  destruct (length vec1 =? length vec2)%nat; cbn [negb]; [|reflexivity].
  rewrite (dot_fold_symmetric vec1 vec2). reflexivity.
Qed.

(** X16: a load that fails on a chunk whose [embedding] is not an array
    throws an error naming the first such chunk, and leaves the store with
    the new chunks and dimension but the vectors and the loaded flag it had
    before. *)
Theorem loadEmbeddings_failed_reload
    (vs : VectorStore.t) (good rest : list VectorStore.stored_chunk)
    (bad : VectorStore.stored_chunk) (dim : option Z) :
  forallb Spec.isArray good = true ->
  VectorStore.embedding bad = VectorStore.NotAnArray ->
  let data :=
    {| VectorStore.data_chunks := Some (good ++ bad :: rest);
       VectorStore.embedding_dim := dim |} in
  VectorStore.loadEmbeddings vs (Some data)
  = (Throw (Error (js "Invalid embedding format for chunk "
                     ++ Chunk.chunk_id (VectorStore.chunk bad))),
     {| VectorStore.chunks := good ++ bad :: rest;
        VectorStore.embeddings := VectorStore.embeddings vs;
        VectorStore.isLoaded := VectorStore.isLoaded vs;
        VectorStore.embeddingDim :=
          match dim with
          | Some d => if d =? 0 then 768 else d
          | None => 768
          end |}).
Proof.
  intros Hgood Hbad data. subst data. cbn [VectorStore.loadEmbeddings].
  assert (Hmap : VectorStore.map_outcome VectorStore.toFloat32
                   (good ++ bad :: rest)
                 = Throw (Error (js "Invalid embedding format for chunk "
                                   ++ Chunk.chunk_id (VectorStore.chunk bad)))).
  { induction good as [|c good IH]; cbn [app VectorStore.map_outcome].
    - unfold VectorStore.toFloat32 at 1. now rewrite Hbad.
    - simpl in Hgood. apply andb_true_iff in Hgood.
      destruct Hgood as [Hc Hgood]. rewrite (IH Hgood).
      unfold VectorStore.toFloat32 at 1. unfold Spec.isArray in Hc.
      destruct (VectorStore.embedding c); [reflexivity | reflexivity |].
      discriminate. }
  now rewrite Hmap.
Qed.

(** X16 on the loaded three-chunk index and data whose second chunk has no
    array: the store keeps its three vectors and its flag, with two chunks. *)
Lemma loadEmbeddings_failed_reload_witness :
  VectorStore.isLoaded
    (snd (VectorStore.loadEmbeddings Demo.store3 (Some Demo.dataBroken)))
  = true
  /\ length (VectorStore.chunks
               (snd (VectorStore.loadEmbeddings Demo.store3
                       (Some Demo.dataBroken)))) = 2%nat
  /\ length (VectorStore.embeddings
               (snd (VectorStore.loadEmbeddings Demo.store3
                       (Some Demo.dataBroken)))) = 3%nat.
Proof.
  pose proof (loadEmbeddings_failed_reload Demo.store3
                [Demo.mkChunk "X_chunk_0" "X" "chi"
                   (VectorStore.PlainArray [1; 0; 0]%Q)]
                []
                (Demo.mkChunk "X_chunk_1" "X" "psi" VectorStore.NotAnArray)
                (Some 3) eq_refl eq_refl) as H.
  change (VectorStore.loadEmbeddings Demo.store3 (Some Demo.dataBroken)
          = (Throw (Error (js "Invalid embedding format for chunk "
                             ++ js "X_chunk_1")),
             {| VectorStore.chunks :=
                  [Demo.mkChunk "X_chunk_0" "X" "chi"
                     (VectorStore.PlainArray [1; 0; 0]%Q);
                   Demo.mkChunk "X_chunk_1" "X" "psi" VectorStore.NotAnArray];
                VectorStore.embeddings := VectorStore.embeddings Demo.store3;
                VectorStore.isLoaded := VectorStore.isLoaded Demo.store3;
                VectorStore.embeddingDim := 3 |})) in H.
  rewrite H. repeat split.
Defined.

(** ** Query router: the other paths of [routeQuery] *)

Lemma routeQuery_returns (h : host) (r : QueryRouter.t) (userQuery : value)
    (opts : QueryRouter.options) (w : world) :
  Spec.validQuery userQuery = true ->
  exists d w',
    QueryRouter.routeQuery h r userQuery opts w = (Return d, w')
    /\ (QueryRouter.dmode d = ModeRag \/ QueryRouter.dmode d = ModeGeneral).
Proof.
  destruct userQuery as [| | | |[|c q]|]; try discriminate. intros _.
  unfold QueryRouter.routeQuery. cbn [truthy is_string negb orb].
  destruct (QueryRouter.is_str _ (js "rag")); [eexists _, _; split; eauto|].
  destruct (QueryRouter.is_str _ (js "general")); [eexists _, _; split; eauto|].
  unfold try_catch, bind, invoke, ret.
  destruct (EmbeddingManager.embedText _ _) as [e|err];
    [|eexists _, _; split; eauto].
  destruct (VectorStore.search _ _ _ _ _ _) as [[|top rest]|err];
    [eexists _, _; split; eauto | | eexists _, _; split; eauto].
  destruct (Qle_bool _ _); [eexists _, _; split; eauto|].
  destruct (Qle_bool _ _); eexists _, _; split; eauto.
Qed.



(** X18: a forced mode is answered at once: the decision has that mode,
    confidence 1 and no chunks, and neither the embedder nor the store is
    called. *)
Theorem routeQuery_forced_mode (h : host) (r : QueryRouter.t)
    (userQuery : value) (topK : option Z) (w : world) :
  Spec.validQuery userQuery = true ->
  QueryRouter.routeQuery h r userQuery
    {| QueryRouter.forceMode := Str (js "rag"); QueryRouter.topK := topK |} w
  = (Return {| QueryRouter.dmode := ModeRag;
               QueryRouter.confidence := 1;
               QueryRouter.reason := js "Forced RAG mode";
               QueryRouter.relevantChunks := [];
               QueryRouter.error := None |}, w)
  /\ QueryRouter.routeQuery h r userQuery
       {| QueryRouter.forceMode := Str (js "general");
          QueryRouter.topK := topK |} w
     = (Return {| QueryRouter.dmode := ModeGeneral;
                  QueryRouter.confidence := 1;
                  QueryRouter.reason := js "Forced general chat mode";
                  QueryRouter.relevantChunks := [];
                  QueryRouter.error := None |}, w).
Proof.
  destruct userQuery as [| | | |[|c q]|]; try discriminate. intros _.
  split; reflexivity.
Qed.

(** X18 on a router whose embedder is not loaded. *)
Lemma routeQuery_forced_mode_witness :
  fst (QueryRouter.routeQuery Demo.host0
         (QueryRouter.new
            {| EmbeddingManager.isLoaded := false;
               EmbeddingManager.pipeline := None |} VectorStore.new)
         (Str (js "fees"))
         {| QueryRouter.forceMode := Str (js "rag");
            QueryRouter.topK := None |} start)
  = Return {| QueryRouter.dmode := ModeRag;
              QueryRouter.confidence := 1;
              QueryRouter.reason := js "Forced RAG mode";
              QueryRouter.relevantChunks := [];
              QueryRouter.error := None |}.
Proof.
  destruct (routeQuery_forced_mode Demo.host0
              (QueryRouter.new
                 {| EmbeddingManager.isLoaded := false;
                    EmbeddingManager.pipeline := None |} VectorStore.new)
              (Str (js "fees")) None start eq_refl) as [-> _].
  reflexivity.
Defined.

(** X19: without a forced mode, an error of the embedder or of the search
    is turned into a [general] decision with confidence 0.5 that records
    the message; after an embedder error the store is not searched. *)
Theorem routeQuery_error_downgrade (h : host) (r : QueryRouter.t)
    (userQuery : value) (opts : QueryRouter.options) (w : world) :
  Spec.validQuery userQuery = true ->
  QueryRouter.is_str (QueryRouter.forceMode opts) (js "rag") = false ->
  QueryRouter.is_str (QueryRouter.forceMode opts) (js "general") = false ->
  (forall err,
     EmbeddingManager.embedText (QueryRouter.embeddingManager r) userQuery
     = Throw err ->
     QueryRouter.routeQuery h r userQuery opts w
     = (Return (Spec.routingFallback err),
        {| clock := clock w; log := log w ++ [EmbedText userQuery] |}))
  /\ (forall e err,
        EmbeddingManager.embedText (QueryRouter.embeddingManager r) userQuery
        = Return e ->
        VectorStore.search h (QueryRouter.vectorStore r) e
          (default 1 (QueryRouter.topK opts)) VectorStore.no_filters false
        = Throw err ->
        QueryRouter.routeQuery h r userQuery opts w
        = (Return (Spec.routingFallback err),
           {| clock := clock w;
              log := (log w ++ [EmbedText userQuery])
                       ++ [Search (default 1 (QueryRouter.topK opts))] |})).
Proof.
  destruct userQuery as [| | | |[|c q]|]; try discriminate.
  intros _ Hrag Hgen. split.
  - intros err Hembed. unfold QueryRouter.routeQuery.
    cbn [truthy is_string negb orb]. rewrite Hrag, Hgen.
    unfold try_catch, bind, invoke, ret. now rewrite Hembed.
  - intros e err Hembed Hsearch. unfold QueryRouter.routeQuery.
    cbn [truthy is_string negb orb]. rewrite Hrag, Hgen.
    unfold try_catch, bind, invoke, ret. rewrite Hembed. cbn [clock log].
    now rewrite Hsearch.
Qed.

(** X19 with an embedder that is not loaded. *)
Lemma routeQuery_error_downgrade_witness :
  fst (QueryRouter.routeQuery Demo.host0
         (QueryRouter.new
            {| EmbeddingManager.isLoaded := false;
               EmbeddingManager.pipeline := None |} Demo.store3)
         (Str (js "fees")) QueryRouter.no_options start)
  = Return (Spec.routingFallback
              (Error (js "Embedding model not loaded. Call loadModel() first."))).
Proof.
  destruct (routeQuery_error_downgrade Demo.host0
              (QueryRouter.new
                 {| EmbeddingManager.isLoaded := false;
                    EmbeddingManager.pipeline := None |} Demo.store3)
              (Str (js "fees")) QueryRouter.no_options start
              eq_refl eq_refl eq_refl) as [Hembed _].
  rewrite (Hembed _ eq_refl). reflexivity.
Defined.

(** X20: without a forced mode, when the search finds nothing, or when its
    best score is below the minimum confidence, the decision is [general]
    with confidence 1 and carries no chunks. *)
Theorem routeQuery_unrelated_query (h : host) (r : QueryRouter.t)
    (userQuery : value) (opts : QueryRouter.options) (w : world)
    (e : list Q) (results : list VectorStore.scored_chunk) :
  Spec.validQuery userQuery = true ->
  QueryRouter.is_str (QueryRouter.forceMode opts) (js "rag") = false ->
  QueryRouter.is_str (QueryRouter.forceMode opts) (js "general") = false ->
  EmbeddingManager.embedText (QueryRouter.embeddingManager r) userQuery
  = Return e ->
  VectorStore.search h (QueryRouter.vectorStore r) e
    (default 1 (QueryRouter.topK opts)) VectorStore.no_filters false
  = Return results ->
  match results with
  | [] => True
  | top :: _ =>
      (VectorStore.similarity_score top < QueryRouter.minimumConfidence r)%Q
      /\ (VectorStore.similarity_score top < QueryRouter.thresholdSimilarity r)%Q
  end ->
  exists d,
    fst (QueryRouter.routeQuery h r userQuery opts w) = Return d
    /\ QueryRouter.dmode d = ModeGeneral
    /\ QueryRouter.confidence d = 1%Q
    /\ QueryRouter.relevantChunks d = []
    /\ QueryRouter.error d = None.
Proof.
  destruct userQuery as [| | | |[|c q]|]; try discriminate.
  intros _ Hrag Hgen Hembed Hsearch Hlow. unfold QueryRouter.routeQuery.
  cbn [truthy is_string negb orb]. rewrite Hrag, Hgen.
  unfold try_catch, bind, invoke, ret. rewrite Hembed. cbn [clock log].
  rewrite Hsearch. destruct results as [|top rest].
  - eexists. repeat split.
  - destruct Hlow as [Hmin Hthr].
    assert (Qle_bool (QueryRouter.thresholdSimilarity r)
              (VectorStore.similarity_score top) = false) as ->.
    { destruct (Qle_bool _ _) eqn:E; [|reflexivity].
      apply Qle_bool_iff in E. exfalso. exact (Qlt_not_le _ _ Hthr E). }
    assert (Qle_bool (QueryRouter.minimumConfidence r)
              (VectorStore.similarity_score top) = false) as ->.
    { destruct (Qle_bool _ _) eqn:E; [|reflexivity].
      apply Qle_bool_iff in E. exfalso. exact (Qlt_not_le _ _ Hmin E). }
    eexists. repeat split.
Qed.

(** X20 on the three-chunk index, for a query orthogonal to the best
    chunk's neighbours: score 0.2, below the minimum of 0.4. *)
Lemma routeQuery_unrelated_query_witness :
  exists d,
    fst (QueryRouter.routeQuery Demo.host0
           (QueryRouter.new (Demo.embedder [2 # 10; 0; 0]%Q) Demo.store3)
           (Str (js "weather")) QueryRouter.no_options start) = Return d
    /\ QueryRouter.dmode d = ModeGeneral
    /\ QueryRouter.confidence d = 1%Q
    /\ QueryRouter.relevantChunks d = []
    /\ QueryRouter.error d = None.
Proof.
  eapply (routeQuery_unrelated_query Demo.host0
            (QueryRouter.new (Demo.embedder [2 # 10; 0; 0]%Q) Demo.store3)
            (Str (js "weather")) QueryRouter.no_options start);
    [ reflexivity | reflexivity | reflexivity | reflexivity
    | vm_compute; reflexivity | split; vm_compute; reflexivity ].
Defined.

(** ** Query router: batches, statistics and analysis *)

Lemma batchRoute_returns (h : host) (r : QueryRouter.t)
    (queries : list value) (w : world) :
  forallb Spec.validQuery queries = true ->
  exists ds w',
    QueryRouter.batchRoute h r queries w = (Return ds, w')
    /\ List.map fst ds = queries
    /\ Forall (fun qd => QueryRouter.dmode (snd qd) = ModeRag
                         \/ QueryRouter.dmode (snd qd) = ModeGeneral) ds.
Proof.
  revert w. induction queries as [|q rest IH]; intros w Hvalid.
  - exists [], w. repeat split. constructor.
  - cbn [forallb] in Hvalid. apply andb_prop in Hvalid as [Hq Hrest].
    destruct (routeQuery_returns h r q QueryRouter.no_options w Hq)
      as (d & w1 & Hroute & Hmode).
    destruct (IH w1 Hrest) as (ds & w2 & Hbatch & Hfst & Hmodes).
    exists ((q, d) :: ds), w2.
    cbn [QueryRouter.batchRoute]. unfold bind, ret.
    rewrite Hroute, Hbatch. repeat split.
    + cbn [List.map fst]. now rewrite Hfst.
    + constructor; assumption.
Qed.

Lemma batchRoute_throws (h : host) (r : QueryRouter.t)
    (good : list value) (bad : value) (rest : list value) (w : world) :
  forallb Spec.validQuery good = true ->
  Spec.validQuery bad = false ->
  fst (QueryRouter.batchRoute h r (good ++ bad :: rest) w)
  = Throw (Error (js "User query must be a non-empty string")).
Proof.
  revert w. induction good as [|q good IH]; intros w Hgood Hbad.
  - cbn [app QueryRouter.batchRoute]. unfold bind.
    assert (QueryRouter.routeQuery h r bad QueryRouter.no_options w
            = (Throw (Error (js "User query must be a non-empty string")), w))
      as ->; [|reflexivity].
    unfold QueryRouter.routeQuery.
    destruct bad as [| | | |[|c q]|]; try discriminate Hbad;
      cbn [is_string negb]; rewrite ?orb_true_r; reflexivity.
  - cbn [forallb] in Hgood. apply andb_prop in Hgood as [Hq Hgood].
    destruct (routeQuery_returns h r q QueryRouter.no_options w Hq)
      as (d & w1 & Hroute & _).
    change ((q :: good) ++ bad :: rest) with (q :: (good ++ bad :: rest)).
    cbn [QueryRouter.batchRoute]. unfold bind. rewrite Hroute.
    specialize (IH w1 Hgood Hbad).
    destruct (QueryRouter.batchRoute h r (good ++ bad :: rest) w1)
      as [[ds|e] w2]; cbn [fst] in IH |- *; [discriminate | exact IH].
Qed.

(** X21: [batchRoute] of non-empty query strings returns one decision per
    query, in the order of the queries; a query that is not a non-empty
    string makes the whole batch throw, and the decisions made before it
    are lost. *)
Theorem batchRoute_all_or_nothing (h : host) (r : QueryRouter.t) (w : world) :
  (forall queries,
     forallb Spec.validQuery queries = true ->
     exists ds w',
       QueryRouter.batchRoute h r queries w = (Return ds, w')
       /\ List.map fst ds = queries)
  /\ (forall good bad rest,
        forallb Spec.validQuery good = true ->
        Spec.validQuery bad = false ->
        fst (QueryRouter.batchRoute h r (good ++ bad :: rest) w)
        = Throw (Error (js "User query must be a non-empty string"))).
Proof.
  split.
  - intros queries Hvalid.
    destruct (batchRoute_returns h r queries w Hvalid)
      as (ds & w' & Hbatch & Hfst & _).
    now exists ds, w'.
  - intros good bad rest. apply batchRoute_throws.
Qed.

Lemma count_modes (history : list QueryRouter.decision) :
  Forall (fun d => QueryRouter.dmode d = ModeRag
                   \/ QueryRouter.dmode d = ModeGeneral) history ->
  (length (List.filter (QueryRouter.is_mode ModeRag) history)
   + length (List.filter (QueryRouter.is_mode ModeGeneral) history)
   = length history)%nat.
Proof.
  induction 1 as [|d history Hd _ IH]; [reflexivity|].
  cbn [List.filter].
  assert (QueryRouter.is_mode ModeRag d
          = negb (QueryRouter.is_mode ModeGeneral d)) as ->.
  { unfold QueryRouter.is_mode. now destruct Hd as [-> | ->]. }
  destruct (QueryRouter.is_mode ModeGeneral d); cbn [negb length]; lia.
Qed.

(** X22: the statistics of a batch add up: for the decisions that
    [batchRoute] returns for non-empty query strings, [total] is the number
    of queries and [ragCount + generalCount = total]. *)
Theorem getRoutingStats_of_batch (h : host) (r : QueryRouter.t)
    (queries : list value) (w : world) :
  forallb Spec.validQuery queries = true ->
  exists ds w',
    QueryRouter.batchRoute h r queries w = (Return ds, w')
    /\ let stats := QueryRouter.getRoutingStats h (List.map snd ds) in
       QueryRouter.total stats = Z.of_nat (length queries)
       /\ QueryRouter.ragCount stats + QueryRouter.generalCount stats
          = QueryRouter.total stats.
Proof.
  intros Hvalid.
  destruct (batchRoute_returns h r queries w Hvalid)
    as (ds & w' & Hbatch & Hfst & Hmodes).
  exists ds, w'. split; [exact Hbatch|].
  assert (length queries = length (List.map snd ds)) as Hlen.
  { rewrite <- Hfst. now rewrite !length_map. }
  assert (Forall (fun d => QueryRouter.dmode d = ModeRag
                           \/ QueryRouter.dmode d = ModeGeneral)
            (List.map snd ds)) as Hall.
  { clear -Hmodes. induction Hmodes; constructor; assumption. }
  apply count_modes in Hall. rewrite Hlen. clear Hlen Hfst Hbatch Hmodes.
  generalize dependent (List.map snd ds). intros history Hall.
  destruct history as [|d history]; [split; reflexivity|].
  unfold QueryRouter.getRoutingStats.
  cbn [QueryRouter.total QueryRouter.ragCount QueryRouter.generalCount].
  split; [reflexivity | lia].
Qed.

(** X22 for two queries on the three-chunk index. *)
Lemma getRoutingStats_of_batch_witness :
  exists ds w',
    QueryRouter.batchRoute Demo.host0
      (QueryRouter.new (Demo.embedder [1; 0; 0]%Q) Demo.store3)
      [Str (js "fees"); Str (js "weather")] start = (Return ds, w')
    /\ let stats := QueryRouter.getRoutingStats Demo.host0 (List.map snd ds) in
       QueryRouter.total stats = 2
       /\ QueryRouter.ragCount stats + QueryRouter.generalCount stats
          = QueryRouter.total stats.
Proof.
  apply (getRoutingStats_of_batch Demo.host0
           (QueryRouter.new (Demo.embedder [1; 0; 0]%Q) Demo.store3)
           [Str (js "fees"); Str (js "weather")] start).
  reflexivity.
Defined.

(** When the store has a chunk for every vector, every result of a search
    comes with its chunk. *)
Lemma search_results_present
    (h : host) (vs : VectorStore.t) (q : list Q) (topK : Z)
    (fs : VectorStore.filters) (cos : bool)
    (results : list VectorStore.scored_chunk) :
  (length (VectorStore.embeddings vs) <= length (VectorStore.chunks vs))%nat ->
  VectorStore.search h vs q topK fs cos = Return results ->
  Forall (fun r => is_Some (VectorStore.stored r)) results.
Proof.
  intros Hcover Hsearch.
  destruct (search_unfold _ _ _ _ _ _ _ Hsearch) as (sims & Hscan & ->).
  destruct (scan_sound _ _ _ _ _ _ _ _ Hscan) as (_ & Hfound & _).
  apply List.Forall_forall. intros r Hr.
  apply List.in_map_iff in Hr as (s & <- & Hs).
  apply slice_elements in Hs.
  apply (Permutation_in _ (sort_Permutation VectorStore.byScoreDesc sims)) in Hs.
  rewrite List.Forall_forall in Hfound.
  destruct (Hfound s Hs) as (_ & e & He & _).
  apply lookup_lt_Some in He.
  cbn [VectorStore.attach VectorStore.stored].
  apply lookup_lt_is_Some_2. lia.
Qed.

Lemma previews_return (results : list VectorStore.scored_chunk) :
  Forall (fun r => is_Some (VectorStore.stored r)) results ->
  exists previews,
    VectorStore.map_outcome QueryRouter.previewOf results = Return previews
    /\ length previews = length results.
Proof.
  induction 1 as [|r results [c Hc] _ (previews & IH & Hlen)].
  - now exists [].
  - cbn [VectorStore.map_outcome]. unfold QueryRouter.previewOf at 1.
    rewrite Hc, IH. eexists. split; [reflexivity|].
    cbn [length]. now rewrite Hlen.
Qed.

(** X23: on a store that has a chunk, with its text, for every vector, the
    mode that [analyzeQuery] recommends is the mode that [routeQuery] decides
    with its default options, whenever the embedder accepts the query and
    the search for ten chunks succeeds. *)
Theorem analyzeQuery_agrees_with_routeQuery (h : host) (r : QueryRouter.t)
    (userQuery : value) (w : world) (e : list Q)
    (topResults : list VectorStore.scored_chunk) :
  Spec.validQuery userQuery = true ->
  (length (VectorStore.embeddings (QueryRouter.vectorStore r))
   <= length (VectorStore.chunks (QueryRouter.vectorStore r)))%nat ->
  EmbeddingManager.embedText (QueryRouter.embeddingManager r) userQuery
  = Return e ->
  VectorStore.search h (QueryRouter.vectorStore r) e 10
    VectorStore.no_filters false = Return topResults ->
  exists len previews top recommended d,
    fst (QueryRouter.analyzeQuery h r userQuery w)
    = Return (QueryRouter.Analysis userQuery len previews top recommended)
    /\ fst (QueryRouter.routeQuery h r userQuery QueryRouter.no_options w)
       = Return d
    /\ QueryRouter.dmode d = recommended
    /\ length previews = length topResults.
Proof.
  destruct userQuery as [| | | |[|c q]|]; try discriminate.
  intros _ Hcover Hembed Hsearch.
  pose proof (search_take h (QueryRouter.vectorStore r) e 1 10
                VectorStore.no_filters false topResults
                ltac:(lia) Hsearch) as Hone.
  destruct (previews_return topResults
              (search_results_present _ _ _ _ _ _ _ Hcover Hsearch))
    as (previews & Hpreviews & Hlen).
  unfold QueryRouter.analyzeQuery, QueryRouter.routeQuery.
  cbn [truthy is_string negb orb QueryRouter.no_options QueryRouter.forceMode
       QueryRouter.topK QueryRouter.is_str default].
  unfold try_catch, bind, invoke, lift, ret. rewrite Hembed. cbn [clock log].
  rewrite Hsearch, Hone, Hpreviews. cbn [fst].
  destruct topResults as [|top rest].
  - eexists _, _, _, _, _. repeat split. exact Hlen.
  - change (take (Z.to_nat 1) (top :: rest)) with [top]. cbn zeta.
    destruct (Qle_bool (QueryRouter.thresholdSimilarity r)
                (VectorStore.similarity_score top)) eqn:Ethr;
      [|destruct (Qle_bool (QueryRouter.minimumConfidence r)
                    (VectorStore.similarity_score top)) eqn:Emin];
      (eexists _, _, _, _, _; split; [reflexivity|];
       rewrite ?Ethr, ?Emin; split; [reflexivity|];
       split; [reflexivity | exact Hlen]).
Qed.

(** X23 on the three-chunk index. *)
Lemma analyzeQuery_agrees_with_routeQuery_witness :
  exists len previews top recommended d,
    fst (QueryRouter.analyzeQuery Demo.host0
           (QueryRouter.new (Demo.embedder [1; 0; 0]%Q) Demo.store3)
           (Str (js "fees")) start)
    = Return (QueryRouter.Analysis (Str (js "fees")) len previews top
                recommended)
    /\ fst (QueryRouter.routeQuery Demo.host0
              (QueryRouter.new (Demo.embedder [1; 0; 0]%Q) Demo.store3)
              (Str (js "fees")) QueryRouter.no_options start)
       = Return d
    /\ QueryRouter.dmode d = recommended.
Proof.
  edestruct (analyzeQuery_agrees_with_routeQuery Demo.host0
               (QueryRouter.new (Demo.embedder [1; 0; 0]%Q) Demo.store3)
               (Str (js "fees")) start)
    as (len & previews & top & recommended & d & Ha & Hr & Hm & _);
    [ reflexivity | vm_compute; lia | reflexivity | vm_compute; reflexivity | ].
  exists len, previews, top, recommended, d. auto.
Defined.

(** Without that condition the two can differ.  On the store that a failed
    reload left with three vectors for two chunks, the search for ten
    chunks returns a third result that has no [text]: [analyzeQuery] answers
    with the error of reading it, while [routeQuery], which reads the best
    score only, decides [rag]. *)
Example analyzeQuery_on_store_out_of_step :
  fst (QueryRouter.analyzeQuery Demo.host0
         (QueryRouter.new (Demo.embedder [1; 0; 0]%Q) Demo.storeOutOfStep)
         (Str (js "fees")) start)
  = Return (QueryRouter.AnalysisError
              (js "Cannot read properties of undefined (reading 'substring')")
              (Str (js "fees")))
  /\ exists d,
       fst (QueryRouter.routeQuery Demo.host0
              (QueryRouter.new (Demo.embedder [1; 0; 0]%Q) Demo.storeOutOfStep)
              (Str (js "fees")) QueryRouter.no_options start) = Return d
       /\ QueryRouter.dmode d = ModeRag.
Proof.
  split; [vm_compute; reflexivity|]. eexists. split; vm_compute; reflexivity.
Qed.

(** ** The catalog: [loadMetadata] and the lookups *)

Lemma find_snoc {A} (f : A -> bool) (l : list A) (x : A) :
  List.find f (l ++ [x])
  = match List.find f l with
    | Some y => Some y
    | None => if f x then Some x else None
    end.
Proof.
  induction l as [|a l IH]; cbn [app List.find]; [reflexivity|].
  destruct (f a); [reflexivity | exact IH].
Qed.

Lemma indexById_from (docs : list Document.t)
    (m : gmap jsstring Document.t) (id : jsstring) :
  fold_left (fun m doc => <[Document.id doc := doc]> m) docs m !! id
  = match List.find (fun doc => str_eqb (Document.id doc) id) (rev docs) with
    | Some doc => Some doc
    | None => m !! id
    end.
Proof.
  revert m. induction docs as [|d docs IH]; intros m; [reflexivity|].
  cbn [fold_left rev]. rewrite IH, find_snoc.
  destruct (List.find _ (rev docs)); [reflexivity|].
  unfold str_eqb. destruct (bool_decide_reflect (Document.id d = id)) as [<- | Hne].
  - apply lookup_insert_eq.
  - now apply lookup_insert_ne.
Qed.

Lemma indexByCategory_from (docs : list Document.t)
    (m : gmap jsstring (list Document.t)) (categoryId : jsstring) :
  default []
    (fold_left
       (fun m doc =>
          <[Document.category doc :=
              default [] (m !! Document.category doc) ++ [doc]]> m)
       docs m !! categoryId)
  = default [] (m !! categoryId)
      ++ List.filter (fun doc => str_eqb (Document.category doc) categoryId)
           docs.
Proof.
  revert m. induction docs as [|d docs IH]; intros m.
  - cbn [fold_left List.filter]. now rewrite app_nil_r.
  - cbn [fold_left List.filter]. rewrite IH. unfold str_eqb.
    destruct (bool_decide_reflect (Document.category d = categoryId))
      as [<- | Hne].
    + rewrite lookup_insert_eq. cbn. now rewrite <- app_assoc.
    + now rewrite lookup_insert_ne.
Qed.

Lemma find_some_eqb (docs : list Document.t) (id : jsstring) (doc : Document.t) :
  List.find (fun doc => str_eqb (Document.id doc) id) docs = Some doc ->
  In doc docs /\ Document.id doc = id.
Proof.
  intros H. apply List.find_some in H as [Hin Heq]. split; [exact Hin|].
  unfold str_eqb in Heq. now apply bool_decide_eq_true_1 in Heq.
Qed.

Lemma loaded_keyedById (dm : DocumentManager.t) (docs : list Document.t)
    (cats : list Category.t) :
  Spec.keyedById
    (snd (DocumentManager.loadMetadata dm (Some docs) (Some cats))).
Proof.
  intros id doc. unfold DocumentManager.getDocumentById.
  cbn [DocumentManager.loadMetadata snd DocumentManager.documentsById].
  unfold DocumentManager.indexById. rewrite indexById_from, lookup_empty.
  destruct (List.find _ (rev docs)) as [d|] eqn:E; [|discriminate].
  intros [= <-]. now apply find_some_eqb in E.
Qed.

(** X24: after [loadMetadata], [getDocumentById] finds the last document
    of the loaded list that has the given id, and nothing for an id that no
    document has; so what it returns is a loaded document with that id. *)
Theorem loadMetadata_getDocumentById (dm : DocumentManager.t)
    (docs : list Document.t) (cats : list Category.t) (id : jsstring) :
  let dm' := snd (DocumentManager.loadMetadata dm (Some docs) (Some cats)) in
  DocumentManager.getDocumentById dm' id
  = List.find (fun doc => str_eqb (Document.id doc) id) (rev docs)
  /\ (forall doc,
        DocumentManager.getDocumentById dm' id = Some doc ->
        In doc docs /\ Document.id doc = id)
  /\ (DocumentManager.getDocumentById dm' id = None <->
      ~ In id (List.map Document.id docs)).
Proof.
  cbn zeta.
  assert (DocumentManager.getDocumentById
            (snd (DocumentManager.loadMetadata dm (Some docs) (Some cats))) id
          = List.find (fun doc => str_eqb (Document.id doc) id) (rev docs))
    as Hfind.
  { unfold DocumentManager.getDocumentById.
    cbn [DocumentManager.loadMetadata snd DocumentManager.documentsById].
    unfold DocumentManager.indexById. rewrite indexById_from, lookup_empty.
    now destruct (List.find _ (rev docs)). }
  split; [exact Hfind|]. rewrite Hfind. split.
  - intros doc E. apply find_some_eqb in E as [Hin Hid].
    split; [|exact Hid]. now apply List.in_rev.
  - split.
    + intros Hnone Hin. apply List.in_map_iff in Hin as (doc & Hid & Hin).
      apply List.in_rev in Hin.
      pose proof (List.find_none _ _ Hnone doc Hin) as Hfalse.
      unfold str_eqb in Hfalse.
      now rewrite bool_decide_eq_true_2 in Hfalse by exact Hid.
    + intros Hnot.
      destruct (List.find _ (rev docs)) as [doc|] eqn:E; [|reflexivity].
      apply find_some_eqb in E as [Hin Hid]. exfalso. apply Hnot.
      apply List.in_map_iff. exists doc. split; [exact Hid|].
      now apply List.in_rev.
Qed.

(** X25: after [loadMetadata], the category index and the category filter
    agree: [getDocumentsByCategory] gives the loaded documents of that
    category in the order of the list, and for a non-empty category name
    that is what [getAllDocuments] gives with the category as its only
    filter. *)
Theorem loadMetadata_getDocumentsByCategory (dm : DocumentManager.t)
    (docs : list Document.t) (cats : list Category.t)
    (categoryId : jsstring) :
  let dm' := snd (DocumentManager.loadMetadata dm (Some docs) (Some cats)) in
  DocumentManager.getDocumentsByCategory dm' categoryId
  = List.filter (fun doc => str_eqb (Document.category doc) categoryId) docs
  /\ (categoryId <> [] ->
      DocumentManager.getAllDocuments dm' (Some categoryId) None
      = DocumentManager.getDocumentsByCategory dm' categoryId).
Proof.
  cbn zeta.
  assert (DocumentManager.getDocumentsByCategory
            (snd (DocumentManager.loadMetadata dm (Some docs) (Some cats)))
            categoryId
          = List.filter
              (fun doc => str_eqb (Document.category doc) categoryId) docs)
    as Hfilter.
  { unfold DocumentManager.getDocumentsByCategory.
    cbn [DocumentManager.loadMetadata snd DocumentManager.documentsByCategory].
    unfold DocumentManager.indexByCategory.
    now rewrite indexByCategory_from, lookup_empty. }
  split; [exact Hfilter|]. intros Hne. rewrite Hfilter.
  unfold DocumentManager.getAllDocuments.
  cbn [DocumentManager.loadMetadata snd DocumentManager.documents
       DocumentManager.keeps].
  destruct categoryId as [|c s]; [contradiction|].
  cbn [DocumentManager.keeps].
  generalize (List.filter
                (fun doc => str_eqb (Document.category doc) (c :: s)) docs).
  intros l. induction l as [|d l IH]; [reflexivity|].
  cbn [List.filter]. now rewrite IH.
Qed.

(** X25 for the catalog of one document. *)
Lemma loadMetadata_getDocumentsByCategory_witness :
  DocumentManager.getAllDocuments Demo.catalogA (Some (js "safety")) None
  = DocumentManager.getDocumentsByCategory Demo.catalogA (js "safety").
Proof.
  apply (loadMetadata_getDocumentsByCategory DocumentManager.new
           [Demo.docA] [] (js "safety")).
  discriminate.
Defined.

(** ** The pipeline: what [query] and [semanticSearch] always return *)

Lemma sourceStep_length (dm : DocumentManager.t)
    (chunks : list VectorStore.scored_chunk) (seen : gset (option jsstring))
    (acc : list RAGPipeline.source) :
  (length (snd (fold_left (RAGPipeline.sourceStep dm) chunks (seen, acc)))
   <= length acc + length chunks)%nat.
Proof.
  revert seen acc. induction chunks as [|sc rest IH]; intros seen acc.
  - cbn [fold_left snd length]. lia.
  - cbn [fold_left length]. unfold RAGPipeline.sourceStep at 2.
    destruct (decide _); [etransitivity; [apply IH|]; lia|].
    destruct (RAGPipeline.documentFor _ _);
      (etransitivity; [apply IH|]); rewrite ?length_app; cbn [length]; lia.
Qed.


(** X27: when the search finds no chunk, [query] answers [no_results]
    without calling the generator: the only calls are the embedding and
    the search, the clock was read four times, and the metadata holds the
    sum of the two measured times (differences and sum as the doubles the
    code computes) and a count of 0. *)
Theorem query_no_results (h : host) (p : RAGPipeline.t) (userQuery : value)
    (opts : RAGPipeline.options) (w : world) (e : list Q) :
  EmbeddingManager.embedText (RAGPipeline.embeddingManager p) userQuery
  = Return e ->
  VectorStore.search h (RAGPipeline.vectorStore p) e
    (default 5 (RAGPipeline.topK opts))
    (default VectorStore.no_filters (RAGPipeline.filters opts)) false
  = Return [] ->
  RAGPipeline.query h p userQuery opts w
  = (Return
       {| RAGPipeline.rmode := ModeNoResults;
          RAGPipeline.answer := RAGPipeline.noResultsAnswer;
          RAGPipeline.error := None;
          RAGPipeline.retrievedChunks := [];
          RAGPipeline.sources := [];
          RAGPipeline.rmetadata :=
            Some (RAGPipeline.QueryMetadata
                    (fadd
                       (fsub (performance_now h (1 + clock w))
                          (performance_now h (clock w)))
                       (fsub (performance_now h (3 + clock w))
                          (performance_now h (2 + clock w)))) 0) |},
     {| clock := 4 + clock w;
        log := (log w ++ [EmbedText userQuery])
                 ++ [Search (default 5 (RAGPipeline.topK opts))] |}).
Proof.
  intros Hembed Hsearch.
  unfold RAGPipeline.query, try_catch, bind, now, invoke, lift, ret.
  cbn [clock log]. rewrite Hembed. cbn [clock log]. rewrite Hsearch.
  reflexivity.
Qed.

(** X27 on the three-chunk index, with a category filter that no chunk
    passes. *)
Lemma query_no_results_witness :
  fst (RAGPipeline.query Demo.host0 (Demo.pipeline [1; 0; 0]%Q)
         (Str (js "fees"))
         {| RAGPipeline.topK := None;
            RAGPipeline.filters :=
              Some {| VectorStore.f_category := Some (js "finance");
                      VectorStore.f_language := None;
                      VectorStore.f_document_id := None |};
            RAGPipeline.generationConfig := None;
            RAGPipeline.includeMetadata := None |} start)
  = Return
      {| RAGPipeline.rmode := ModeNoResults;
         RAGPipeline.answer := RAGPipeline.noResultsAnswer;
         RAGPipeline.error := None;
         RAGPipeline.retrievedChunks := [];
         RAGPipeline.sources := [];
         RAGPipeline.rmetadata :=
           Some (RAGPipeline.QueryMetadata
                   (fadd
                      (fsub (performance_now Demo.host0 1)
                         (performance_now Demo.host0 0))
                      (fsub (performance_now Demo.host0 3)
                         (performance_now Demo.host0 2))) 0) |}.
Proof.
  rewrite (query_no_results Demo.host0 (Demo.pipeline [1; 0; 0]%Q)
             (Str (js "fees")) _ start [1; 0; 0]%Q);
    [ reflexivity | reflexivity | vm_compute; reflexivity ].
Defined.


(** ** The pipeline: [findSimilarDocuments] *)

Lemma documentFor_keyed (dm : DocumentManager.t)
    (sc : VectorStore.scored_chunk) (doc : Document.t) :
  Spec.keyedById dm ->
  RAGPipeline.documentFor dm sc = Some doc ->
  VectorStore.field Chunk.document_id sc = Some (Document.id doc)
  /\ DocumentManager.getDocumentById dm (Document.id doc) = Some doc.
Proof.
  intros Hkey. unfold RAGPipeline.documentFor.
  destruct (VectorStore.field Chunk.document_id sc) as [id|]; [|discriminate].
  cbn. intros Hdoc. rewrite (Hkey _ _ Hdoc). now split.
Qed.

Lemma collectSimilar_inv (dm : DocumentManager.t) (topK : Z)
    (results : list VectorStore.scored_chunk) :
  Spec.keyedById dm ->
  forall (seen : gset (option jsstring)) (docs : list (Document.t * Q)),
    List.NoDup (List.map (fun d => Document.id (fst d)) docs) ->
    (forall d, In d docs -> Some (Document.id (fst d)) ∈ seen) ->
    let out := RAGPipeline.collectSimilar dm topK results seen docs in
    List.NoDup (List.map (fun d => Document.id (fst d)) out)
    /\ (forall d, In d out -> In d docs \/ Some (Document.id (fst d)) ∉ seen)
    /\ Z.of_nat (length out) <= Z.max topK (Z.of_nat (length docs) + 1)
    /\ (forall d, In d out ->
          In d docs
          \/ exists sc,
               In sc results
               /\ RAGPipeline.documentFor dm sc = Some (fst d)
               /\ snd d = VectorStore.similarity_score sc).
Proof.
  intros Hkey. induction results as [|sc rest IH]; intros seen docs Hnd Hseen.
  - cbn. repeat split; auto. lia.
  - cbn [RAGPipeline.collectSimilar]. cbn zeta.
    set (id := VectorStore.field Chunk.document_id sc).
    destruct (decide (id ∈ seen)) as [Hin | Hnew].
    + destruct (IH seen docs Hnd Hseen) as (H1 & H2 & H3 & H4).
      repeat split; auto. intros d Hd.
      destruct (H4 d Hd) as [Hold | (sc' & Hsc' & Hres)]; [now left|].
      right. exists sc'. split; [now right | exact Hres].
    + set (docs' :=
             match RAGPipeline.documentFor dm sc with
             | Some doc => docs ++ [(doc, VectorStore.similarity_score sc)]
             | None => docs
             end).
      assert (Hfrom : forall d, In d docs' ->
                In d docs
                \/ (Some (Document.id (fst d)) = id
                    /\ RAGPipeline.documentFor dm sc = Some (fst d)
                    /\ snd d = VectorStore.similarity_score sc)).
      { intros d Hd. subst docs'.
        destruct (RAGPipeline.documentFor dm sc) as [doc|] eqn:E;
          [|now left].
        apply List.in_app_or in Hd as [Hd | [<- | []]]; [now left|].
        right. cbn [fst snd].
        destruct (documentFor_keyed dm sc doc Hkey E) as [Hid _].
        split; [now rewrite <- Hid|]. split; reflexivity. }
      assert (Hnd' : List.NoDup (List.map (fun d => Document.id (fst d)) docs')).
      { subst docs'.
        destruct (RAGPipeline.documentFor dm sc) as [doc|] eqn:E;
          [|exact Hnd].
        destruct (documentFor_keyed dm sc doc Hkey E) as [Hid _].
        rewrite List.map_app. cbn [List.map fst].
        apply List.NoDup_app;
          [exact Hnd | repeat constructor; intros [] |].
        intros x Hx Hx'. destruct Hx' as [<- | []].
        apply List.in_map_iff in Hx as (d & Hd_id & Hd).
        apply Hnew. fold id in Hid. rewrite Hid, <- Hd_id. now apply Hseen. }
      assert (Hseen' : forall d, In d docs' ->
                Some (Document.id (fst d)) ∈ seen ∪ {[id]}).
      { intros d Hd. apply elem_of_union.
        destruct (Hfrom d Hd) as [Hold | (Hid & _)];
          [left; now apply Hseen | right; now apply elem_of_singleton]. }
      assert (Hlen : (length docs' <= length docs + 1)%nat).
      { subst docs'. destruct (RAGPipeline.documentFor dm sc);
          rewrite ?length_app; cbn [length]; lia. }
      assert (Hout : forall d, In d docs' ->
                In d docs
                \/ exists sc0,
                     In sc0 (sc :: rest)
                     /\ RAGPipeline.documentFor dm sc0 = Some (fst d)
                     /\ snd d = VectorStore.similarity_score sc0).
      { intros d Hd. destruct (Hfrom d Hd) as [Hold | (_ & Hres)]; [now left|].
        right. exists sc. split; [now left | exact Hres]. }
      fold docs'. destruct (topK <=? Z.of_nat (length docs')) eqn:Estop.
      * split; [exact Hnd'|]. split; [|split; [lia | exact Hout]].
        intros d Hd. destruct (Hfrom d Hd) as [Hold | (Hid & _)];
          [now left | right; now rewrite Hid].
      * apply Z.leb_gt in Estop.
        destruct (IH (seen ∪ {[id]}) docs' Hnd' Hseen') as (H1 & H2 & H3 & H4).
        split; [exact H1|]. split; [|split; [lia|]].
        -- intros d Hd. destruct (H2 d Hd) as [Hd' | Hn].
           ++ destruct (Hfrom d Hd') as [Hold | (Hid & _)];
                [now left | right; now rewrite Hid].
           ++ right. intros Hs. apply Hn. apply elem_of_union. now left.
        -- intros d Hd. destruct (H4 d Hd) as [Hd' | (sc' & Hsc' & Hres)];
             [now apply Hout|].
           right. exists sc'. split; [now right | exact Hres].
Qed.

(** X29: with a catalog that files every document under its own id (as
    [loadMetadata] builds it), [findSimilarDocuments] returns catalog
    documents with pairwise different ids, never the document asked about,
    and at most [topK] of them, at most one when [topK] is below 1. *)
Theorem findSimilarDocuments_distinct (h : host) (p : RAGPipeline.t)
    (documentId : jsstring) (topK : Z) :
  Spec.keyedById (RAGPipeline.documentManager p) ->
  let out := RAGPipeline.findSimilarDocuments h p documentId topK in
  List.NoDup (List.map (fun d => Document.id (fst d)) out)
  /\ ~ In documentId (List.map (fun d => Document.id (fst d)) out)
  /\ Z.of_nat (length out) <= Z.max topK 1
  /\ (forall doc score,
        In (doc, score) out ->
        DocumentManager.getDocumentById (RAGPipeline.documentManager p)
          (Document.id doc) = Some doc).
Proof.
  intros Hkey. cbn zeta. unfold RAGPipeline.findSimilarDocuments.
  destruct (RAGPipeline.getDocumentChunks p documentId (Some 3))
    as [|first others].
  { cbn [List.map length In]. split; [constructor|].
    split; [tauto|]. split; [lia | tauto]. }
  destruct (VectorStore.search _ _ _ _ _ _) as [results | err].
  2: { cbn [List.map length In]. split; [constructor|].
       split; [tauto|]. split; [lia | tauto]. }
  destruct (collectSimilar_inv (RAGPipeline.documentManager p) topK results
              Hkey {[Some documentId]} [] (List.NoDup_nil _)
              ltac:(intros ? []))
    as (H1 & H2 & H3 & H4).
  split; [exact H1|]. split; [|split].
  - intros Hin. apply List.in_map_iff in Hin as (d & Hid & Hd).
    destruct (H2 d Hd) as [[] | Hn]. apply Hn. rewrite Hid.
    now apply elem_of_singleton.
  - cbn [length] in H3. lia.
  - intros doc score Hd.
    destruct (H4 _ Hd) as [[] | (sc & _ & Hres & _)]. cbn [fst] in Hres.
    now destruct (documentFor_keyed _ _ _ Hkey Hres).
Qed.

(** X29 for the pipeline over the three-chunk index, asked about
    document B. *)
Lemma findSimilarDocuments_distinct_witness :
  ~ In (js "B")
      (List.map (fun d => Document.id (fst d))
         (RAGPipeline.findSimilarDocuments Demo.host0
            (Demo.pipeline [1; 0; 0]%Q) (js "B") 5))
  /\ Z.of_nat
       (length (RAGPipeline.findSimilarDocuments Demo.host0
                  (Demo.pipeline [1; 0; 0]%Q) (js "B") 5)) <= 5.
Proof.
  destruct (findSimilarDocuments_distinct Demo.host0
              (Demo.pipeline [1; 0; 0]%Q) (js "B") 5
              (loaded_keyedById DocumentManager.new [Demo.docA] []))
    as (_ & Hnot & Hlen & _).
  split; [exact Hnot | exact Hlen].
Defined.

(** ** The pipeline: [getDocumentChunks] *)

(** X30: [getDocumentChunks] returns chunks of the document asked for
    only, as a prefix of the document's chunks in store order: the first
    [limit] of them (or all, when there are fewer) for a positive limit,
    and all of them for no limit or a limit that is not positive. *)
Theorem getDocumentChunks_prefix (p : RAGPipeline.t) (documentId : jsstring)
    (limit : option Z) :
  let all :=
    VectorStore.getChunksByDocument (RAGPipeline.vectorStore p) documentId in
  let out := RAGPipeline.getDocumentChunks p documentId limit in
  Forall (fun c => Chunk.document_id (VectorStore.chunk c) = documentId) out
  /\ out = take (length out) all
  /\ Z.of_nat (length out)
     = match limit with
       | Some n => if 0 <? n then Z.min n (Z.of_nat (length all))
                   else Z.of_nat (length all)
       | None => Z.of_nat (length all)
       end.
Proof.
  cbn zeta.
  assert (Hall : Forall
            (fun c => Chunk.document_id (VectorStore.chunk c) = documentId)
            (VectorStore.getChunksByDocument (RAGPipeline.vectorStore p)
               documentId)).
  { unfold VectorStore.getChunksByDocument. apply List.Forall_forall.
    intros c Hc. apply List.filter_In in Hc as [_ Heq].
    unfold str_eqb in Heq. now apply bool_decide_eq_true_1 in Heq. }
  unfold RAGPipeline.getDocumentChunks. cbn zeta.
  generalize dependent
    (VectorStore.getChunksByDocument (RAGPipeline.vectorStore p) documentId).
  intros all Hall.
  assert (Hwhole : Forall
            (fun c => Chunk.document_id (VectorStore.chunk c) = documentId) all
          /\ all = take (length all) all
          /\ Z.of_nat (length all) = Z.of_nat (length all)).
  { split; [exact Hall|]. split; [now rewrite firstn_all | reflexivity]. }
  destruct limit as [n|]; [|exact Hwhole].
  destruct (Z.ltb_spec 0 n) as [Hpos | Hneg]; [|exact Hwhole].
  rewrite slice_prefix by lia. split; [|split].
  - apply List.Forall_forall. intros c Hc.
    rewrite List.Forall_forall in Hall. apply Hall.
    apply list_elem_of_In. apply list_elem_of_In in Hc.
    eapply subseteq_take, Hc.
  - rewrite length_take.
    destruct (Nat.min_spec (Z.to_nat n) (length all)) as [[_ ->] | [Hle ->]];
      [reflexivity|].
    now rewrite firstn_all, firstn_all2 by exact Hle.
  - rewrite length_take. lia.
Qed.

(** ** Instances of the conditional parts of some properties *)

(** X6 on a text of three spaces. *)
Lemma splitIntoSentences_trimmed_witness :
  TextChunker.splitIntoSentences (js "   ") = [].
Proof.
  apply (proj2 (splitIntoSentences_trimmed (js "   "))). reflexivity.
Defined.

(** X11 on a batch whose second text is empty. *)
Lemma embedBatch_all_or_nothing_witness :
  exists err,
    EmbeddingManager.embedBatch (Demo.embedder [1; 0; 0]%Q)
      (Some [Str (js "fees"); Str []]) = Throw err.
Proof.
  apply (proj2 (embedBatch_all_or_nothing (Demo.embedder [1; 0; 0]%Q)
                  [Str (js "fees"); Str []])).
  reflexivity.
Defined.

(** X21 on a batch whose second query is empty. *)
Lemma batchRoute_all_or_nothing_witness :
  fst (QueryRouter.batchRoute Demo.host0
         (QueryRouter.new (Demo.embedder [1; 0; 0]%Q) Demo.store3)
         ([Str (js "fees")] ++ Str [] :: [Str (js "rules")]) start)
  = Throw (Error (js "User query must be a non-empty string")).
Proof.
  apply (proj2 (batchRoute_all_or_nothing Demo.host0
                  (QueryRouter.new (Demo.embedder [1; 0; 0]%Q) Demo.store3)
                  start));
    reflexivity.
Defined.

(** X24 for the catalog of one document. *)
Lemma loadMetadata_getDocumentById_witness :
  In Demo.docA [Demo.docA] /\ Document.id Demo.docA = js "A".
Proof.
  apply (proj1 (proj2 (loadMetadata_getDocumentById DocumentManager.new
                         [Demo.docA] [] (js "A")))).
  vm_compute. reflexivity.
Defined.
